(** * TelecomChatbot: the tools, the agent step engine and the stage graph

    A shallow embedding of [src/utils.py], [src/tools.py], [src/state.py]
    and [src/graph.py], of the cache of [src/data.py] and of the reply
    handling of [src/main.py] and [streamlit_app.py], followed by the
    properties stated about them.

    - Python [str] values are sequences of Unicode code points, modelled as
      [list N].  [str.lower], the class [\w] and the word boundary of
      [re], and [re.IGNORECASE] follow the Unicode tables of CPython 3.11
      (Unicode 14.0.0), the final sigma included; the white space removed
      by [str.strip] is the full list Python uses.
    - A [dict] is a finite map from strings to values; the rows of the
      customer directory and the rule table are typed as the loaders of
      [src/data.py] produce them.
    - An exception is a result [Raise]; a function that cannot raise
      returns its value directly.
    - The language model and the tool node are oracles: the outcome of the
      k-th invocation of the model, the messages the tool node returns in a
      round.  Nothing is assumed about them.
    - [while True] is a function with fuel; that six turns of fuel always
      suffice is a theorem, not an assumption.
    - The status log is the text of the file; the clock, whether the file
      can be opened and written, and how many characters of a write that
      fails reach the file are given to each call.
    - Logging and the accumulated API time (a float) are left out. *)

From Stdlib Require Import NArith ZArith List Ascii String Bool Lia.
From stdpp Require Import base option list gmap.

Set Warnings "-register-all".
Local Open Scope N_scope.

(** ** Python strings *)

Abbreviation str := (list N).

Module Py.

(** An ASCII literal as a Python string. *)
Definition txt (s : string) : str := N_of_ascii <$> list_ascii_of_string s.

(** *** Characters

    The upper-case and lower-case letters and the digits of ASCII, as the
    class [[a-zA-Z]] of a pattern reads them. *)
Definition is_upper (c : N) : bool := (65 <=? c) && (c <=? 90).
Definition is_lower (c : N) : bool := (97 <=? c) && (c <=? 122).
Definition is_digit (c : N) : bool := (48 <=? c) && (c <=? 57).
Definition is_alpha (c : N) : bool := is_upper c || is_lower c.

Definition in_ranges (c : N) (rs : list (N * N)) : bool :=
  existsb (fun r => (r.1 <=? c) && (c <=? r.2)) rs.

(** The tables of the Unicode character database that [str.lower] and the
    class [\w] of [re] consult, as CPython 3.11 carries them (Unicode
    14.0.0): the ranges of the code points [c] for which [chr(c).isalnum()]
    holds, with the underscore; the simple lower-case mapping; the
    case-ignorable code points; and the cased ones among the others. *)
Definition WORD_RANGES : list (N * N) :=
  [(48,57); (65,90); (95,95); (97,122); (170,170); (178,179); (181,181); (185,186); (188,190);
   (192,214); (216,246); (248,705); (710,721); (736,740); (748,748); (750,750); (880,884);
   (886,887); (890,893); (895,895); (902,902); (904,906); (908,908); (910,929); (931,1013);
   (1015,1153); (1162,1327); (1329,1366); (1369,1369); (1376,1416); (1488,1514); (1519,1522);
   (1568,1610); (1632,1641); (1646,1647); (1649,1747); (1749,1749); (1765,1766); (1774,1788);
   (1791,1791); (1808,1808); (1810,1839); (1869,1957); (1969,1969); (1984,2026); (2036,2037);
   (2042,2042); (2048,2069); (2074,2074); (2084,2084); (2088,2088); (2112,2136); (2144,2154);
   (2160,2183); (2185,2190); (2208,2249); (2308,2361); (2365,2365); (2384,2384); (2392,2401);
   (2406,2415); (2417,2432); (2437,2444); (2447,2448); (2451,2472); (2474,2480); (2482,2482);
   (2486,2489); (2493,2493); (2510,2510); (2524,2525); (2527,2529); (2534,2545); (2548,2553);
   (2556,2556); (2565,2570); (2575,2576); (2579,2600); (2602,2608); (2610,2611); (2613,2614);
   (2616,2617); (2649,2652); (2654,2654); (2662,2671); (2674,2676); (2693,2701); (2703,2705);
   (2707,2728); (2730,2736); (2738,2739); (2741,2745); (2749,2749); (2768,2768); (2784,2785);
   (2790,2799); (2809,2809); (2821,2828); (2831,2832); (2835,2856); (2858,2864); (2866,2867);
   (2869,2873); (2877,2877); (2908,2909); (2911,2913); (2918,2927); (2929,2935); (2947,2947);
   (2949,2954); (2958,2960); (2962,2965); (2969,2970); (2972,2972); (2974,2975); (2979,2980);
   (2984,2986); (2990,3001); (3024,3024); (3046,3058); (3077,3084); (3086,3088); (3090,3112);
   (3114,3129); (3133,3133); (3160,3162); (3165,3165); (3168,3169); (3174,3183); (3192,3198);
   (3200,3200); (3205,3212); (3214,3216); (3218,3240); (3242,3251); (3253,3257); (3261,3261);
   (3293,3294); (3296,3297); (3302,3311); (3313,3314); (3332,3340); (3342,3344); (3346,3386);
   (3389,3389); (3406,3406); (3412,3414); (3416,3425); (3430,3448); (3450,3455); (3461,3478);
   (3482,3505); (3507,3515); (3517,3517); (3520,3526); (3558,3567); (3585,3632); (3634,3635);
   (3648,3654); (3664,3673); (3713,3714); (3716,3716); (3718,3722); (3724,3747); (3749,3749);
   (3751,3760); (3762,3763); (3773,3773); (3776,3780); (3782,3782); (3792,3801); (3804,3807);
   (3840,3840); (3872,3891); (3904,3911); (3913,3948); (3976,3980); (4096,4138); (4159,4169);
   (4176,4181); (4186,4189); (4193,4193); (4197,4198); (4206,4208); (4213,4225); (4238,4238);
   (4240,4249); (4256,4293); (4295,4295); (4301,4301); (4304,4346); (4348,4680); (4682,4685);
   (4688,4694); (4696,4696); (4698,4701); (4704,4744); (4746,4749); (4752,4784); (4786,4789);
   (4792,4798); (4800,4800); (4802,4805); (4808,4822); (4824,4880); (4882,4885); (4888,4954);
   (4969,4988); (4992,5007); (5024,5109); (5112,5117); (5121,5740); (5743,5759); (5761,5786);
   (5792,5866); (5870,5880); (5888,5905); (5919,5937); (5952,5969); (5984,5996); (5998,6000);
   (6016,6067); (6103,6103); (6108,6108); (6112,6121); (6128,6137); (6160,6169); (6176,6264);
   (6272,6276); (6279,6312); (6314,6314); (6320,6389); (6400,6430); (6470,6509); (6512,6516);
   (6528,6571); (6576,6601); (6608,6618); (6656,6678); (6688,6740); (6784,6793); (6800,6809);
   (6823,6823); (6917,6963); (6981,6988); (6992,7001); (7043,7072); (7086,7141); (7168,7203);
   (7232,7241); (7245,7293); (7296,7304); (7312,7354); (7357,7359); (7401,7404); (7406,7411);
   (7413,7414); (7418,7418); (7424,7615); (7680,7957); (7960,7965); (7968,8005); (8008,8013);
   (8016,8023); (8025,8025); (8027,8027); (8029,8029); (8031,8061); (8064,8116); (8118,8124);
   (8126,8126); (8130,8132); (8134,8140); (8144,8147); (8150,8155); (8160,8172); (8178,8180);
   (8182,8188); (8304,8305); (8308,8313); (8319,8329); (8336,8348); (8450,8450); (8455,8455);
   (8458,8467); (8469,8469); (8473,8477); (8484,8484); (8486,8486); (8488,8488); (8490,8493);
   (8495,8505); (8508,8511); (8517,8521); (8526,8526); (8528,8585); (9312,9371); (9450,9471);
   (10102,10131); (11264,11492); (11499,11502); (11506,11507); (11517,11517); (11520,11557);
   (11559,11559); (11565,11565); (11568,11623); (11631,11631); (11648,11670); (11680,11686);
   (11688,11694); (11696,11702); (11704,11710); (11712,11718); (11720,11726); (11728,11734);
   (11736,11742); (11823,11823); (12293,12295); (12321,12329); (12337,12341); (12344,12348);
   (12353,12438); (12445,12447); (12449,12538); (12540,12543); (12549,12591); (12593,12686);
   (12690,12693); (12704,12735); (12784,12799); (12832,12841); (12872,12879); (12881,12895);
   (12928,12937); (12977,12991); (13312,19903); (19968,42124); (42192,42237); (42240,42508);
   (42512,42539); (42560,42606); (42623,42653); (42656,42735); (42775,42783); (42786,42888);
   (42891,42954); (42960,42961); (42963,42963); (42965,42969); (42994,43009); (43011,43013);
   (43015,43018); (43020,43042); (43056,43061); (43072,43123); (43138,43187); (43216,43225);
   (43250,43255); (43259,43259); (43261,43262); (43264,43301); (43312,43334); (43360,43388);
   (43396,43442); (43471,43481); (43488,43492); (43494,43518); (43520,43560); (43584,43586);
   (43588,43595); (43600,43609); (43616,43638); (43642,43642); (43646,43695); (43697,43697);
   (43701,43702); (43705,43709); (43712,43712); (43714,43714); (43739,43741); (43744,43754);
   (43762,43764); (43777,43782); (43785,43790); (43793,43798); (43808,43814); (43816,43822);
   (43824,43866); (43868,43881); (43888,44002); (44016,44025); (44032,55203); (55216,55238);
   (55243,55291); (63744,64109); (64112,64217); (64256,64262); (64275,64279); (64285,64285);
   (64287,64296); (64298,64310); (64312,64316); (64318,64318); (64320,64321); (64323,64324);
   (64326,64433); (64467,64829); (64848,64911); (64914,64967); (65008,65019); (65136,65140);
   (65142,65276); (65296,65305); (65313,65338); (65345,65370); (65382,65470); (65474,65479);
   (65482,65487); (65490,65495); (65498,65500); (65536,65547); (65549,65574); (65576,65594);
   (65596,65597); (65599,65613); (65616,65629); (65664,65786); (65799,65843); (65856,65912);
   (65930,65931); (66176,66204); (66208,66256); (66273,66299); (66304,66339); (66349,66378);
   (66384,66421); (66432,66461); (66464,66499); (66504,66511); (66513,66517); (66560,66717);
   (66720,66729); (66736,66771); (66776,66811); (66816,66855); (66864,66915); (66928,66938);
   (66940,66954); (66956,66962); (66964,66965); (66967,66977); (66979,66993); (66995,67001);
   (67003,67004); (67072,67382); (67392,67413); (67424,67431); (67456,67461); (67463,67504);
   (67506,67514); (67584,67589); (67592,67592); (67594,67637); (67639,67640); (67644,67644);
   (67647,67669); (67672,67702); (67705,67742); (67751,67759); (67808,67826); (67828,67829);
   (67835,67867); (67872,67897); (67968,68023); (68028,68047); (68050,68096); (68112,68115);
   (68117,68119); (68121,68149); (68160,68168); (68192,68222); (68224,68255); (68288,68295);
   (68297,68324); (68331,68335); (68352,68405); (68416,68437); (68440,68466); (68472,68497);
   (68521,68527); (68608,68680); (68736,68786); (68800,68850); (68858,68899); (68912,68921);
   (69216,69246); (69248,69289); (69296,69297); (69376,69415); (69424,69445); (69457,69460);
   (69488,69505); (69552,69579); (69600,69622); (69635,69687); (69714,69743); (69745,69746);
   (69749,69749); (69763,69807); (69840,69864); (69872,69881); (69891,69926); (69942,69951);
   (69956,69956); (69959,69959); (69968,70002); (70006,70006); (70019,70066); (70081,70084);
   (70096,70106); (70108,70108); (70113,70132); (70144,70161); (70163,70187); (70272,70278);
   (70280,70280); (70282,70285); (70287,70301); (70303,70312); (70320,70366); (70384,70393);
   (70405,70412); (70415,70416); (70419,70440); (70442,70448); (70450,70451); (70453,70457);
   (70461,70461); (70480,70480); (70493,70497); (70656,70708); (70727,70730); (70736,70745);
   (70751,70753); (70784,70831); (70852,70853); (70855,70855); (70864,70873); (71040,71086);
   (71128,71131); (71168,71215); (71236,71236); (71248,71257); (71296,71338); (71352,71352);
   (71360,71369); (71424,71450); (71472,71483); (71488,71494); (71680,71723); (71840,71922);
   (71935,71942); (71945,71945); (71948,71955); (71957,71958); (71960,71983); (71999,71999);
   (72001,72001); (72016,72025); (72096,72103); (72106,72144); (72161,72161); (72163,72163);
   (72192,72192); (72203,72242); (72250,72250); (72272,72272); (72284,72329); (72349,72349);
   (72368,72440); (72704,72712); (72714,72750); (72768,72768); (72784,72812); (72818,72847);
   (72960,72966); (72968,72969); (72971,73008); (73030,73030); (73040,73049); (73056,73061);
   (73063,73064); (73066,73097); (73112,73112); (73120,73129); (73440,73458); (73648,73648);
   (73664,73684); (73728,74649); (74752,74862); (74880,75075); (77712,77808); (77824,78894);
   (82944,83526); (92160,92728); (92736,92766); (92768,92777); (92784,92862); (92864,92873);
   (92880,92909); (92928,92975); (92992,92995); (93008,93017); (93019,93025); (93027,93047);
   (93053,93071); (93760,93846); (93952,94026); (94032,94032); (94099,94111); (94176,94177);
   (94179,94179); (94208,100343); (100352,101589); (101632,101640); (110576,110579);
   (110581,110587); (110589,110590); (110592,110882); (110928,110930); (110948,110951);
   (110960,111355); (113664,113770); (113776,113788); (113792,113800); (113808,113817);
   (119520,119539); (119648,119672); (119808,119892); (119894,119964); (119966,119967);
   (119970,119970); (119973,119974); (119977,119980); (119982,119993); (119995,119995);
   (119997,120003); (120005,120069); (120071,120074); (120077,120084); (120086,120092);
   (120094,120121); (120123,120126); (120128,120132); (120134,120134); (120138,120144);
   (120146,120485); (120488,120512); (120514,120538); (120540,120570); (120572,120596);
   (120598,120628); (120630,120654); (120656,120686); (120688,120712); (120714,120744);
   (120746,120770); (120772,120779); (120782,120831); (122624,122654); (123136,123180);
   (123191,123197); (123200,123209); (123214,123214); (123536,123565); (123584,123627);
   (123632,123641); (124896,124902); (124904,124907); (124909,124910); (124912,124926);
   (124928,125124); (125127,125135); (125184,125251); (125259,125259); (125264,125273);
   (126065,126123); (126125,126127); (126129,126132); (126209,126253); (126255,126269);
   (126464,126467); (126469,126495); (126497,126498); (126500,126500); (126503,126503);
   (126505,126514); (126516,126519); (126521,126521); (126523,126523); (126530,126530);
   (126535,126535); (126537,126537); (126539,126539); (126541,126543); (126545,126546);
   (126548,126548); (126551,126551); (126553,126553); (126555,126555); (126557,126557);
   (126559,126559); (126561,126562); (126564,126564); (126567,126570); (126572,126578);
   (126580,126583); (126585,126588); (126590,126590); (126592,126601); (126603,126619);
   (126625,126627); (126629,126633); (126635,126651); (127232,127244); (130032,130041);
   (131072,173791); (173824,177976); (177984,178205); (178208,183969); (183984,191456);
   (194560,195101); (196608,201546)].

Definition LOWER_TABLE : list (N * N * N * N) :=
  [(65,90,1,97); (192,214,1,224); (216,222,1,248); (256,302,2,257); (306,310,2,307);
   (313,327,2,314); (330,374,2,331); (376,376,2,255); (377,381,2,378); (385,385,2,595);
   (386,388,2,387); (390,390,2,596); (391,391,2,392); (393,394,1,598); (395,395,2,396);
   (398,398,2,477); (399,399,2,601); (400,400,2,603); (401,401,2,402); (403,403,2,608);
   (404,404,2,611); (406,406,2,617); (407,407,2,616); (408,408,2,409); (412,412,2,623);
   (413,413,2,626); (415,415,2,629); (416,420,2,417); (422,422,2,640); (423,423,2,424);
   (425,425,2,643); (428,428,2,429); (430,430,2,648); (431,431,2,432); (433,434,1,650);
   (435,437,2,436); (439,439,2,658); (440,440,2,441); (444,444,2,445); (452,452,2,454);
   (453,453,2,454); (455,455,2,457); (456,456,2,457); (458,458,2,460); (459,475,2,460);
   (478,494,2,479); (497,497,2,499); (498,500,2,499); (502,502,2,405); (503,503,2,447);
   (504,542,2,505); (544,544,2,414); (546,562,2,547); (570,570,2,11365); (571,571,2,572);
   (573,573,2,410); (574,574,2,11366); (577,577,2,578); (579,579,2,384); (580,580,2,649);
   (581,581,2,652); (582,590,2,583); (880,882,2,881); (886,886,2,887); (895,895,2,1011);
   (902,902,2,940); (904,906,1,941); (908,908,2,972); (910,911,1,973); (913,929,1,945);
   (931,939,1,963); (975,975,2,983); (984,1006,2,985); (1012,1012,2,952); (1015,1015,2,1016);
   (1017,1017,2,1010); (1018,1018,2,1019); (1021,1023,1,891); (1024,1039,1,1104);
   (1040,1071,1,1072); (1120,1152,2,1121); (1162,1214,2,1163); (1216,1216,2,1231);
   (1217,1229,2,1218); (1232,1326,2,1233); (1329,1366,1,1377); (4256,4293,1,11520);
   (4295,4295,2,11559); (4301,4301,2,11565); (5024,5103,1,43888); (5104,5109,1,5112);
   (7312,7354,1,4304); (7357,7359,1,4349); (7680,7828,2,7681); (7838,7838,2,223);
   (7840,7934,2,7841); (7944,7951,1,7936); (7960,7965,1,7952); (7976,7983,1,7968);
   (7992,7999,1,7984); (8008,8013,1,8000); (8025,8031,2,8017); (8040,8047,1,8032);
   (8072,8079,1,8064); (8088,8095,1,8080); (8104,8111,1,8096); (8120,8121,1,8112);
   (8122,8123,1,8048); (8124,8124,2,8115); (8136,8139,1,8050); (8140,8140,2,8131);
   (8152,8153,1,8144); (8154,8155,1,8054); (8168,8169,1,8160); (8170,8171,1,8058);
   (8172,8172,2,8165); (8184,8185,1,8056); (8186,8187,1,8060); (8188,8188,2,8179);
   (8486,8486,2,969); (8490,8490,2,107); (8491,8491,2,229); (8498,8498,2,8526);
   (8544,8559,1,8560); (8579,8579,2,8580); (9398,9423,1,9424); (11264,11311,1,11312);
   (11360,11360,2,11361); (11362,11362,2,619); (11363,11363,2,7549); (11364,11364,2,637);
   (11367,11371,2,11368); (11373,11373,2,593); (11374,11374,2,625); (11375,11375,2,592);
   (11376,11376,2,594); (11378,11378,2,11379); (11381,11381,2,11382); (11390,11391,1,575);
   (11392,11490,2,11393); (11499,11501,2,11500); (11506,11506,2,11507); (42560,42604,2,42561);
   (42624,42650,2,42625); (42786,42798,2,42787); (42802,42862,2,42803); (42873,42875,2,42874);
   (42877,42877,2,7545); (42878,42886,2,42879); (42891,42891,2,42892); (42893,42893,2,613);
   (42896,42898,2,42897); (42902,42920,2,42903); (42922,42922,2,614); (42923,42923,2,604);
   (42924,42924,2,609); (42925,42925,2,620); (42926,42926,2,618); (42928,42928,2,670);
   (42929,42929,2,647); (42930,42930,2,669); (42931,42931,2,43859); (42932,42946,2,42933);
   (42948,42948,2,42900); (42949,42949,2,642); (42950,42950,2,7566); (42951,42953,2,42952);
   (42960,42960,2,42961); (42966,42968,2,42967); (42997,42997,2,42998); (65313,65338,1,65345);
   (66560,66599,1,66600); (66736,66771,1,66776); (66928,66938,1,66967); (66940,66954,1,66979);
   (66956,66962,1,66995); (66964,66965,1,67003); (68736,68786,1,68800); (71840,71871,1,71872);
   (93760,93791,1,93792); (125184,125217,1,125218)].

Definition CASE_IGNORABLE_RANGES : list (N * N) :=
  [(39,39); (46,46); (58,58); (94,94); (96,96); (168,168); (173,173); (175,175); (180,180);
   (183,184); (688,879); (884,885); (890,890); (900,901); (903,903); (1155,1161); (1369,1369);
   (1375,1375); (1425,1469); (1471,1471); (1473,1474); (1476,1477); (1479,1479); (1524,1524);
   (1536,1541); (1552,1562); (1564,1564); (1600,1600); (1611,1631); (1648,1648); (1750,1757);
   (1759,1768); (1770,1773); (1807,1807); (1809,1809); (1840,1866); (1958,1968); (2027,2037);
   (2042,2042); (2045,2045); (2070,2093); (2137,2139); (2184,2184); (2192,2193); (2200,2207);
   (2249,2306); (2362,2362); (2364,2364); (2369,2376); (2381,2381); (2385,2391); (2402,2403);
   (2417,2417); (2433,2433); (2492,2492); (2497,2500); (2509,2509); (2530,2531); (2558,2558);
   (2561,2562); (2620,2620); (2625,2626); (2631,2632); (2635,2637); (2641,2641); (2672,2673);
   (2677,2677); (2689,2690); (2748,2748); (2753,2757); (2759,2760); (2765,2765); (2786,2787);
   (2810,2815); (2817,2817); (2876,2876); (2879,2879); (2881,2884); (2893,2893); (2901,2902);
   (2914,2915); (2946,2946); (3008,3008); (3021,3021); (3072,3072); (3076,3076); (3132,3132);
   (3134,3136); (3142,3144); (3146,3149); (3157,3158); (3170,3171); (3201,3201); (3260,3260);
   (3263,3263); (3270,3270); (3276,3277); (3298,3299); (3328,3329); (3387,3388); (3393,3396);
   (3405,3405); (3426,3427); (3457,3457); (3530,3530); (3538,3540); (3542,3542); (3633,3633);
   (3636,3642); (3654,3662); (3761,3761); (3764,3772); (3782,3782); (3784,3789); (3864,3865);
   (3893,3893); (3895,3895); (3897,3897); (3953,3966); (3968,3972); (3974,3975); (3981,3991);
   (3993,4028); (4038,4038); (4141,4144); (4146,4151); (4153,4154); (4157,4158); (4184,4185);
   (4190,4192); (4209,4212); (4226,4226); (4229,4230); (4237,4237); (4253,4253); (4348,4348);
   (4957,4959); (5906,5908); (5938,5939); (5970,5971); (6002,6003); (6068,6069); (6071,6077);
   (6086,6086); (6089,6099); (6103,6103); (6109,6109); (6155,6159); (6211,6211); (6277,6278);
   (6313,6313); (6432,6434); (6439,6440); (6450,6450); (6457,6459); (6679,6680); (6683,6683);
   (6742,6742); (6744,6750); (6752,6752); (6754,6754); (6757,6764); (6771,6780); (6783,6783);
   (6823,6823); (6832,6862); (6912,6915); (6964,6964); (6966,6970); (6972,6972); (6978,6978);
   (7019,7027); (7040,7041); (7074,7077); (7080,7081); (7083,7085); (7142,7142); (7144,7145);
   (7149,7149); (7151,7153); (7212,7219); (7222,7223); (7288,7293); (7376,7378); (7380,7392);
   (7394,7400); (7405,7405); (7412,7412); (7416,7417); (7468,7530); (7544,7544); (7579,7679);
   (8125,8125); (8127,8129); (8141,8143); (8157,8159); (8173,8175); (8189,8190); (8203,8207);
   (8216,8217); (8228,8228); (8231,8231); (8234,8238); (8288,8292); (8294,8303); (8305,8305);
   (8319,8319); (8336,8348); (8400,8432); (11388,11389); (11503,11505); (11631,11631);
   (11647,11647); (11744,11775); (11823,11823); (12293,12293); (12330,12333); (12337,12341);
   (12347,12347); (12441,12446); (12540,12542); (40981,40981); (42232,42237); (42508,42508);
   (42607,42610); (42612,42621); (42623,42623); (42652,42655); (42736,42737); (42752,42785);
   (42864,42864); (42888,42890); (42994,42996); (43000,43001); (43010,43010); (43014,43014);
   (43019,43019); (43045,43046); (43052,43052); (43204,43205); (43232,43249); (43263,43263);
   (43302,43309); (43335,43345); (43392,43394); (43443,43443); (43446,43449); (43452,43453);
   (43471,43471); (43493,43494); (43561,43566); (43569,43570); (43573,43574); (43587,43587);
   (43596,43596); (43632,43632); (43644,43644); (43696,43696); (43698,43700); (43703,43704);
   (43710,43711); (43713,43713); (43741,43741); (43756,43757); (43763,43764); (43766,43766);
   (43867,43871); (43881,43883); (44005,44005); (44008,44008); (44013,44013); (64286,64286);
   (64434,64450); (65024,65039); (65043,65043); (65056,65071); (65106,65106); (65109,65109);
   (65279,65279); (65287,65287); (65294,65294); (65306,65306); (65342,65342); (65344,65344);
   (65392,65392); (65438,65439); (65507,65507); (65529,65531); (66045,66045); (66272,66272);
   (66422,66426); (67456,67461); (67463,67504); (67506,67514); (68097,68099); (68101,68102);
   (68108,68111); (68152,68154); (68159,68159); (68325,68326); (68900,68903); (69291,69292);
   (69446,69456); (69506,69509); (69633,69633); (69688,69702); (69744,69744); (69747,69748);
   (69759,69761); (69811,69814); (69817,69818); (69821,69821); (69826,69826); (69837,69837);
   (69888,69890); (69927,69931); (69933,69940); (70003,70003); (70016,70017); (70070,70078);
   (70089,70092); (70095,70095); (70191,70193); (70196,70196); (70198,70199); (70206,70206);
   (70367,70367); (70371,70378); (70400,70401); (70459,70460); (70464,70464); (70502,70508);
   (70512,70516); (70712,70719); (70722,70724); (70726,70726); (70750,70750); (70835,70840);
   (70842,70842); (70847,70848); (70850,70851); (71090,71093); (71100,71101); (71103,71104);
   (71132,71133); (71219,71226); (71229,71229); (71231,71232); (71339,71339); (71341,71341);
   (71344,71349); (71351,71351); (71453,71455); (71458,71461); (71463,71467); (71727,71735);
   (71737,71738); (71995,71996); (71998,71998); (72003,72003); (72148,72151); (72154,72155);
   (72160,72160); (72193,72202); (72243,72248); (72251,72254); (72263,72263); (72273,72278);
   (72281,72283); (72330,72342); (72344,72345); (72752,72758); (72760,72765); (72767,72767);
   (72850,72871); (72874,72880); (72882,72883); (72885,72886); (73009,73014); (73018,73018);
   (73020,73021); (73023,73029); (73031,73031); (73104,73105); (73109,73109); (73111,73111);
   (73459,73460); (78896,78904); (92912,92916); (92976,92982); (92992,92995); (94031,94031);
   (94095,94111); (94176,94177); (94179,94180); (110576,110579); (110581,110587);
   (110589,110590); (113821,113822); (113824,113827); (118528,118573); (118576,118598);
   (119143,119145); (119155,119170); (119173,119179); (119210,119213); (119362,119364);
   (121344,121398); (121403,121452); (121461,121461); (121476,121476); (121499,121503);
   (121505,121519); (122880,122886); (122888,122904); (122907,122913); (122915,122916);
   (122918,122922); (123184,123197); (123566,123566); (123628,123631); (125136,125142);
   (125252,125259); (127995,127999); (917505,917505); (917536,917631); (917760,917999)].

Definition CASED_RANGES : list (N * N) :=
  [(65,90); (97,122); (170,170); (181,181); (186,186); (192,214); (216,246); (248,442);
   (444,447); (452,659); (661,687); (880,883); (886,887); (891,893); (895,895); (902,902);
   (904,906); (908,908); (910,929); (931,1013); (1015,1153); (1162,1327); (1329,1366);
   (1376,1416); (4256,4293); (4295,4295); (4301,4301); (4304,4346); (4349,4351); (5024,5109);
   (5112,5117); (7296,7304); (7312,7354); (7357,7359); (7424,7467); (7531,7543); (7545,7578);
   (7680,7957); (7960,7965); (7968,8005); (8008,8013); (8016,8023); (8025,8025); (8027,8027);
   (8029,8029); (8031,8061); (8064,8116); (8118,8124); (8126,8126); (8130,8132); (8134,8140);
   (8144,8147); (8150,8155); (8160,8172); (8178,8180); (8182,8188); (8450,8450); (8455,8455);
   (8458,8467); (8469,8469); (8473,8477); (8484,8484); (8486,8486); (8488,8488); (8490,8493);
   (8495,8500); (8505,8505); (8508,8511); (8517,8521); (8526,8526); (8544,8575); (8579,8580);
   (9398,9449); (11264,11387); (11390,11492); (11499,11502); (11506,11507); (11520,11557);
   (11559,11559); (11565,11565); (42560,42605); (42624,42651); (42786,42863); (42865,42887);
   (42891,42894); (42896,42954); (42960,42961); (42963,42963); (42965,42969); (42997,42998);
   (43002,43002); (43824,43866); (43872,43880); (43888,43967); (64256,64262); (64275,64279);
   (65313,65338); (65345,65370); (66560,66639); (66736,66771); (66776,66811); (66928,66938);
   (66940,66954); (66956,66962); (66964,66965); (66967,66977); (66979,66993); (66995,67001);
   (67003,67004); (68736,68786); (68800,68850); (71840,71903); (93760,93823); (119808,119892);
   (119894,119964); (119966,119967); (119970,119970); (119973,119974); (119977,119980);
   (119982,119993); (119995,119995); (119997,120003); (120005,120069); (120071,120074);
   (120077,120084); (120086,120092); (120094,120121); (120123,120126); (120128,120132);
   (120134,120134); (120138,120144); (120146,120485); (120488,120512); (120514,120538);
   (120540,120570); (120572,120596); (120598,120628); (120630,120654); (120656,120686);
   (120688,120712); (120714,120744); (120746,120770); (120772,120779); (122624,122633);
   (122635,122654); (125184,125251); (127280,127305); (127312,127337); (127344,127369)].

(** [\w] on a [str] pattern: [c.isalnum() or c == '_']. *)
Definition is_word (c : N) : bool := in_ranges c WORD_RANGES.

(** The characters [str.strip], [str.rstrip] and [str.isspace] treat as
    white space. *)
Definition is_space (c : N) : bool :=
  ((9 <=? c) && (c <=? 13)) || ((28 <=? c) && (c <=? 32))
  || (c =? 133) || (c =? 160) || (c =? 5760)
  || ((8192 <=? c) && (c <=? 8202))
  || (c =? 8232) || (c =? 8233) || (c =? 8239) || (c =? 8287) || (c =? 12288).

(** An entry [(first, last, step, image)] of the lower-case table maps
    [first], [first + step], ..., [last] to [image], [image + step], ... *)
Definition covers (c : N) (entry : N * N * N * N) : bool :=
  let '(first, last, step, _) := entry in
  (first <=? c) && (c <=? last) && ((c - first) mod step =? 0).

(** The lower case of one character: one character, except for the capital
    I with a dot above, which gives two. *)
Definition lower_char (c : N) : str :=
  if c =? 304 then [105; 775]
  else match List.find (covers c) LOWER_TABLE with
       | Some (first, _, _, image) => [image + (c - first)]
       | None => [c]
       end.

Definition is_case_ignorable (c : N) : bool := in_ranges c CASE_IGNORABLE_RANGES.

(** Asked only of a character that is not case-ignorable. *)
Definition is_cased (c : N) : bool := in_ranges c CASED_RANGES.

Fixpoint first_not_ignorable (s : str) : option N :=
  match s with
  | [] => None
  | c :: s' => if is_case_ignorable c then first_not_ignorable s' else Some c
  end.

(** A capital sigma is final when a cased letter stands before it and none
    after it, case-ignorable characters skipped on either side;
    [rev_before] is the text before it, backwards. *)
Definition final_sigma (rev_before after : str) : bool :=
  match first_not_ignorable rev_before with
  | Some c =>
      is_cased c
      && match first_not_ignorable after with
         | Some d => negb (is_cased d)
         | None => true
         end
  | None => false
  end.

Fixpoint lower_from (rev_before s : str) : str :=
  match s with
  | [] => []
  | c :: after =>
      (if c =? 931 then [if final_sigma rev_before after then 962 else 963]
       else lower_char c)
      ++ lower_from (c :: rev_before) after
  end.

(** [s.lower()] *)
Definition lower (s : str) : str := lower_from [] s.

Arguments is_word : simpl never.
Arguments is_case_ignorable : simpl never.
Arguments is_cased : simpl never.
Arguments lower_char : simpl never.
Arguments lower_from : simpl never.
Arguments lower : simpl never.

Fixpoint lstrip (s : str) : str :=
  match s with
  | c :: s' => if is_space c then lstrip s' else s
  | [] => []
  end.

(** [s.rstrip()] *)
Definition rstrip (s : str) : str := reverse (lstrip (reverse s)).

(** [s.strip()] *)
Definition strip (s : str) : str := rstrip (lstrip s).

(** [s.startswith(p)] *)
Fixpoint startswith (p s : str) : bool :=
  match p, s with
  | [], _ => true
  | a :: p', b :: s' => (a =? b) && startswith p' s'
  | _ :: _, [] => false
  end.

(** [p in s] for two strings. *)
Fixpoint contains (p s : str) : bool :=
  startswith p s ||
  match s with
  | [] => false
  | _ :: s' => contains p s'
  end.

(** [any(w in s for w in ws)] *)
Definition any_in (ws : list str) (s : str) : bool :=
  existsb (fun w => contains w s) ws.

(** [s.replace(c, r)] for a pattern [c] of one character. *)
Definition replace_char (c : N) (r : str) (s : str) : str :=
  flat_map (fun x => if x =? c then r else [x]) s.

(** Truth value of a string: non-empty. *)
Definition truthy (s : str) : bool :=
  match s with [] => false | _ => true end.

(** [x or d] for an optional string [x]. *)
Definition or_else (x : option str) (d : str) : str :=
  match x with
  | Some s => if truthy s then s else d
  | None => d
  end.

(** [s == t] *)
Definition eqb (s t : str) : bool := bool_decide (s = t).

(** [c in chars] for one character. *)
Definition char_in (c : N) (chars : str) : bool := existsb (N.eqb c) chars.

(** [s[-1]] *)
Definition last_char (s : str) : option N := last s.

End Py.

(** ** Python values *)

(** The values found in the dictionaries the tools return and in the rows of
    the customer directory. *)
Inductive val :=
  | VNone
  | VBool (b : bool)
  | VNum (z : Z)
  | VStr (s : str)
  | VList (l : list val)
  | VDict (kvs : list (str * val)).

Abbreviation dict := (gmap str val).

(** A block of a message whose content is a list: a [str], or a [dict] with
    optional [type] and [text] entries. *)
Inductive block :=
  | BStr (s : str)
  | BDict (type : option str) (text : option str).

(** The content of a message: a [str], a list of blocks or, for a tool
    message, possibly a [dict]. *)
Inductive content :=
  | CStr (s : str)
  | CBlocks (bs : list block)
  | CDict (d : dict).

(** ** Regular expressions of [src/utils.py]

    The two patterns are sequences of character classes, each taken once or
    repeated greedily, and word-boundary assertions.  [match_here] follows
    the backtracking order of Python's [re]: a repetition first takes the
    longest run and gives characters back one at a time. *)

Module Regex.
Import Py.

Inductive item :=
  | Boundary
  | One (p : N -> bool)
  | Many (p : N -> bool) (least : nat).

Definition word_opt (c : option N) : bool :=
  match c with Some x => is_word x | None => false end.

(** [\b] holds between [prev] and [next] when exactly one of them is a word
    character. *)
Definition at_boundary (prev next : option N) : bool :=
  xorb (word_opt prev) (word_opt next).

(** Length of the longest prefix of [s] inside the class [p]. *)
Fixpoint run (p : N -> bool) (s : str) : nat :=
  match s with
  | c :: s' => if p c then S (run p s') else 0%nat
  | [] => 0%nat
  end.

(** [f k], [f (k-1)], ..., [f least]: the first that succeeds. *)
Fixpoint first_down {A} (f : nat -> option A) (least k : nat) : option A :=
  if (k <? least)%nat then None
  else match f k with
       | Some a => Some a
       | None => match k with
                 | O => None
                 | S k' => first_down f least k'
                 end
       end.

(** The character before position [k] of [s], where [prev] precedes [s]. *)
Definition prev_at (prev : option N) (s : str) (k : nat) : option N :=
  match last (take k s) with
  | Some c => Some c
  | None => prev
  end.

(** Match the items at the start of [s]; the result is the matched text. *)
Fixpoint match_here (its : list item) (prev : option N) (s : str) : option str :=
  match its with
  | [] => Some []
  | Boundary :: r =>
      if at_boundary prev (head s) then match_here r prev s else None
  | One p :: r =>
      match s with
      | c :: s' => if p c then (cons c) <$> match_here r (Some c) s' else None
      | [] => None
      end
  | Many p least :: r =>
      first_down
        (fun k => (app (take k s)) <$> match_here r (prev_at prev s k) (drop k s))
        least (run p s)
  end.

(** [re.search]: the match at the leftmost position that has one. *)
Fixpoint search_from (its : list item) (prev : option N) (s : str) : option str :=
  match match_here its prev s with
  | Some m => Some m
  | None =>
      match s with
      | [] => None
      | c :: s' => search_from its (Some c) s'
      end
  end.

Definition search (its : list item) (s : str) : option str :=
  search_from its None s.

(** The characters of a class given by enumeration. *)
Definition one_of (cs : str) : N -> bool := fun x => char_in x cs.

Definition is_char (c : N) : N -> bool := fun x => x =? c.

(** [\bcust_\w+\b] with [re.IGNORECASE]: a letter of the pattern matches
    its two cases, and [s] also the long s (U+017F), whose upper case is
    [S]. *)
Definition CUST_RE : list item :=
  [Boundary;
   One (one_of [99; 67]); One (one_of [117; 85]); One (one_of [115; 83; 383]);
   One (one_of [116; 84]); One (one_of [95]);
   Many is_word 1; Boundary].

(** [\b[\w.\-+]+@[\w.\-]+\.[a-zA-Z]{2,}\b] *)
Definition EMAIL_RE : list item :=
  [Boundary;
   Many (fun c => is_word c || char_in c (txt ".-+")) 1;
   One (is_char 64);
   Many (fun c => is_word c || char_in c (txt ".-")) 1;
   One (is_char 46);
   Many is_alpha 2;
   Boundary].

End Regex.

(** ** [src/utils.py] *)

Module Utils.
Import Py Regex.

(** [extract_email_or_cust_id]: a [CUST_] id is looked for first, an email
    only when there is none. *)
Definition extract_email_or_cust_id (raw : str) : option str :=
  if negb (truthy raw) then None
  else
    let s := strip raw in
    match search CUST_RE s with
    | Some m => Some (strip m)
    | None =>
        match search EMAIL_RE s with
        | Some m => Some (strip m)
        | None => None
        end
    end.


Definition ELLIPSIS : str := [8230].
Definition EM_DASH : str := [8212].

(** The characters that count as a sentence end: full stop, question mark,
    exclamation mark, double quote and apostrophe. *)
Definition SENTENCE_END : str := [46; 63; 33; 34; 39].

Definition _finish_if_chopped (text : str) : str :=
  if negb (truthy text) || (length text <? 200)%nat then text
  else
    let t := rstrip text in
    match last_char t with
    | Some c => if negb (char_in c SENTENCE_END) then t ++ ELLIPSIS else text
    | None => text
    end.

Definition ANYTHING_ELSE : str := txt "Is there anything else I can help you with?".

Definition sanitize_internal_jargon (text : str) : str :=
  if negb (truthy text) then []
  else
    let t := lower (strip text) in
    if contains (txt "route") t
       && (contains (txt "has been set") t || contains (txt "set to ") t)
    then ANYTHING_ELSE
    else if contains (txt "set to end") t || contains (txt "set to retention") t
            || contains (txt "set to cancel") t || contains (txt "set to billing") t
            || contains (txt "set to tech") t
    then ANYTHING_ELSE
    else text.

Definition fallback_reply_for_route (route : str) : str :=
  let r := lower (strip route) in
  if eqb r (txt "billing") then
    txt "I'm checking your billing details now" ++ EM_DASH
        ++ txt "I'll have an answer for you in just a moment."
  else if eqb r (txt "retention") then
    txt "I'm pulling together some options that might work better for you"
        ++ EM_DASH ++ txt "give me a moment."
  else if eqb r (txt "cancel") then
    txt "I've got your request. One moment while I take care of that."
  else if eqb r (txt "tech") then
    txt "I'm looking up the best steps for you" ++ EM_DASH ++ txt "one moment."
  else if eqb r (txt "end") then
    txt "Thanks for reaching out. We're all set here; reach out anytime if something else comes up."
  else
    txt "I'm on it" ++ EM_DASH ++ txt "one moment and I'll get back to you.".

(** Truncation repair followed by jargon replacement: what
    [extract_message_text] applies to the text it has collected. *)
Definition sanitize (raw : str) : str :=
  sanitize_internal_jargon (_finish_if_chopped raw).

(** [sep.join(parts)] *)
Fixpoint join (sep : str) (parts : list str) : str :=
  match parts with
  | [] => []
  | [p] => p
  | p :: ps => p ++ sep ++ join sep ps
  end.

Definition block_text (b : block) : option str :=
  match b with
  | BDict (Some ty) (Some t) => if eqb ty (txt "text") then Some (strip t) else None
  | BDict _ _ => None
  | BStr s => Some (strip s)
  end.

(** [str_other] is [str(content)] for a content that is neither a string nor
    a list. *)
Definition extract_message_text (str_other : dict -> str) (c : option content) : str :=
  match c with
  | None => []
  | Some (CStr s) => sanitize (strip s)
  | Some (CBlocks bs) =>
      let parts := omap block_text bs in
      sanitize (join [10] (filter (fun p => truthy p = true) parts))
  | Some (CDict d) => sanitize (strip (str_other d))
  end.

(** The sanitizer as applied to a displayed assistant string. *)
Definition display (s : str) : str :=
  extract_message_text (fun _ => []) (Some (CStr s)).

End Utils.

(** ** Exceptions *)

Inductive error :=
  | KeyError (k : str)
  | ValueError (msg : str)
  | RuntimeError (msg : str)
  | UnicodeEncodeError (text : str).

Inductive exc (A : Type) :=
  | Ok (a : A)
  | Raise (e : error).
Arguments Ok {A} a.
Arguments Raise {A} e.

#[global] Instance exc_ret : MRet exc := fun A a => Ok a.

#[global] Instance exc_bind : MBind exc := fun A B f m =>
  match m with
  | Ok a => f a
  | Raise e => Raise e
  end.

#[global] Instance exc_fmap : FMap exc := fun A B f m =>
  match m with
  | Ok a => Ok (f a)
  | Raise e => Raise e
  end.

(** [d[k]]: a missing key raises [KeyError]. *)
Definition getitem {V} (d : gmap str V) (k : str) : exc V :=
  match d !! k with
  | Some v => Ok v
  | None => Raise (KeyError k)
  end.

(** [k in d] *)
Definition has_key {V} (d : gmap str V) (k : str) : bool :=
  match d !! k with Some _ => true | None => false end.

(** ** [src/tools.py] *)

Module Tools.
Import Py Utils.

(** A row of [customers.csv] as [csv.DictReader] yields it: a missing field
    reads as [None]. *)
Abbreviation row := (gmap str (option str)).

(** [retention_rules.json]: category, then tier or sub-reason, then the
    offers in order. *)
Abbreviation rules := (gmap str (gmap str (list val))).

Definition REASON_MAP : list (str * (str * option str)) :=
  [ (txt "financial_hardship", (txt "financial_hardship", None));
    (txt "financial", (txt "financial_hardship", None));
    (txt "money", (txt "financial_hardship", None));
    (txt "afford", (txt "financial_hardship", None));
    (txt "overheating", (txt "product_issues", Some (txt "overheating")));
    (txt "battery", (txt "product_issues", Some (txt "battery_issues")));
    (txt "battery_issues", (txt "product_issues", Some (txt "battery_issues")));
    (txt "product_issues", (txt "product_issues", Some (txt "overheating")));
    (txt "service_value", (txt "service_value", Some (txt "care_plus_premium")));
    (txt "value", (txt "service_value", Some (txt "care_plus_premium"))) ].

Definition TIER_KEY : gmap str str :=
  list_to_map
    [ (txt "premium", txt "premium_customers");
      (txt "regular", txt "regular_customers");
      (txt "new", txt "new_customers") ].

(** *** Access to the customer directory

    A computation that may call [get_customers()]: it receives the
    directory and reports how many times it asked for it. *)
Definition Dir (A : Type) : Type := list row -> A * nat.

Definition dir_ret {A} (a : A) : Dir A := fun _ => (a, 0%nat).

Definition dir_bind {A B} (m : Dir A) (f : A -> Dir B) : Dir B :=
  fun cs => let '(a, n) := m cs in
            let '(b, k) := f a cs in (b, (n + k)%nat).

Definition get_customers : Dir (list row) := fun cs => (cs, 1%nat).

(** [(row.get(k) or "").strip().lower()] *)
Definition field_key (r : row) (k : str) : str :=
  lower (strip (or_else (mjoin (r !! k)) [])).

Definition row_val (v : option str) : val :=
  match v with Some s => VStr s | None => VNone end.

(** [{"found": True, **row}]: an entry of the row wins over the first one. *)
Definition found_record (r : row) : dict :=
  (row_val <$> r) ∪ {[ txt "found" := VBool true ]}.

Definition not_found (message : str) : dict :=
  <[ txt "message" := VStr message ]> {[ txt "found" := VBool false ]}.

Definition NO_INPUT : str := txt "No email or customer_id provided.".

Definition INVALID_INPUT : str :=
  txt "Invalid input: pass only an email (e.g. name@email.com) or customer_id "
  ++ txt "(e.g. CUST_001). Do not pass the customer's request or question text. "
  ++ txt "If the customer has not given an email or ID yet, ask them for it.".

(** The loop over the rows: the first row whose field [k] matches. *)
Definition find_row (k : str) (raw_lower : str) (customers : list row) : option row :=
  List.find (fun r => eqb (field_key r k) raw_lower) customers.

Definition lookup_by_id (raw : str) (customers : list row) : dict :=
  match find_row (txt "customer_id") (lower raw) customers with
  | Some r => found_record r
  | None => not_found (txt "No customer found with customer_id " ++ raw ++ txt ".")
  end.

Definition lookup_by_email (raw : str) (customers : list row) : dict :=
  match find_row (txt "email") (lower raw) customers with
  | Some r => found_record r
  | None =>
      not_found (txt "No customer found with email " ++ raw
                 ++ txt ". Valid examples: sarah.chen@email.com, jennifer.lee@email.com, or CUST_001.")
  end.

Definition get_customer_data (email : str) : Dir dict :=
  let raw := strip email in
  if negb (truthy raw) then dir_ret (not_found NO_INPUT)
  else
    let raw :=
      match extract_email_or_cust_id raw with
      | Some lookup => if truthy lookup then lookup else raw
      | None => raw
      end in
    let raw_lower := lower raw in
    if negb (contains (txt "@") raw) && negb (startswith (txt "cust_") raw_lower)
    then dir_ret (not_found INVALID_INPUT)
    else
      dir_bind get_customers (fun customers =>
        if startswith (txt "cust_") raw_lower
        then dir_ret (lookup_by_id raw customers)
        else dir_ret (lookup_by_email raw customers)).

(** *** Retention offers *)

(** The loop over [REASON_MAP.items()]: the first key found in the reason,
    or in the reason without underscores. *)
Definition resolve_reason (reason_raw : str) : option (str * option str) :=
  snd <$> List.find
    (fun e => contains (fst e) reason_raw
              || contains (fst e) (replace_char 95 [] reason_raw))
    REASON_MAP.

Definition invalid_tier (customer_tier : str) : dict :=
  <[ txt "message" :=
       VStr (txt "Invalid customer_tier: " ++ customer_tier
             ++ txt ". Use premium, regular, or new.") ]>
  {[ txt "offers" := VList [] ]}.

Definition no_rules : dict :=
  <[ txt "message" := VStr (txt "Retention rules not available.") ]>
  {[ txt "offers" := VList [] ]}.

(** [rules[top_key].get(key, [])], copied with [list]. *)
Definition offers_at (rs : rules) (top_key key : str) : exc (list val) :=
  d ← getitem rs top_key;
  Ok (default [] (d !! key)).

(** The offers for a valid tier: the reason is resolved to a category and
    a sub-reason, and the offers are read from the rule table. *)
Definition select_offers (rs : rules) (tier reason_raw : str) : exc (list val) :=
  let '(top_key, sub_key) :=
    match resolve_reason reason_raw with
    | Some (tk, sk) => if truthy tk then (tk, sk) else (txt "financial_hardship", None)
    | None => (txt "financial_hardship", None)
    end in
  tier_key ← getitem TIER_KEY tier;
  if eqb top_key (txt "financial_hardship") && has_key rs top_key
  then offers_at rs top_key tier_key
  else if eqb top_key (txt "product_issues") && has_key rs top_key
  then offers_at rs top_key (or_else sub_key (txt "overheating"))
  else if eqb top_key (txt "service_value") && has_key rs top_key
  then offers_at rs top_key (or_else sub_key (txt "care_plus_premium"))
  else Ok [].

Definition calculate_retention_offer (rs : rules) (customer_tier reason : str)
  : exc dict :=
  let tier := lower (strip customer_tier) in
  let reason_raw := replace_char 32 (txt "_") (lower (strip reason)) in
  if negb (has_key TIER_KEY tier) then Ok (invalid_tier customer_tier)
  else if bool_decide (rs = ∅) then Ok no_rules
  else
    offers ← select_offers rs tier reason_raw;
    Ok (<[ txt "reason" := VStr reason_raw ]>
        (<[ txt "customer_tier" := VStr tier ]>
         {[ txt "offers" := VList offers ]})).

(** *** The status log *)

(** [datetime.now(tz=timezone.utc)] *)
Record datetime := {
  year : N; month : N; day : N;
  hour : N; minute : N; second : N; microsecond : N
}.

Fixpoint uint_codes (d : Decimal.uint) : str :=
  match d with
  | Decimal.Nil => []
  | Decimal.D0 d => 48 :: uint_codes d
  | Decimal.D1 d => 49 :: uint_codes d
  | Decimal.D2 d => 50 :: uint_codes d
  | Decimal.D3 d => 51 :: uint_codes d
  | Decimal.D4 d => 52 :: uint_codes d
  | Decimal.D5 d => 53 :: uint_codes d
  | Decimal.D6 d => 54 :: uint_codes d
  | Decimal.D7 d => 55 :: uint_codes d
  | Decimal.D8 d => 56 :: uint_codes d
  | Decimal.D9 d => 57 :: uint_codes d
  end.

(** [n] in decimal, padded with zeros to [width] digits. *)
Definition zpad (width : nat) (n : N) : str :=
  let ds := uint_codes (N.to_uint n) in
  repeat 48 (width - length ds) ++ ds.

(** [dt.isoformat()] for a time in UTC: the microseconds are printed only
    when they are not zero. *)
Definition isoformat (dt : datetime) : str :=
  zpad 4 (year dt) ++ txt "-" ++ zpad 2 (month dt) ++ txt "-" ++ zpad 2 (day dt)
  ++ txt "T" ++ zpad 2 (hour dt) ++ txt ":" ++ zpad 2 (minute dt)
  ++ txt ":" ++ zpad 2 (second dt)
  ++ (if microsecond dt =? 0 then [] else txt "." ++ zpad 6 (microsecond dt))
  ++ txt "+00:00".

Definition TAB : N := 9.
Definition NEWLINE : N := 10.

(** What the system answers during one call: the time; whether creating
    the directory and opening the file succeed; whether the write then
    succeeds, and, when it does not, how much of the line has reached the
    file; [io_error] is the text of the [OSError] raised on a failure. *)
Record io := {
  now : datetime;
  open_ok : bool;
  write_ok : bool;
  written : nat;
  io_error : str
}.

Definition status (success : bool) (message : str) : dict :=
  <[ txt "message" := VStr message ]> {[ txt "success" := VBool success ]}.

(** The line written to the log. *)
Definition log_line (ts customer_id action : str) : str :=
  ts ++ [TAB] ++ customer_id ++ [TAB] ++ action ++ [NEWLINE].

Definition is_surrogate (c : N) : bool := (55296 <=? c) && (c <=? 57343).

(** A text the UTF-8 codec encodes: one without a surrogate. *)
Definition encodable (s : str) : bool := forallb (fun c => negb (is_surrogate c)) s.

Definition write_failed (sys : io) : dict :=
  status false (txt "Failed to write log: " ++ io_error sys
                ++ txt ". Please contact support.").

(** [update_customer_status]: the result, or the exception that leaves
    the call, and the content of the log file after the call, given its
    content [log] before.  Only an [OSError] is caught: the
    [UnicodeEncodeError] of a line that cannot be encoded leaves the call. *)
Definition update_customer_status (sys : io) (customer_id action : str) (log : str)
  : exc dict * str :=
  let customer_id := strip customer_id in
  let action := strip action in
  if negb (truthy customer_id) || negb (truthy action)
  then (Ok (status false (txt "customer_id and action are required.")), log)
  else if negb (open_ok sys) then (Ok (write_failed sys), log)
  else
    let line := log_line (isoformat (now sys)) customer_id action in
    if negb (encodable line) then (Raise (UnicodeEncodeError line), log)
    else if write_ok sys
    then (Ok (status true (txt "Logged " ++ action ++ txt " for " ++ customer_id
                           ++ txt ".")),
          log ++ line)
    else (Ok (write_failed sys), log ++ take (written sys) line).

(** A sequence of calls, the log threaded through them. *)
Fixpoint update_all (calls : list (io * str * str)) (log : str)
  : list (exc dict) * str :=
  match calls with
  | [] => ([], log)
  | (sys, customer_id, action) :: rest =>
      let '(r, log1) := update_customer_status sys customer_id action log in
      let '(rs, log2) := update_all rest log1 in
      (r :: rs, log2)
  end.

(** Reading the log back: the lines, and the three fields of a line. *)
Fixpoint split_on (sep : N) (s : str) : list str :=
  match s with
  | [] => [[]]
  | c :: s' =>
      if c =? sep then [] :: split_on sep s'
      else match split_on sep s' with
           | f :: fs => (c :: f) :: fs
           | [] => [[c]]
           end
  end.

(** The lines of a text, each ended by a newline; [None] when the text
    does not end with one. *)
Definition lines (s : str) : option (list str) :=
  match reverse (split_on NEWLINE s) with
  | [] :: ls => Some (reverse ls)
  | _ => None
  end.

Definition parse_line (l : str) : option (str * str * str) :=
  match split_on TAB l with
  | [ts; customer_id; action] => Some (ts, customer_id, action)
  | _ => None
  end.

End Tools.

(** ** [src/state.py] and [src/graph.py] *)

Module Graph.
Import Py Utils Tools.

Definition ROUTE_RETENTION : str := txt "retention".
Definition ROUTE_CANCEL : str := txt "cancel".
Definition ROUTE_TECH : str := txt "tech".
Definition ROUTE_BILLING : str := txt "billing".
Definition ROUTE_END : str := txt "end".

(** A tool call requested by the model: its name and the [route] argument,
    either of which may be missing. *)
Record tool_call := {
  tc_name : option str;
  tc_route : option str
}.

Inductive message :=
  | SystemMessage (c : str)
  | HumanMessage (c : content)
  | AIMessage (c : content) (tool_calls : list tool_call)
  | ToolMessage (name : option str) (c : content).

Record State := {
  messages : list message;
  customer_data : option dict;
  next_route : option str
}.

(** Truth values. *)
Definition val_truthy (v : val) : bool :=
  match v with
  | VNone => false
  | VBool b => b
  | VNum z => negb (z =? 0)%Z
  | VStr s => truthy s
  | VList l => match l with [] => false | _ => true end
  | VDict kvs => match kvs with [] => false | _ => true end
  end.

Definition content_truthy (c : content) : bool :=
  match c with
  | CStr s => truthy s
  | CBlocks bs => match bs with [] => false | _ => true end
  | CDict d => negb (bool_decide (d = ∅))
  end.

(** [d.get("found")] is true. *)
Definition get_found (d : dict) : bool :=
  match d !! txt "found" with
  | Some v => val_truthy v
  | None => false
  end.

(** [d.get("found") is True] *)
Definition found_is_True (d : dict) : bool :=
  match d !! txt "found" with
  | Some (VBool true) => true
  | _ => false
  end.

(** [customer_data and isinstance(customer_data, dict) and
    customer_data.get("found")] *)
Definition has_found (cd : option dict) : bool :=
  match cd with
  | Some d => negb (bool_decide (d = ∅)) && get_found d
  | None => false
  end.

(** What lies outside the repository: whether an API key is set, the
    model ([llm e k] is the response to the k-th invocation, content and
    tool calls, or [None] when that invocation raises), the tool node (the
    messages it returns in a round for a response), the customer directory
    behind [get_customer_data], and how Python prints values that are not
    strings. *)
Record env := {
  api_key : bool;
  llm : nat -> option (content * list tool_call);
  tool_node : nat -> content -> list tool_call -> list message;
  customers : list row;
  str_block : block -> str;
  str_blocks : list block -> str;
  str_dict : dict -> str
}.

(** [str(content)] *)
Definition str_content (e : env) (c : content) : str :=
  match c with
  | CStr s => s
  | CBlocks bs => str_blocks e bs
  | CDict d => str_dict e d
  end.

Definition max_tool_rounds : nat := 6.

(** The variables of the main loop; [calls] counts the invocations of the
    model made so far. *)
Record loop_state := {
  ls_messages : list message;
  ls_customer_data_out : option dict;
  ls_next_route : option str;
  ls_has_status_update : bool;
  ls_tool_rounds : nat;
  ls_calls : nat
}.

Definition PROFILE_PREFIX : str := txt "Customer profile:".

Definition profile_message (e : env) (d : dict) : message :=
  SystemMessage (txt "Customer profile: " ++ str_dict e d).

(** The text of a user message as the pre-fetch reads it. *)
Definition human_text (e : env) (c : content) : str :=
  match c with
  | CStr s => s
  | CBlocks bs =>
      join (txt " ")
        ((fun b => match b with
                   | BDict _ (Some t) => t
                   | BStr s => s
                   | _ => str_block e b
                   end) <$> bs)
  | CDict _ => str_content e c
  end.

(** The pre-fetch loop over the messages: the first user message with an
    identifier whose lookup succeeds. *)
Fixpoint prefetch (e : env) (ms : list message) : option dict :=
  match ms with
  | [] => None
  | HumanMessage c :: rest =>
      if content_truthy c then
        match extract_email_or_cust_id (human_text e c) with
        | Some extracted =>
            if truthy extracted then
              let result := fst (get_customer_data extracted (customers e)) in
              if get_found result then Some result else prefetch e rest
            else prefetch e rest
        | None => prefetch e rest
        end
      else prefetch e rest
  | _ :: rest => prefetch e rest
  end.

Definition starts_with_profile (ms : list message) : bool :=
  match ms with
  | SystemMessage c :: _ => startswith PROFILE_PREFIX c
  | _ => false
  end.

(** [str(m.content).lower()] of the last user message with a content. *)
Fixpoint last_user_of (render : content -> str) (rev_ms : list message) : str :=
  match rev_ms with
  | [] => []
  | HumanMessage c :: rest =>
      if content_truthy c then render c else last_user_of render rest
  | _ :: rest => last_user_of render rest
  end.

Definition str_lower (e : env) (c : content) : str :=
  lower (str_content e c).

(** In the branch for the route [end] a content that is not a string is
    printed without being lowered. *)
Definition str_lower_if_str (e : env) (c : content) : str :=
  match c with
  | CStr s => lower s
  | _ => str_content e c
  end.

(** One invocation of the model: its answer, or [None] when it raises. *)
Definition invoke (e : env) (calls : nat) : option (content * list tool_call) * nat :=
  (llm e calls, S calls).

(** An invocation that is tried again once when it raises. *)
Definition invoke_retry (e : env) (failure : str) (calls : nat)
  : exc (content * list tool_call * nat) :=
  match llm e calls with
  | Some r => Ok (r, S calls)
  | None =>
      match llm e (S calls) with
      | Some r => Ok (r, S (S calls))
      | None => Raise (RuntimeError failure)
      end
  end.

(** The loop over the tool calls of a response. *)
Definition scan_tool_calls (tcs : list tool_call) (next_route : option str)
    (has_status_update : bool) : option str * bool :=
  foldl (fun acc tc =>
           let '(nr, hs) := acc in
           let nr :=
             if bool_decide (tc_name tc = Some (txt "set_route"))
             then Some (lower (strip (or_else (tc_route tc) (txt "end"))))
             else nr in
           let hs :=
             if bool_decide (tc_name tc = Some (txt "update_customer_status"))
             then true else hs in
           (nr, hs))
        (next_route, has_status_update) tcs.

(** The first tool message whose content is a [dict] with [found] being
    [True]. *)
Fixpoint found_profile (tms : list message) : option dict :=
  match tms with
  | [] => None
  | ToolMessage _ (CDict d) :: rest =>
      if found_is_True d then Some d else found_profile rest
  | _ :: rest => found_profile rest
  end.

Definition only_set_route (tcs : list tool_call) : bool :=
  forallb (fun tc => eqb (lower (strip (or_else (tc_name tc) []))) (txt "set_route")) tcs.

(** *** Reply synthesis *)

Definition PROCESSED : str :=
  txt "Your request has been processed. Is there anything else I can help with?".

Definition reply (c : content) : message := AIMessage c [].

(** [fc and isinstance(fc, str) and fc.strip()] *)
Definition usable_str (c : content) : option str :=
  match c with
  | CStr s => if truthy s && truthy (strip s) then Some s else None
  | _ => None
  end.

(** A constrained call inside [try]: the text of the model when it is a
    string with something other than white space, the canned text when it
    is not or when the call raises. *)
Definition constrained (e : env) (canned : str) (ls : loop_state) : loop_state :=
  let text :=
    match llm e (ls_calls ls) with
    | Some (fc, _) =>
        match usable_str fc with
        | Some s => s
        | None => canned
        end
    | None => canned
    end in
  {| ls_messages := ls_messages ls ++ [reply (CStr text)];
     ls_customer_data_out := ls_customer_data_out ls;
     ls_next_route := ls_next_route ls;
     ls_has_status_update := ls_has_status_update ls;
     ls_tool_rounds := ls_tool_rounds ls;
     ls_calls := S (ls_calls ls) |}.

Definition block_truthy (b : block) : bool :=
  match b with
  | BStr s => truthy s
  | BDict _ (Some t) => truthy t
  | BDict _ None => false
  end.

(** The test [empty] of the general branch. *)
Definition is_empty (c : content) : bool :=
  negb (content_truthy c)
  || match c with
     | CStr s => negb (truthy (strip s))
     | CBlocks bs => negb (existsb block_truthy bs)
     | CDict _ => false
     end.

Definition END_FOLLOW_UPS : list str :=
  [txt "payment pause"; txt "cheaper option"; txt "cheaper plan"; txt "basic plan";
   txt "replacement involve"; txt "upgrade"].

Definition END_CANCEL_WORDS : list str :=
  [txt "cancel"; txt "return"; txt "get rid"; txt "can't afford"; txt "cant afford"].

Definition BILLING_FOLLOW_UPS : list str :=
  [txt "payment pause"; txt "cheaper option"; txt "cheaper plan"; txt "basic plan"].

Definition set_messages (ms : list message) (ls : loop_state) : loop_state :=
  {| ls_messages := ms;
     ls_customer_data_out := ls_customer_data_out ls;
     ls_next_route := ls_next_route ls;
     ls_has_status_update := ls_has_status_update ls;
     ls_tool_rounds := ls_tool_rounds ls;
     ls_calls := ls_calls ls |}.

(** The branch taken when every tool call of the round was the routing
    tool: one assistant message is appended and the loop is left. *)
Definition synthesize (e : env) (ls : loop_state) : exc loop_state :=
  let route_hint := lower (strip (or_else (ls_next_route ls) (txt "end"))) in
  if eqb route_hint (txt "end") then
    if ls_has_status_update ls then Ok (constrained e PROCESSED ls)
    else
      let last_user := last_user_of (str_lower_if_str e) (reverse (ls_messages ls)) in
      if any_in END_FOLLOW_UPS last_user
      then Ok (constrained e (fallback_reply_for_route (txt "retention")) ls)
      else if any_in END_CANCEL_WORDS last_user
      then Ok (constrained e (fallback_reply_for_route (txt "end")) ls)
      else Ok (set_messages
                 (ls_messages ls ++ [reply (CStr (fallback_reply_for_route (txt "end")))]) ls)
  else
    let next_route :=
      if eqb route_hint (txt "billing")
         && any_in BILLING_FOLLOW_UPS
                   (last_user_of (str_lower e) (reverse (ls_messages ls)))
      then Some (txt "end")
      else ls_next_route ls in
    '(final_response, calls) ←
      invoke_retry e (txt "LLM reply-after-route failed") (ls_calls ls);
    let final_content := fst final_response in
    let final_content :=
      if is_empty final_content
      then CStr (fallback_reply_for_route route_hint)
      else final_content in
    Ok {| ls_messages := ls_messages ls ++ [reply final_content];
          ls_customer_data_out := ls_customer_data_out ls;
          ls_next_route := next_route;
          ls_has_status_update := ls_has_status_update ls;
          ls_tool_rounds := ls_tool_rounds ls;
          ls_calls := calls |}.

(** *** The main loop *)

(** One turn of the loop: [inl] when the loop goes round again, [inr] when
    it is left. *)
Definition loop_body (e : env) (ls : loop_state) : exc (loop_state + loop_state) :=
  '(response, calls) ← invoke_retry e (txt "LLM failed (retry failed)") (ls_calls ls);
  let '(content, tool_calls) := response in
  match tool_calls with
  | [] =>
      Ok (inr {| ls_messages := ls_messages ls ++ [AIMessage content tool_calls];
                 ls_customer_data_out := ls_customer_data_out ls;
                 ls_next_route := ls_next_route ls;
                 ls_has_status_update := ls_has_status_update ls;
                 ls_tool_rounds := ls_tool_rounds ls;
                 ls_calls := calls |})
  | _ =>
      let '(next_route, has_status_update) :=
        scan_tool_calls tool_calls (ls_next_route ls) (ls_has_status_update ls) in
      let results := tool_node e (ls_tool_rounds ls) content tool_calls in
      let ls1 :=
        {| ls_messages := ls_messages ls ++ [AIMessage content tool_calls] ++ results;
           ls_customer_data_out :=
             match found_profile results with
             | Some d => Some d
             | None => ls_customer_data_out ls
             end;
           ls_next_route := next_route;
           ls_has_status_update := has_status_update;
           ls_tool_rounds := S (ls_tool_rounds ls);
           ls_calls := calls |} in
      if only_set_route tool_calls then inr <$> synthesize e ls1
      else if (max_tool_rounds <=? ls_tool_rounds ls1)%nat then Ok (inr ls1)
      else Ok (inl ls1)
  end.

(** [while True]: [None] when [fuel] turns were not enough to leave it. *)
Fixpoint main_loop (e : env) (fuel : nat) (ls : loop_state) : option (exc loop_state) :=
  match fuel with
  | O => None
  | S fuel' =>
      match loop_body e ls with
      | Raise err => Some (Raise err)
      | Ok (inr ls') => Some (Ok ls')
      | Ok (inl ls') => main_loop e fuel' ls'
      end
  end.

(** *** After the loop: the billing repair *)

Definition EMAIL_SUFFIX : str :=
  txt " Could you share your email so I can look up your account?".

(** The index of the last assistant message with a content. *)
Fixpoint last_ai_index (ms : list message) (i : nat) : option nat :=
  match i with
  | O => None
  | S j =>
      match ms !! j with
      | Some (AIMessage c _) => if content_truthy c then Some j else last_ai_index ms j
      | _ => last_ai_index ms j
      end
  end.

Definition billing_repair (e : env) (ls : loop_state) : loop_state :=
  let route_final := lower (strip (or_else (ls_next_route ls) (txt "end"))) in
  if eqb route_final (txt "billing") && negb (has_found (ls_customer_data_out ls)) then
    match last_ai_index (ls_messages ls) (length (ls_messages ls)) with
    | Some last_ai =>
        match ls_messages ls !! last_ai with
        | Some (AIMessage c _) =>
            let existing := extract_message_text (str_dict e) (Some c) in
            if truthy existing && negb (contains (txt "email") (lower existing)) then
              let fixed := existing ++ EMAIL_SUFFIX in
              let text :=
                match llm e (ls_calls ls) with
                | Some (rc, _) =>
                    let rewritten :=
                      if content_truthy rc
                      then extract_message_text (str_dict e) (Some rc) else [] in
                    if truthy rewritten && contains (txt "email") (lower rewritten)
                    then rewritten else fixed
                | None => fixed
                end in
              {| ls_messages := <[last_ai := reply (CStr text)]> (ls_messages ls);
                 ls_customer_data_out := ls_customer_data_out ls;
                 ls_next_route := ls_next_route ls;
                 ls_has_status_update := ls_has_status_update ls;
                 ls_tool_rounds := ls_tool_rounds ls;
                 ls_calls := S (ls_calls ls) |}
            else ls
        | _ => ls
        end
    | None => ls
    end
  else ls.

(** *** [_invoke_agent] *)

Definition setup (e : env) (st : State) : loop_state :=
  let messages0 := messages st in
  let customer_data := customer_data st in
  let fetched :=
    if negb (has_found customer_data)
       && match messages0 with [] => false | _ => true end
    then prefetch e messages0 else None in
  let '(customer_data, customer_data_out, messages1) :=
    match fetched with
    | Some result => (Some result, Some result, profile_message e result :: messages0)
    | None => (customer_data, customer_data, messages0)
    end in
  let messages2 :=
    match customer_data with
    | Some d =>
        if negb (bool_decide (d = ∅))
           && match messages1 with [] => false | _ => true end
           && negb (starts_with_profile messages1)
        then profile_message e d :: messages1
        else messages1
    | None => messages1
    end in
  {| ls_messages := messages2;
     ls_customer_data_out := customer_data_out;
     ls_next_route := next_route st;
     ls_has_status_update := false;
     ls_tool_rounds := 0;
     ls_calls := 0 |}.

(** [next_route or state.get("next_route")] *)
Definition route_or (nr prior : option str) : option str :=
  match nr with
  | Some r => if truthy r then Some r else prior
  | None => prior
  end.

Definition _invoke_agent (e : env) (fuel : nat) (st : State) : option (exc State) :=
  if negb (api_key e)
  then Some (Raise (ValueError (txt "Set GOOGLE_API_KEY or GEMINI_API_KEY in .env")))
  else
    match main_loop e fuel (setup e st) with
    | None => None
    | Some (Raise err) => Some (Raise err)
    | Some (Ok ls) =>
        let ls := billing_repair e ls in
        Some (Ok {| messages := ls_messages ls;
                    customer_data := ls_customer_data_out ls;
                    next_route := route_or (ls_next_route ls) (next_route st) |})
    end.

(** *** The edges of the stage graph *)

Inductive node := problem_solver | processor | end_.

Definition DEVICE_WORDS : list str :=
  [txt "overheat"; txt "broken"; txt "crack"; txt "won't charge"; txt "not charging";
   txt "screen flicker"; txt "battery drain"].

Definition CANCEL_WORDS : list str := [txt "cancel"; txt "return"; txt "get rid"].

(** The route [_route_after_greeter] settles on. *)
Definition route_after_greeter (e : env) (st : State) : str :=
  let r := lower (strip (or_else (next_route st) (txt "end"))) in
  let last_user := last_user_of (str_lower e) (reverse (messages st)) in
  if any_in DEVICE_WORDS last_user && any_in CANCEL_WORDS last_user
     && negb (eqb r ROUTE_RETENTION)
  then ROUTE_RETENTION
  else r.

Definition _route_after_greeter (e : env) (st : State) : node :=
  let r := route_after_greeter e st in
  if eqb r ROUTE_RETENTION then problem_solver
  else if eqb r ROUTE_CANCEL then processor
  else end_.

Definition _route_after_problem_solver (st : State) : node :=
  let r := lower (strip (or_else (next_route st) (txt "end"))) in
  if eqb r ROUTE_CANCEL then processor else end_.

End Graph.

(** ** Notions used to state the properties *)

Module Spec.
Import Py Regex Utils Tools Graph.

(** The two triggers of the sanitizer. *)
Definition jargon_trigger (text : str) : bool :=
  let t := lower (strip text) in
  (contains (txt "route") t
   && (contains (txt "has been set") t || contains (txt "set to ") t))
  || contains (txt "set to end") t || contains (txt "set to retention") t
  || contains (txt "set to cancel") t || contains (txt "set to billing") t
  || contains (txt "set to tech") t.

Definition chopped_trigger (text : str) : bool :=
  (200 <=? length text)%nat
  && match last_char (rstrip text) with
     | Some c => negb (char_in c SENTENCE_END)
     | None => false
     end.


(** The content of the latest user message of a history. *)
Fixpoint latest_user (ms : list message) : option content :=
  match ms with
  | [] => None
  | m :: rest =>
      match latest_user rest with
      | Some c => Some c
      | None => match m with HumanMessage c => Some c | _ => None end
      end
  end.

(** The reason as [calculate_retention_offer] normalises it. *)
Definition normal_reason (reason : str) : str :=
  replace_char 32 (txt "_") (lower (strip reason)).

(** The key of the rule table a tier and a normalised reason resolve to:
    the category, and under it the tier key for financial hardship, the
    sub-reason for the other categories. *)
Definition resolved_key (tier reason_raw : str) : str * str :=
  match resolve_reason reason_raw with
  | Some (top_key, Some sub_key) => (top_key, sub_key)
  | _ => (txt "financial_hardship", default [] (TIER_KEY !! tier))
  end.

(** What the rule table configures under a key, if anything. *)
Definition configured (rs : rules) (key : str * str) : option (list val) :=
  rs !! key.1 ≫= fun d => d !! key.2.

Definition table_entries (rs : rules) (key : str * str) : list val :=
  default [] (configured rs key).

(** A customer id: the prefix [cust_] in any letter case, then one or more
    word characters. *)
Definition cust_id (tok : str) : Prop :=
  exists p w, tok = p ++ w /\ lower p = txt "cust_"
              /\ w <> [] /\ Forall (fun c => is_word c = true) w.

(** The spellings of the prefix that the customer-id pattern admits, one
    class for each of its five characters. *)
Definition CUST_PREFIX : list str :=
  [[99; 67]; [117; 85]; [115; 83; 383]; [116; 84]; [95]].

(** A token the customer-id pattern matches: a prefix in one of these
    spellings, then one or more word characters. *)
Definition cust_token (tok : str) : Prop :=
  exists p w, tok = p ++ w
              /\ Forall2 (fun x cs => char_in x cs = true) p CUST_PREFIX
              /\ w <> [] /\ Forall (fun c => is_word c = true) w.

(** [tok] stands in [s] as a token of its own: no word character touches
    it on either side. *)
Definition token_in (tok s : str) : Prop :=
  exists pre post, s = pre ++ tok ++ post
                   /\ word_opt (last pre) = false /\ word_opt (head post) = false.

(** The character before the current position after [pre] was passed. *)
Definition before (prev : option N) (pre : str) : option N :=
  match last pre with
  | Some c => Some c
  | None => prev
  end.

(** A profile a tool returned: the content of a tool message of some
    round, a [dict] whose [found] is [True]. *)
Definition tool_found (e : env) (d : dict) : Prop :=
  found_is_True d = true
  /\ exists round content tool_calls name,
       ToolMessage name (CDict d) ∈ tool_node e round content tool_calls.

(** How the profile kept in the state may change: not at all, or to a
    profile a tool returned. *)
Definition profile_step (e : env) (old new : option dict) : Prop :=
  new = old \/ exists d, new = Some d /\ tool_found e d.

(** The state after the tools of a round have run. *)
Definition after_tools (e : env) (ls : loop_state)
    (content : content) (tool_calls : list tool_call) (calls : nat) : loop_state :=
  {| ls_messages :=
       ls_messages ls ++ [AIMessage content tool_calls]
       ++ tool_node e (ls_tool_rounds ls) content tool_calls;
     ls_customer_data_out :=
       match found_profile (tool_node e (ls_tool_rounds ls) content tool_calls) with
       | Some d => Some d
       | None => ls_customer_data_out ls
       end;
     ls_next_route :=
       (scan_tool_calls tool_calls (ls_next_route ls) (ls_has_status_update ls)).1;
     ls_has_status_update :=
       (scan_tool_calls tool_calls (ls_next_route ls) (ls_has_status_update ls)).2;
     ls_tool_rounds := S (ls_tool_rounds ls);
     ls_calls := calls |}.

(** The route the synthesis branch works with. *)
Definition route_hint (ls : loop_state) : str :=
  lower (strip (or_else (ls_next_route ls) (txt "end"))).





(** Both arguments of a status change are non-empty after trimming. *)
Definition recordable (customer_id action : str) : bool :=
  truthy (strip customer_id) && truthy (strip action).

(** A field that holds neither a tab nor a newline. *)
Definition one_field (s : str) : bool :=
  negb (char_in TAB s) && negb (char_in NEWLINE s).

(** A call that can be logged as one line: the arguments are recordable,
    their trimmed forms hold no tab, no newline and no surrogate, and the
    file can be opened and written. *)
Definition loggable (c : io * str * str) : Prop :=
  let '(sys, customer_id, action) := c in
  open_ok sys = true /\ write_ok sys = true
  /\ recordable customer_id action = true
  /\ one_field (strip customer_id) = true
  /\ one_field (strip action) = true
  /\ encodable (strip customer_id) = true
  /\ encodable (strip action) = true.

(** The entry a call records. *)
Definition entry_of (c : io * str * str) : str * str * str :=
  let '(sys, customer_id, action) := c in
  (isoformat (now sys), strip customer_id, strip action).

(** The line of a call without its newline. *)
Definition body_of (c : io * str * str) : str :=
  let '(ts, customer_id, action) := entry_of c in
  ts ++ [TAB] ++ customer_id ++ [TAB] ++ action.

(** The text of a list of lines. *)
Definition unlines (ls : list str) : str :=
  flat_map (fun l => l ++ [NEWLINE]) ls.

Definition succeeded (r : exc dict) : Prop :=
  exists d, r = Ok d /\ d !! txt "success" = Some (VBool true).

(** *** Concrete inputs *)

Definition example_rules : rules :=
  {[ txt "financial_hardship" :=
       {[ txt "premium_customers" :=
            [VStr (txt "payment pause"); VStr (txt "discount")] ]} ]}.

(** Python prints nothing of interest here: every value that is not a
    string prints as the empty text. *)
Definition script_env (script : nat -> option (content * list tool_call))
    (tools : nat -> content -> list tool_call -> list message)
    (cs : list row) : env :=
  {| api_key := true; llm := script; tool_node := tools; customers := cs;
     str_block := fun _ => []; str_blocks := fun _ => []; str_dict := fun _ => [] |}.

Definition no_tools : nat -> content -> list tool_call -> list message :=
  fun _ _ _ => [].

Definition set_route_call (route : string) : tool_call :=
  {| tc_name := Some (txt "set_route"); tc_route := Some (txt route) |}.

Definition call (name : string) : tool_call :=
  {| tc_name := Some (txt name); tc_route := None |}.

(** The second end-to-end scenario: the model has chosen [cancel]. *)
Definition scenario_B : State :=
  {| messages :=
       [HumanMessage
          (CStr (txt "this phone keeps overheating, want to return it and cancel everything"));
        AIMessage (CStr []) [set_route_call "cancel"];
        ToolMessage (Some (txt "set_route")) (CStr (txt "Route set to: cancel"));
        AIMessage (CStr (txt "I've got your request.")) []];
     customer_data := None;
     next_route := Some (txt "cancel") |}.

(** The same scenario with the keywords in capitals. *)
Definition scenario_B_capitals : State :=
  {| messages :=
       [HumanMessage
          (CStr (txt "This phone keeps OVERHEATING, I want to Return it and Cancel everything"));
        AIMessage (CStr []) [set_route_call "cancel"];
        ToolMessage (Some (txt "set_route")) (CStr (txt "Route set to: cancel"));
        AIMessage (CStr (txt "I've got your request.")) []];
     customer_data := None;
     next_route := Some (txt "cancel") |}.

Definition example_time : datetime :=
  {| year := 2026; month := 11; day := 3;
     hour := 8; minute := 47; second := 5; microsecond := 120034 |}.

Definition working : io :=
  {| now := example_time; open_ok := true; write_ok := true; written := 0;
     io_error := [] |}.

Definition sarah : row :=
  list_to_map [(txt "customer_id", Some (txt "CUST_001"));
               (txt "email", Some (txt "sarah.chen@email.com"));
               (txt "tier", Some (txt "premium"))].

(** A row whose email field is not an address the pattern accepts. *)
Definition odd_row : row :=
  list_to_map [(txt "customer_id", Some (txt "CUST_009"));
               (txt "email", Some (txt "a@b"))].

Definition hello : State :=
  {| messages := [HumanMessage (CStr (txt "my phone won't charge anymore"))];
     customer_data := None;
     next_route := None |}.

(** A model that asks for the policy search in every round. *)
Definition chatty : env :=
  script_env (fun _ => Some (CStr [], [call "policy_search"]))
             (fun _ _ _ => [ToolMessage (Some (txt "policy_search")) (CStr (txt "No query."))])
             [].

(** A model that asks for the policy search in five rounds, calls only the
    routing tool in the sixth, and answers the constrained call. *)
Definition routes_in_sixth : env :=
  script_env (fun n => if (n <? 5)%nat then Some (CStr [], [call "policy_search"])
                       else if (n =? 5)%nat then Some (CStr [], [set_route_call "tech"])
                       else Some (CStr (txt "Try a different cable."), []))
             (fun _ _ _ => [ToolMessage None (CStr (txt "done"))])
             [].



(** A model that routes to billing and then answers with white space. *)
Definition billing_then_blank : env :=
  script_env (fun n => match n with
                       | O => Some (CStr [], [set_route_call "billing"])
                       | _ => Some (CStr (txt "   "), [])
                       end)
             (fun _ _ _ => [ToolMessage (Some (txt "set_route")) (CStr (txt "Route set to: billing"))])
             [].

(** A state that holds the profile of a known customer, and a model that
    asks for a lookup which does not find anyone before it replies. *)
Definition known_customer : State :=
  {| messages := [HumanMessage (CStr (txt "what about my other account?"))];
     customer_data := Some (found_record sarah);
     next_route := None |}.

Definition lookup_misses : env :=
  script_env (fun n => match n with
                       | O => Some (CStr [], [call "get_customer_data"])
                       | _ => Some (CStr (txt "I could not find that account."), [])
                       end)
             (fun _ _ _ => [ToolMessage (Some (txt "get_customer_data"))
                              (CDict (not_found (txt "No customer found.")))])
             [].

End Spec.

(** ** [src/data.py] *)

Module Data.
Import Py Tools.

(** The two resource files as a loader finds them, their content already
    read by [csv.DictReader] and [json.load]; [None] for a file that does
    not exist. *)
Record disk := {
  customers_csv : option (list row);
  rules_json : option rules
}.

(** The module variables [_customers] and [_rules]. *)
Record cache := {
  _customers : option (list row);
  _rules : option rules
}.

Definition empty_cache : cache := {| _customers := None; _rules := None |}.

(** [load_resources]: both variables are set, to the content of the file
    or, when it is missing, to an empty list and an empty dict. *)
Definition load_resources (d : disk) (c : cache) : cache :=
  {| _customers := Some (default [] (customers_csv d));
     _rules := Some (default ∅ (rules_json d)) |}.

(** [get_customers]: [d] holds the files at the default paths. *)
Definition get_customers (d : disk) (c : cache) : list row * cache :=
  let c := match _customers c with
           | None => load_resources d c
           | Some _ => c
           end in
  (default [] (_customers c), c).

Definition get_rules (d : disk) (c : cache) : rules * cache :=
  let c := match _rules c with
           | None => load_resources d c
           | Some _ => c
           end in
  (default ∅ (_rules c), c).

(** Both variables are set. *)
Definition loaded (c : cache) : bool :=
  match _customers c, _rules c with
  | Some _, Some _ => true
  | _, _ => false
  end.

End Data.

(** ** The policy search tool of [src/graph.py] *)

Module Search.
Import Py Utils.

Record document := {
  page_content : str;
  source : option str
}.

(** A retriever: the documents it returns for a query, or [None] when the
    call raises. *)
Abbreviation retriever := (str -> option (list document)).

Definition NO_QUERY : str := txt "No query or retriever available.".

Definition NO_INFO : str :=
  txt "I don't have specific information on that in my policy docs. "
  ++ txt "Suggest the customer contact support for details.".

Definition UNAVAILABLE : str := txt "Policy search temporarily unavailable.".

(** [policy_search], for the retriever the tool was made with. *)
Definition policy_search (r : option retriever) (query : str) : str :=
  match r with
  | Some invoke =>
      if negb (truthy query) then NO_QUERY
      else
        match invoke query with
        | Some docs =>
            match docs with
            | [] => NO_INFO
            | _ => take 3000 (join [10; 10] (page_content <$> docs))
            end
        | None => UNAVAILABLE
        end
  | None => NO_QUERY
  end.

(** [_EmptyRetriever] of [src/rag.py] *)
Definition _EmptyRetriever : retriever := fun _ => Some [].

End Search.

(** ** [src/main.py] *)

Module Cli.
Import Py Utils Graph.

Definition NL : str := [10].

Definition API_KEY_ERROR : str :=
  txt "[ERROR] Missing or invalid API key." ++ NL
  ++ txt "  Fix: Copy .env.example to .env and set GOOGLE_API_KEY=your_key "
  ++ txt "(get one at https://aistudio.google.com/apikey).".

Definition TOOL_ERROR : str :=
  txt "[ERROR] Internal tool configuration failed." ++ NL
  ++ txt "  This is a code bug (tool creation). Please report or check "
  ++ txt "src/graph.py _make_policy_search_tool.".

Definition MODEL_ERROR : str :=
  txt "[ERROR] Gemini model not found (404)." ++ NL
  ++ txt "  Try setting in .env: GEMINI_MODEL=gemini-2.0-flash (or gemini-1.5-pro)." ++ NL
  ++ txt "  List of models: https://ai.google.dev/gemini-api/docs/models".

Definition network_error (msg : str) : str :=
  txt "[ERROR] Network or API unreachable." ++ NL
  ++ txt "  Details: " ++ msg ++ NL
  ++ txt "  Check your connection and try again.".

(** [_format_error]: [raw] is [str(e)]. *)
Definition _format_error (raw : str) : str :=
  let msg := strip raw in
  if contains (txt "GOOGLE_API_KEY") msg || contains (txt "GEMINI_API_KEY") msg
     || contains (txt "API") (lower msg)
  then API_KEY_ERROR
  else if contains (txt "tool()") msg || contains (txt "unexpected keyword") msg
  then TOOL_ERROR
  else if contains (txt "connection") (lower msg) || contains (txt "timeout") (lower msg)
          || contains (txt "network") (lower msg)
  then network_error msg
  else if contains (txt "404") msg || contains (txt "NOT_FOUND") msg
          || (contains (txt "model") msg && contains (txt "not found") (lower msg))
  then MODEL_ERROR
  else txt "[ERROR] " ++ msg.

(** The loop backwards over the messages of a result: the content of the
    last assistant message that has one. *)
Fixpoint last_ai_content (rev_ms : list message) : option content :=
  match rev_ms with
  | [] => None
  | AIMessage c _ :: rest =>
      if content_truthy c then Some c else last_ai_content rest
  | _ :: rest => last_ai_content rest
  end.

Definition NO_RESPONSE : str := txt "(No response)".

(** What [main] prints after [Support:] for the result of a turn. *)
Definition printed_reply (e : env) (result : State) : str :=
  let reply :=
    match last_ai_content (reverse (messages result)) with
    | Some c => extract_message_text (str_dict e) (Some c)
    | None => []
    end in
  let reply :=
    if negb (truthy reply)
    then fallback_reply_for_route (or_else (next_route result) [])
    else reply in
  if truthy reply then reply else NO_RESPONSE.

End Cli.


(** ** What a call adds to the status log *)

Module Log.
Import Py Tools Spec.

(** The line of a call. *)
Definition line_of (c : io * str * str) : str := body_of c ++ [NEWLINE].

(** What a call with the outcome [r] has added to the log: its line when
    it reports success, and otherwise at most a part of that line. *)
Definition appended_by (c : io * str * str) (r : exc dict) (piece : str) : Prop :=
  (succeeded r /\ piece = line_of c)
  \/ (~ succeeded r /\ exists k, piece = take k (line_of c)).

End Log.

(** ** Trimmed texts *)

Module Text.
Import Py.

(** A text without white space at either end. *)
Definition trimmed (s : str) : Prop :=
  s = []
  \/ exists c t z, s = c :: t /\ is_space c = false
                   /\ last s = Some z /\ is_space z = false.

End Text.

(** ** Histories before and after a turn *)

Module Turn.
Import Py Utils Graph.

(** A message of a history and what stands in its place after the billing
    repair: the message itself, or, for an assistant message, a plain text
    reply that mentions the email. *)
Definition same_or_email_rewrite (m m' : message) : Prop :=
  m' = m
  \/ exists c tool_calls text,
       m = AIMessage c tool_calls /\ m' = reply (CStr text)
       /\ contains (txt "email") (lower text) = true.

Definition is_profile_message (e : env) (m : message) : Prop :=
  exists d, m = profile_message e d.

End Turn.

(** ** The chat of [src/streamlit_app.py] *)

Module Web.
Import Py Utils Graph Cli.

(** The reply the chat shows and stores for the result of a turn. *)
Definition chat_reply (e : env) (result : State) : str :=
  let reply :=
    match last_ai_content (reverse (messages result)) with
    | Some c => extract_message_text (str_dict e) (Some c)
    | None => []
    end in
  let reply :=
    if negb (truthy reply)
    then fallback_reply_for_route (or_else (next_route result) [])
    else reply in
  let reply := sanitize_internal_jargon reply in
  if truthy reply then reply else NO_RESPONSE.

(** A stored assistant message as the chat renders it again. *)
Definition rendered (content : str) : str := sanitize_internal_jargon content.

End Web.
(** * Properties *)

Import Py Regex Utils Tools Graph Spec.

(** ** Strings *)

Lemma startswith_spec (p s : str) :
  startswith p s = true <-> exists b, s = p ++ b.
Proof.
  revert s; induction p as [|a p IH]; intros s; simpl.
  - split; [intros _; by exists s | done].
  - destruct s as [|c s].
    + split; [done | intros [b Hb]; discriminate].
    + rewrite andb_true_iff, N.eqb_eq, IH. split.
      * intros [-> [b ->]]. by exists b.
      * intros [b Hb]. injection Hb as -> ->. eauto.
Qed.

Lemma contains_spec (p s : str) :
  contains p s = true <-> exists a b, s = a ++ p ++ b.
Proof.
  induction s as [|c s IH]; simpl.
  - rewrite orb_false_r, startswith_spec. split.
    + intros [b Hb]. by exists [], b.
    + intros [a [b Hab]]. destruct a; [by exists b | discriminate].
  - rewrite orb_true_iff, startswith_spec, IH. split.
    + intros [[b Hb] | [a [b Hab]]].
      * by exists [], b.
      * exists (c :: a), b. by rewrite Hab.
    + intros [a [b Hab]]. destruct a as [|x a]; simpl in Hab.
      * left. by exists b.
      * right. injection Hab as -> ->. by exists a, b.
Qed.

(** ** Lower case *)

Lemma below_128 (P : N -> bool) :
  forallb P (N.of_nat <$> seq 0 128) = true -> forall c, c < 128 -> P c = true.
Proof.
  intros H c Hc. rewrite forallb_forall in H. apply H.
  apply list_elem_of_In, list_elem_of_fmap. exists (N.to_nat c).
  split; [lia |]. apply elem_of_seq. lia.
Qed.

(** On ASCII the lower case is the familiar one. *)
Lemma lower_char_ascii (c : N) :
  c < 128 -> lower_char c = [if is_upper c then c + 32 else c].
Proof.
  intros Hc.
  apply (below_128
           (fun c => bool_decide (lower_char c = [if is_upper c then c + 32 else c])))
    in Hc; [by apply bool_decide_eq_true in Hc | by vm_compute].
Qed.

Lemma lower_from_cons (rev_before : str) (c : N) (after : str) :
  lower_from rev_before (c :: after)
  = (if c =? 931 then [if final_sigma rev_before after then 962 else 963]
     else lower_char c)
    ++ lower_from (c :: rev_before) after.
Proof. reflexivity. Qed.

Lemma lower_from_cons_ascii (rev_before : str) (c : N) (after : str) :
  c < 128 ->
  lower_from rev_before (c :: after)
  = (if is_upper c then c + 32 else c) :: lower_from (c :: rev_before) after.
Proof.
  intros Hc. rewrite lower_from_cons, lower_char_ascii by done.
  by replace (c =? 931) with false by (symmetry; apply N.eqb_neq; lia).
Qed.

(** The lower case of a text ends with the lower case of its end, taken
    in its context. *)
Lemma lower_from_app (rev_before a b : str) :
  exists x, lower_from rev_before (a ++ b) = x ++ lower_from (reverse a ++ rev_before) b.
Proof.
  revert rev_before. induction a as [|c a IH]; intros rev_before; [by exists [] |].
  cbn [app]. rewrite lower_from_cons.
  destruct (IH (c :: rev_before)) as [x ->].
  match goal with |- context [?piece ++ x ++ _] => exists (piece ++ x) end.
  by rewrite reverse_cons, <- !app_assoc.
Qed.

(** An ASCII text without capitals stays as it is, whatever surrounds it. *)
Lemma lower_from_fixed (rev_before k b : str) :
  Forall (fun c => c < 128 /\ is_upper c = false) k ->
  lower_from rev_before (k ++ b) = k ++ lower_from (reverse k ++ rev_before) b.
Proof.
  intros Hk. revert rev_before. induction Hk as [|c k [Hc Hu] _ IH]; intros rev_before;
    [done |].
  cbn [app]. rewrite lower_from_cons_ascii, Hu, IH by done.
  by rewrite reverse_cons, <- app_assoc.
Qed.

(** A keyword of ASCII characters without capitals that the text holds is
    also held by the lowered text. *)
Lemma contains_lower (k s : str) :
  Forall (fun c => c < 128 /\ is_upper c = false) k ->
  contains k s = true -> contains k (lower s) = true.
Proof.
  intros Hk. rewrite !contains_spec. intros (a & b & ->). unfold lower.
  destruct (lower_from_app [] a (k ++ b)) as [x ->].
  rewrite lower_from_fixed by done. eauto.
Qed.

Lemma lower_table_entry (c : N) (entry : N * N * N * N) :
  List.find (covers c) LOWER_TABLE = Some entry ->
  In entry LOWER_TABLE /\ entry.1.1.1 <= c <= entry.1.1.2.
Proof.
  intros [Hin Hc]%find_some. split; [done |].
  destruct entry as [[[first last] step] image]. cbn [fst snd covers] in *.
  apply andb_true_iff in Hc as [Hc _]. apply andb_true_iff in Hc as [H1 H2].
  apply N.leb_le in H1, H2. lia.
Qed.

(** [str.lower] never yields a capital letter of ASCII. *)
Lemma lower_char_no_upper (c x : N) : In x (lower_char c) -> is_upper x = false.
Proof.
  unfold lower_char. destruct (c =? 304).
  { intros [<- | [<- | []]]; reflexivity. }
  destruct (List.find (covers c) LOWER_TABLE) as [[[[first last] step] image]|] eqn:F.
  - apply lower_table_entry in F as [Hin Hc]. cbn [fst snd] in Hc.
    assert (forallb (fun e : N * N * N * N =>
                       (90 <? e.2) || (e.2 + (e.1.1.2 - e.1.1.1) <? 65))
                    LOWER_TABLE = true) as Htab by (by vm_compute).
    rewrite forallb_forall in Htab. specialize (Htab _ Hin). cbn [fst snd] in Htab.
    intros [<- | []]. unfold is_upper.
    apply orb_true_iff in Htab as [H%N.ltb_lt | H%N.ltb_lt].
    + apply andb_false_iff. right. apply N.leb_gt. lia.
    + apply andb_false_iff. left. apply N.leb_gt. lia.
  - intros [<- | []]. destruct (is_upper c) eqn:U; [| done].
    eapply find_none in F; [| by left]. cbn [covers] in F.
    unfold is_upper in U. apply andb_true_iff in U as [U1 U2].
    rewrite U1, U2 in F. cbn [andb] in F. apply N.eqb_neq in F.
    by rewrite N.mod_1_r in F.
Qed.

Lemma lower_from_no_upper (rev_before s : str) (x : N) :
  In x (lower_from rev_before s) -> is_upper x = false.
Proof.
  revert rev_before. induction s as [|c s IH]; intros rev_before; [done |].
  rewrite lower_from_cons. intros [H | H]%in_app_or; [| by eapply IH].
  destruct (c =? 931); [| by eapply lower_char_no_upper].
  destruct H as [<- | []]. by destruct (final_sigma _ _).
Qed.

(** Outside ASCII only the Kelvin sign and the capital I with a dot have
    an ASCII letter in their lower case, a [k] and an [i]. *)
Lemma lower_char_ascii_inv (c x : N) :
  In x (lower_char c) -> x < 128 -> x <> 105 -> x <> 107 -> c < 128.
Proof.
  unfold lower_char. destruct (c =? 304).
  { intros [<- | [<- | []]]; lia. }
  destruct (List.find (covers c) LOWER_TABLE) as [[[[first last] step] image]|] eqn:F.
  - apply lower_table_entry in F as [Hin Hc]. cbn [fst snd] in Hc.
    assert (forallb (fun e : N * N * N * N =>
                       (127 <? e.2) || (e.1.1.2 <? 128)
                       || ((e.1.1.1 =? 8490) && (e.1.1.2 =? 8490) && (e.2 =? 107)))
                    LOWER_TABLE = true) as Htab by (by vm_compute).
    rewrite forallb_forall in Htab. specialize (Htab _ Hin). cbn [fst snd] in Htab.
    intros [<- | []] Hx Hi Hk.
    apply orb_true_iff in Htab as [Htab | Htab];
      [apply orb_true_iff in Htab as [H%N.ltb_lt | H%N.ltb_lt]; lia |].
    apply andb_true_iff in Htab as [Hab H3]. apply andb_true_iff in Hab as [H1 H2].
    apply N.eqb_eq in H1, H2, H3. lia.
  - by intros [<- | []].
Qed.

Lemma lower_char_not_nil (c : N) : lower_char c <> [].
Proof.
  unfold lower_char. destruct (c =? 304); [done |].
  by destruct (List.find _ _) as [[[[? ?] ?] ?]|].
Qed.

(** A text whose lower case is ASCII without [i] and [k] is ASCII. *)
Lemma lower_from_ascii_inv (rev_before p : str) :
  Forall (fun x => x < 128 /\ x <> 105 /\ x <> 107) (lower_from rev_before p) ->
  Forall (fun c => c < 128) p.
Proof.
  revert rev_before. induction p as [|c p IH]; intros rev_before; [constructor |].
  rewrite lower_from_cons. intros [H1 H2]%Forall_app.
  constructor; [| by eapply IH].
  destruct (c =? 931).
  - inversion H1 as [|? ? [Hx _] _]; subst. destruct (final_sigma _ _); lia.
  - pose proof (lower_char_not_nil c) as Hne.
    destruct (lower_char c) as [|x l] eqn:E; [done |].
    inversion H1 as [|? ? (Hx & Hi & Hk) _]; subst.
    apply (lower_char_ascii_inv c x); [rewrite E; by left | done..].
Qed.

Lemma any_in_spec (ws : list str) (s : str) :
  any_in ws s = true <-> exists w, In w ws /\ contains w s = true.
Proof. apply existsb_exists. Qed.

Lemma truthy_contains (k s : str) :
  truthy k = true -> contains k s = true -> truthy s = true.
Proof.
  intros Hk [a [b ->]]%contains_spec.
  destruct a; [destruct k; done | done].
Qed.

(** ** The presentation sanitizer *)

Lemma sanitize_anything_else : sanitize_internal_jargon ANYTHING_ELSE = ANYTHING_ELSE.
Proof. by vm_compute. Qed.

(** X1: the jargon replacement alone is idempotent: applied to its own
    result it returns that result, for every text. *)
Lemma sanitize_internal_jargon_idempotent (text : str) :
  sanitize_internal_jargon (sanitize_internal_jargon text)
  = sanitize_internal_jargon text.
Proof.
  unfold sanitize_internal_jargon at 2 3.
  destruct (negb (truthy text)) eqn:Ht; [done |].
  cbv zeta.
  match goal with
  | |- context [if ?c then ANYTHING_ELSE else if ?d then ANYTHING_ELSE else text] =>
      destruct c eqn:H1; [apply sanitize_anything_else |];
      destruct d eqn:H2; [apply sanitize_anything_else |]
  end.
  unfold sanitize_internal_jargon. cbv zeta. by rewrite Ht, H1, H2.
Qed.

(** X3: a text that sets off neither the truncation trigger nor the
    jargon trigger is returned by the sanitizer as it is. *)
Lemma sanitize_untriggered (text : str) :
  chopped_trigger text = false -> jargon_trigger text = false ->
  sanitize text = text.
Proof.
  unfold sanitize, chopped_trigger, jargon_trigger. intros Hc Hj.
  assert (_finish_if_chopped text = text) as ->.
  { unfold _finish_if_chopped.
    destruct (negb (truthy text) || _) eqn:E; [done |].
    apply orb_false_iff in E as [_ E%Nat.ltb_ge].
    apply Nat.leb_le in E. rewrite E, andb_true_l in Hc.
    destruct (last_char (rstrip text)); [by rewrite Hc | done]. }
  unfold sanitize_internal_jargon.
  destruct text as [|c text]; [done |]. simpl negb. cbv iota zeta in *.
  remember (lower (strip (c :: text))) as t eqn:Ht. clear Ht.
  repeat (apply orb_false_iff in Hj as [Hj ?]).
  rewrite Hj.
  repeat match goal with H : contains _ _ = false |- _ => rewrite H; clear H end.
  done.
Qed.

(** C5: the sanitizer is not idempotent.  On a text of 200 letters without
    a sentence end the first application appends an ellipsis; the result is
    still long and does not end in one of the sentence-end characters, so a
    second application appends another one. *)
Theorem display_twice_differs :
  let s := repeat 97 200 in
  sanitize s = s ++ ELLIPSIS
  /\ sanitize (sanitize s) = s ++ ELLIPSIS ++ ELLIPSIS
  /\ display s = s ++ ELLIPSIS
  /\ display (display s) = s ++ ELLIPSIS ++ ELLIPSIS
  /\ bool_decide (display (display s) = display s) = false.
Proof. by vm_compute. Qed.

(** ** The edge after the Greeter *)

Lemma latest_user_split (ms : list message) (c : content) :
  latest_user ms = Some c ->
  exists pre post, ms = pre ++ HumanMessage c :: post /\ latest_user post = None.
Proof.
  induction ms as [|m rest IH]; simpl; [done |].
  destruct (latest_user rest) as [c'|] eqn:E.
  - intros [= ->]. destruct (IH eq_refl) as (pre & post & -> & Hp).
    by exists (m :: pre), post.
  - destruct m; try done. intros [= ->]. by exists [], rest.
Qed.

Lemma last_user_of_skip (render : content -> str) (post l : list message) :
  latest_user post = None ->
  last_user_of render (reverse post ++ l) = last_user_of render l.
Proof.
  revert l; induction post as [|m post IH]; intros l H; simpl in *; [done |].
  destruct (latest_user post); [done |].
  rewrite reverse_cons, <- app_assoc, IH by done.
  by destruct m.
Qed.

(** The search backwards through the history stops at the latest user
    message when it has a content. *)
Lemma last_user_of_latest (render : content -> str) (ms : list message) (c : content) :
  latest_user ms = Some c -> content_truthy c = true ->
  last_user_of render (reverse ms) = render c.
Proof.
  intros (pre & post & -> & Hp)%latest_user_split Hc.
  rewrite reverse_app, reverse_cons, <- app_assoc, last_user_of_skip by done.
  simpl. by rewrite Hc.
Qed.

(** C2: when the latest user message names, in any letter case, a
    device-fault keyword and a cancel-intent keyword, [_route_after_greeter]
    settles on the route retention and dispatches to the Problem Solver,
    whatever route the model chose.  The keywords are those of the code:
    the six device words named in the claim and [not charging]; as in the
    code they are looked for in the lowered text of the message, so a
    message that spells them with capitals is covered.  The message is one
    with a content, which for a string follows from its holding a keyword
    ([keyword_message_truthy] below). *)
Theorem greeter_override_forces_retention
    (e : env) (st : State) (c : content) (kd kc : str) :
  latest_user (messages st) = Some c ->
  content_truthy c = true ->
  In kd DEVICE_WORDS -> In kc CANCEL_WORDS ->
  contains kd (lower (str_content e c)) = true ->
  contains kc (lower (str_content e c)) = true ->
  route_after_greeter e st = ROUTE_RETENTION
  /\ _route_after_greeter e st = problem_solver.
Proof.
  intros Hlast Hc Hkd Hkc Hd Hk.
  assert (route_after_greeter e st = ROUTE_RETENTION) as Hr.
  { unfold route_after_greeter. cbv zeta.
    rewrite (last_user_of_latest _ _ c) by done. unfold str_lower.
    assert (any_in DEVICE_WORDS (lower (str_content e c)) = true) as Hd'.
    { apply any_in_spec. exists kd. by split. }
    assert (any_in CANCEL_WORDS (lower (str_content e c)) = true) as Hk'.
    { apply any_in_spec. exists kc. by split. }
    rewrite Hd', Hk'.
    cbn [andb]. unfold eqb. by case_bool_decide. }
  split; [done |]. unfold _route_after_greeter. cbv zeta. by rewrite Hr.
Qed.

(** With a string as content, holding a keyword makes the message one with
    a content. *)
Lemma keyword_message_truthy (e : env) (s kd : str) :
  In kd DEVICE_WORDS -> contains kd (lower (str_content e (CStr s))) = true ->
  content_truthy (CStr s) = true.
Proof.
  intros Hk Hs. cbn [str_content content_truthy] in *.
  destruct s as [|x s]; [| done].
  unfold DEVICE_WORDS in Hk. cbn [In] in Hk.
  repeat (destruct Hk as [<- | Hk]; [by vm_compute in Hs |]). done.
Qed.

Lemma greeter_override_witness :
  route_after_greeter (script_env (fun _ => None) no_tools []) scenario_B_capitals
  = ROUTE_RETENTION
  /\ _route_after_greeter (script_env (fun _ => None) no_tools []) scenario_B_capitals
     = problem_solver.
Proof.
  apply (greeter_override_forces_retention _ scenario_B_capitals
           (CStr (txt "This phone keeps OVERHEATING, I want to Return it and Cancel everything"))
           (txt "overheat") (txt "cancel")).
  - reflexivity.
  - reflexivity.
  - cbn; tauto.
  - cbn; tauto.
  - by vm_compute.
  - by vm_compute.
Defined.

(** The lowered text is the one of [str.lower]: a Kelvin sign in the place
    of the [k] of [broken] counts, and the route cancel is overridden. *)
Example kelvin_sign_override :
  _route_after_greeter (script_env (fun _ => None) no_tools [])
    {| messages := [HumanMessage (CStr (txt "it is bro" ++ [8490] ++ txt "en, cancel it"))];
       customer_data := None;
       next_route := Some (txt "cancel") |}
  = problem_solver.
Proof. by vm_compute. Qed.
(** ** Retention offers *)

Lemma valid_tier_cases (tier : str) :
  has_key TIER_KEY tier = true ->
  tier = txt "premium" \/ tier = txt "regular" \/ tier = txt "new".
Proof.
  unfold has_key, TIER_KEY. intros H.
  destruct (list_to_map _ !! tier) as [k|] eqn:E; [| done].
  apply elem_of_list_to_map_2 in E. rewrite !elem_of_cons in E.
  destruct E as [[= -> _] | [[= -> _] | [[= -> _] | E]]]; auto.
  by apply elem_of_nil in E.
Qed.

(** Whatever the loop over [REASON_MAP] finds is one of its entries. *)
Lemma resolve_reason_entry (reason_raw : str) (v : str * option str) :
  resolve_reason reason_raw = Some v -> exists k, In (k, v) REASON_MAP.
Proof.
  unfold resolve_reason. intros H.
  destruct (List.find _ REASON_MAP) as [[k v']|] eqn:E; [| done].
  injection H as <-. apply find_some in E as [E _]. by exists k.
Qed.

Lemma offers_of_key (rs : rules) (tier reason_raw : str) :
  has_key TIER_KEY tier = true ->
  select_offers rs tier reason_raw
  = Ok (table_entries rs (resolved_key tier reason_raw)).
Proof.
  intros Ht. unfold select_offers, resolved_key, table_entries, configured.
  assert (exists tk, TIER_KEY !! tier = Some tk) as [tier_key Htk].
  { unfold has_key in Ht. destruct (TIER_KEY !! tier); [eauto | done]. }
  destruct (resolve_reason reason_raw) as [[tk sk]|] eqn:E.
  - apply resolve_reason_entry in E as [k Hk]. unfold REASON_MAP in Hk.
    simpl in Hk.
    repeat (destruct Hk as [Hk | Hk];
            [injection Hk as <- <- <-; simpl;
             unfold getitem at 1; rewrite !Htk; simpl;
             unfold has_key, offers_at, getitem;
             match goal with |- context [rs !! ?x] => destruct (rs !! x) end;
             by simpl |]).
    done.
  - rewrite Htk. simpl. unfold getitem at 1. rewrite Htk. simpl.
    unfold has_key, offers_at, getitem.
    destruct (rs !! txt "financial_hardship"); by simpl.
Qed.

(** C7: for a tier that normalises to premium, regular or new and any
    reason, the tool returns (it does not raise) a record whose offers are
    the entries the rule table configures under the resolved key, hence a
    subset of them, and the empty list when nothing is configured there.
    Unless the whole table is empty the record carries no message. *)
Theorem offers_subset_of_rule_table (rs : rules) (customer_tier reason : str) :
  has_key TIER_KEY (lower (strip customer_tier)) = true ->
  exists d offers,
    calculate_retention_offer rs customer_tier reason = Ok d
    /\ d !! txt "offers" = Some (VList offers)
    /\ offers = table_entries rs
                  (resolved_key (lower (strip customer_tier)) (normal_reason reason))
    /\ offers ⊆ table_entries rs
                  (resolved_key (lower (strip customer_tier)) (normal_reason reason))
    /\ (configured rs (resolved_key (lower (strip customer_tier)) (normal_reason reason))
         = None -> offers = [])
    /\ (rs <> ∅ -> d !! txt "message" = None).
Proof.
  intros Ht. unfold calculate_retention_offer. rewrite Ht. simpl negb. cbv iota.
  case_bool_decide as Hrs.
  - exists no_rules, []. subst rs.
    assert (forall key, configured ∅ key = None) as Hnone.
    { intros key. unfold configured. by rewrite lookup_empty. }
    unfold table_entries. rewrite Hnone. by repeat split.
  - fold (normal_reason reason).
    rewrite (offers_of_key rs _ _ Ht).
    remember (table_entries rs _) as offers eqn:Hoffers.
    remember (lower (strip customer_tier)) as tier eqn:Htier.
    remember (normal_reason reason) as reason_raw eqn:Hreason.
    eexists _, offers. split; [reflexivity |].
    split; [by vm_compute |]. split; [done |]. split; [done |].
    split; [| intros _; by vm_compute].
    subst offers. unfold table_entries. by intros ->.
Qed.

Lemma offers_subset_witness :
  exists d offers,
    calculate_retention_offer example_rules (txt " Premium ") (txt "can't afford") = Ok d
    /\ d !! txt "offers" = Some (VList offers)
    /\ offers = table_entries example_rules
                  (resolved_key (lower (strip (txt " Premium ")))
                                (normal_reason (txt "can't afford")))
    /\ offers ⊆ table_entries example_rules
                  (resolved_key (lower (strip (txt " Premium ")))
                                (normal_reason (txt "can't afford")))
    /\ (configured example_rules
           (resolved_key (lower (strip (txt " Premium ")))
                         (normal_reason (txt "can't afford")))
         = None -> offers = [])
    /\ (example_rules <> ∅ -> d !! txt "message" = None).
Proof.
  apply (offers_subset_of_rule_table example_rules (txt " Premium ") (txt "can't afford")).
  reflexivity.
Defined.

(** The offer calculation never raises. *)
Lemma calculate_retention_offer_returns (rs : rules) (customer_tier reason : str) :
  exists d, calculate_retention_offer rs customer_tier reason = Ok d.
Proof.
  unfold calculate_retention_offer.
  destruct (has_key TIER_KEY _) eqn:Ht; simpl; [| eauto].
  case_bool_decide; [eauto |].
  rewrite (offers_of_key rs _ _ Ht). simpl. eauto.
Qed.

(** C8, as stated, fails: for a tier that is not premium, regular or new
    the record returned holds [offers] and [message] only, neither the tier
    nor the reason. *)
Lemma invalid_tier_record_lacks_tier_and_reason :
  calculate_retention_offer example_rules (txt "invalid") (txt "financial")
  = Ok (invalid_tier (txt "invalid"))
  /\ invalid_tier (txt "invalid") !! txt "offers" = Some (VList [])
  /\ invalid_tier (txt "invalid") !! txt "customer_tier" = None
  /\ invalid_tier (txt "invalid") !! txt "reason" = None.
Proof. by vm_compute. Qed.

(** C8, amended: the tool never raises, and its record always has the
    offers.  The record holds the resolved tier and the resolved reason
    exactly when the tier normalises to premium, regular or new and the rule
    table is not empty; otherwise it holds empty offers and a diagnostic
    message, and neither tier nor reason. *)
Theorem offer_record_shape (rs : rules) (customer_tier reason : str) :
  exists d,
    calculate_retention_offer rs customer_tier reason = Ok d
    /\ (exists offers, d !! txt "offers" = Some (VList offers))
    /\ if has_key TIER_KEY (lower (strip customer_tier)) && negb (bool_decide (rs = ∅))
       then d !! txt "customer_tier" = Some (VStr (lower (strip customer_tier)))
            /\ d !! txt "reason" = Some (VStr (normal_reason reason))
            /\ d !! txt "message" = None
       else d !! txt "offers" = Some (VList [])
            /\ (exists diagnostic, d !! txt "message" = Some (VStr diagnostic))
            /\ d !! txt "customer_tier" = None
            /\ d !! txt "reason" = None.
Proof.
  unfold calculate_retention_offer.
  destruct (has_key TIER_KEY _) eqn:Ht; simpl.
  - case_bool_decide as Hrs; simpl.
    + exists no_rules. split; [done |]. split; [by exists [] |].
      repeat split; try by vm_compute. eexists. by vm_compute.
    + rewrite (offers_of_key rs _ _ Ht). simpl.
      fold (normal_reason reason).
      set (offers := table_entries rs _). clearbody offers.
      set (tier := lower (strip customer_tier)). clearbody tier.
      set (r := normal_reason reason). clearbody r.
      eexists. split; [reflexivity |].
      split; [exists offers; by vm_compute |].
      repeat split; by vm_compute.
  - exists (invalid_tier customer_tier). split; [done |].
    split; [exists []; by vm_compute |].
    repeat split; try by vm_compute. eexists. by vm_compute.
Qed.

(** ** The status log *)

Lemma char_in_false (c : N) (s : str) :
  char_in c s = false <-> Forall (fun x => x <> c) s.
Proof.
  unfold char_in. induction s as [|x s IH]; simpl.
  - split; [constructor | done].
  - rewrite orb_false_iff, IH, Forall_cons, N.eqb_neq.
    split; intros [H1 H2]; split; try done; by intros ->.
Qed.

Lemma char_in_app (c : N) (s t : str) :
  char_in c (s ++ t) = char_in c s || char_in c t.
Proof. apply existsb_app. Qed.

Lemma split_on_clean (sep : N) (s : str) :
  char_in sep s = false -> split_on sep s = [s].
Proof.
  induction s as [|c s IH]; simpl; [done |].
  intros [Hc Hs]%orb_false_iff. rewrite N.eqb_sym, Hc. by rewrite IH.
Qed.

Lemma split_on_app (sep : N) (a b : str) :
  char_in sep a = false -> split_on sep (a ++ sep :: b) = a :: split_on sep b.
Proof.
  induction a as [|c a IH]; simpl.
  - by rewrite N.eqb_refl.
  - intros [Hc Ha]%orb_false_iff. rewrite N.eqb_sym, Hc. by rewrite IH.
Qed.

Lemma split_on_unlines (ls : list str) :
  Forall (fun l => char_in NEWLINE l = false) ls ->
  split_on NEWLINE (unlines ls) = ls ++ [[]].
Proof.
  induction 1 as [|l ls Hl _ IH]; [done |].
  change (unlines (l :: ls)) with ((l ++ [NEWLINE]) ++ unlines ls).
  rewrite <- app_assoc. cbn [app]. by rewrite split_on_app, IH.
Qed.

(** Lines without a newline inside are read back as they were written. *)
Lemma lines_unlines (ls : list str) :
  Forall (fun l => char_in NEWLINE l = false) ls -> lines (unlines ls) = Some ls.
Proof.
  intros H. unfold lines. rewrite split_on_unlines by done.
  rewrite reverse_app. simpl. by rewrite reverse_involutive.
Qed.

Lemma parse_line_fields (ts customer_id action : str) :
  char_in TAB ts = false -> char_in TAB customer_id = false ->
  char_in TAB action = false ->
  parse_line (ts ++ [TAB] ++ customer_id ++ [TAB] ++ action)
  = Some (ts, customer_id, action).
Proof.
  intros H1 H2 H3. unfold parse_line. simpl.
  by rewrite split_on_app, split_on_app, split_on_clean.
Qed.

(** The characters of a timestamp: digits and punctuation of ASCII, all
    above the control characters. *)
Lemma uint_codes_digits (d : Decimal.uint) :
  Forall (fun c => 32 < c < 128) (uint_codes d).
Proof. induction d; cbn [uint_codes]; constructor; (lia || done). Qed.

Lemma zpad_printable (w : nat) (n : N) : Forall (fun c => 32 < c < 128) (zpad w n).
Proof.
  unfold zpad. apply Forall_app. split; [| apply uint_codes_digits].
  apply Forall_forall. intros x Hx%list_elem_of_In%repeat_spec. lia.
Qed.

Lemma isoformat_printable (dt : datetime) : Forall (fun c => 32 < c < 128) (isoformat dt).
Proof.
  unfold isoformat. rewrite !Forall_app.
  repeat split; try apply zpad_printable;
    try (repeat constructor; unfold N.lt; reflexivity).
  destruct (microsecond dt =? 0); [constructor |].
  rewrite Forall_app. split; [| apply zpad_printable].
  repeat constructor; unfold N.lt; reflexivity.
Qed.

Lemma isoformat_one_field (dt : datetime) : one_field (isoformat dt) = true.
Proof.
  unfold one_field. apply andb_true_iff.
  split; apply negb_true_iff, char_in_false;
    (eapply Forall_impl; [apply isoformat_printable |]);
    intros c Hc ->; unfold TAB, NEWLINE in Hc; lia.
Qed.

Lemma isoformat_encodable (dt : datetime) : encodable (isoformat dt) = true.
Proof.
  unfold encodable. apply forallb_forall. intros c Hc.
  pose proof (isoformat_printable dt) as H. rewrite Forall_forall in H.
  apply list_elem_of_In, H in Hc. unfold is_surrogate.
  apply negb_true_iff, andb_false_iff. left. apply N.leb_gt. lia.
Qed.

Lemma encodable_app (s t : str) : encodable (s ++ t) = encodable s && encodable t.
Proof. apply forallb_app. Qed.

(** A timestamp is in UTC: it ends with the offset zero. *)
Lemma isoformat_utc (dt : datetime) : exists t, isoformat dt = t ++ txt "+00:00".
Proof. unfold isoformat. eexists. rewrite !app_assoc. reflexivity. Qed.

Lemma one_field_tab (s : str) : one_field s = true -> char_in TAB s = false.
Proof. by intros [H%negb_true_iff _]%andb_true_iff. Qed.

Lemma one_field_newline (s : str) : one_field s = true -> char_in NEWLINE s = false.
Proof. by intros [_ H%negb_true_iff]%andb_true_iff. Qed.

(** The body of the line of a loggable call holds no newline and parses
    back to the entry written. *)
Lemma body_of_line (c : io * str * str) :
  loggable c ->
  char_in NEWLINE (body_of c) = false /\ parse_line (body_of c) = Some (entry_of c).
Proof.
  destruct c as [[sys customer_id] action]. intros (_ & _ & _ & Hc & Ha & _).
  unfold body_of, entry_of. split.
  - rewrite !char_in_app. cbn [char_in existsb]. 
    rewrite (one_field_newline _ (isoformat_one_field _)).
    by rewrite (one_field_newline _ Hc), (one_field_newline _ Ha).
  - apply parse_line_fields; apply one_field_tab;
      [apply isoformat_one_field | done | done].
Qed.

Lemma log_line_encodable (dt : datetime) (customer_id action : str) :
  encodable (log_line (isoformat dt) customer_id action)
  = encodable customer_id && encodable action.
Proof.
  unfold log_line. rewrite !encodable_app, isoformat_encodable.
  cbn [encodable forallb]. unfold TAB, NEWLINE.
  replace (is_surrogate 9) with false by reflexivity.
  replace (is_surrogate 10) with false by reflexivity.
  cbn [negb andb]. by rewrite andb_true_r.
Qed.

Lemma update_loggable (sys : io) (customer_id action log : str) :
  loggable (sys, customer_id, action) ->
  update_customer_status sys customer_id action log
  = (Ok (status true (txt "Logged " ++ strip action ++ txt " for "
                      ++ strip customer_id ++ txt ".")),
     log ++ body_of (sys, customer_id, action) ++ [NEWLINE]).
Proof.
  intros (Ho & Hw & [Hc Ha]%andb_true_iff & _ & _ & Hec & Hea).
  unfold update_customer_status. cbv zeta.
  rewrite Hc, Ha, Ho, Hw, log_line_encodable, Hec, Hea. cbn [negb orb andb].
  unfold log_line, body_of, entry_of. by rewrite <- !app_assoc.
Qed.

Lemma update_all_loggable (calls : list (io * str * str)) (log : str) :
  Forall loggable calls ->
  exists results,
    update_all calls log = (results, log ++ unlines (body_of <$> calls))
    /\ Forall succeeded results /\ length results = length calls.
Proof.
  intros H. revert log. induction H as [|[[sys cid] act] calls Hc _ IH]; intros log.
  - exists []. cbn [update_all fmap list_fmap unlines flat_map]. by rewrite app_nil_r.
  - cbn [update_all]. rewrite update_loggable by done.
    destruct (IH (log ++ body_of (sys, cid, act) ++ [NEWLINE])) as (rs & -> & Hrs & Hlen).
    eexists. split; [| split].
    + f_equal. rewrite fmap_cons. unfold unlines. cbn [flat_map].
      by rewrite <- !app_assoc.
    + constructor; [eexists; split; [reflexivity | by vm_compute] | done].
    + cbn [length]. by rewrite Hlen.
Qed.

(** C9: the recording is not a round trip.  The arguments are trimmed at
    their ends only and written as they are, so one call whose action holds
    a newline appends two lines, and the second can be a well-formed entry
    for another customer that nobody recorded. *)
Theorem newline_inside_action_forges_entry :
  let forged := txt "2026-11-03T08:47:06+00:00" ++ [TAB] ++ txt "CUST_002"
                ++ [TAB] ++ txt "cancellation" in
  let action := txt "pause" ++ [NEWLINE] ++ forged in
  let r := update_customer_status working (txt "CUST_001") action [] in
  let first := isoformat example_time ++ [TAB] ++ txt "CUST_001" ++ [TAB] ++ txt "pause" in
  recordable (txt "CUST_001") action = true
  /\ r.1 = Ok (status true (txt "Logged " ++ action ++ txt " for CUST_001."))
  /\ lines r.2 = Some [first; forged]
  /\ parse_line first = Some (isoformat example_time, txt "CUST_001", txt "pause")
  /\ parse_line forged
     = Some (txt "2026-11-03T08:47:06+00:00", txt "CUST_002", txt "cancellation").
Proof. by vm_compute. Qed.

(** A line that cannot be encoded: the call raises instead of returning a
    result, and the log stays as it was. *)
Example lone_surrogate_raises :
  update_customer_status working (txt "CUST_001") (txt "pause" ++ [55296]) (txt "old")
  = (Raise (UnicodeEncodeError
              (log_line (isoformat example_time) (txt "CUST_001") (txt "pause" ++ [55296]))),
     txt "old").
Proof. by vm_compute. Qed.

(** X25: when the file can be opened and written and the trimmed
    arguments are non-empty and hold no tab, no newline and no surrogate, a
    call appends exactly one line [timestamp TAB customerId TAB action
    NEWLINE] and succeeds; [N] such calls append exactly [N] lines, each of
    which parses back to its entry.  When an argument is empty after
    trimming the call fails with the validation message and leaves the log
    as it was, and so does a call that cannot open the file; a call whose
    write fails reports the failure, and the log then holds what of the
    line had been written. *)
Theorem status_log_round_trip
    (calls : list (io * str * str)) (log : str)
    (sys : io) (customer_id action : str) :
  (loggable (sys, customer_id, action) ->
     update_customer_status sys customer_id action log
     = (Ok (status true (txt "Logged " ++ strip action ++ txt " for "
                         ++ strip customer_id ++ txt ".")),
        log ++ log_line (isoformat (now sys)) (strip customer_id) (strip action))
     /\ lines (log_line (isoformat (now sys)) (strip customer_id) (strip action))
        = Some [body_of (sys, customer_id, action)]
     /\ parse_line (body_of (sys, customer_id, action))
        = Some (isoformat (now sys), strip customer_id, strip action))
  /\ (Forall loggable calls ->
       exists results,
         update_all calls log = (results, log ++ unlines (body_of <$> calls))
         /\ Forall succeeded results
         /\ length results = length calls
         /\ lines (unlines (body_of <$> calls)) = Some (body_of <$> calls)
         /\ length (body_of <$> calls) = length calls
         /\ parse_line <$> (body_of <$> calls) = Some <$> (entry_of <$> calls))
  /\ (recordable customer_id action = false ->
       update_customer_status sys customer_id action log
       = (Ok (status false (txt "customer_id and action are required.")), log))
  /\ (recordable customer_id action = true -> open_ok sys = false ->
       update_customer_status sys customer_id action log = (Ok (write_failed sys), log))
  /\ (recordable customer_id action = true -> open_ok sys = true ->
      encodable (strip customer_id) = true -> encodable (strip action) = true ->
      write_ok sys = false ->
       update_customer_status sys customer_id action log
       = (Ok (write_failed sys),
          log ++ take (written sys)
                      (log_line (isoformat (now sys)) (strip customer_id) (strip action)))).
Proof.
  split; [| split; [| split; [| split]]].
  - intros Hl. pose proof (body_of_line _ Hl) as [Hn Hp].
    split; [| split; [| done]].
    + rewrite update_loggable by done. unfold log_line, body_of, entry_of.
      by rewrite <- !app_assoc.
    + replace (log_line _ _ _) with (unlines [body_of (sys, customer_id, action)]).
      * apply lines_unlines. by constructor.
      * unfold unlines, log_line, body_of, entry_of. cbn [flat_map].
        by rewrite app_nil_r, <- !app_assoc.
  - intros Hall. destruct (update_all_loggable calls log Hall) as (rs & Hrs & Hs & Hlen).
    exists rs. split; [done |]. split; [done |]. split; [done |].
    split; [| split].
    + apply lines_unlines. apply Forall_fmap.
      eapply Forall_impl; [apply Hall |]. intros c Hc. by apply body_of_line.
    + by rewrite length_fmap.
    + rewrite <- !list_fmap_compose. apply Forall_fmap_ext.
      eapply Forall_impl; [apply Hall |]. intros c Hc. by apply body_of_line.
  - unfold recordable, update_customer_status. cbv zeta.
    intros [H | H]%andb_false_iff; rewrite H; cbn [negb orb]; [done |].
    by rewrite orb_true_r.
  - unfold recordable, update_customer_status. cbv zeta.
    intros [Hc Ha]%andb_true_iff Ho. by rewrite Hc, Ha, Ho.
  - unfold recordable, update_customer_status. cbv zeta.
    intros [Hc Ha]%andb_true_iff Ho Hec Hea Hw.
    by rewrite Hc, Ha, Ho, Hw, log_line_encodable, Hec, Hea.
Qed.

Lemma status_log_round_trip_witness :
  loggable (working, txt " CUST_001 ", txt "cancellation")
  /\ Forall loggable [(working, txt "CUST_001", txt "pause");
                      (working, txt "CUST_002", txt "downgrade")]
  /\ lines (update_all [(working, txt "CUST_001", txt "pause");
                        (working, txt "CUST_002", txt "downgrade")] []).2
     = Some [body_of (working, txt "CUST_001", txt "pause");
             body_of (working, txt "CUST_002", txt "downgrade")].
Proof.
  assert (loggable (working, txt " CUST_001 ", txt "cancellation")) as H1
    by (by vm_compute).
  assert (Forall loggable [(working, txt "CUST_001", txt "pause");
                           (working, txt "CUST_002", txt "downgrade")]) as H2
    by (repeat constructor).
  split; [done |]. split; [done |].
  destruct (status_log_round_trip
              [(working, txt "CUST_001", txt "pause");
               (working, txt "CUST_002", txt "downgrade")] []
              working (txt " CUST_001 ") (txt "cancellation"))
    as (_ & Hn & _).
  destruct (Hn H2) as (rs & Hu & _ & _ & Hl & _).
  rewrite Hu. cbn [snd app]. exact Hl.
Defined.
(** ** Trimming *)

Lemma lstrip_head (s : str) :
  lstrip s = [] \/ exists c t, lstrip s = c :: t /\ is_space c = false.
Proof.
  induction s as [|c s IH]; simpl; [by left |].
  destruct (is_space c) eqn:E; [done | right; eauto].
Qed.

Lemma lstrip_id (c : N) (s : str) : is_space c = false -> lstrip (c :: s) = c :: s.
Proof. intros H. simpl. by rewrite H. Qed.

Lemma lstrip_idempotent (s : str) : lstrip (lstrip s) = lstrip s.
Proof.
  destruct (lstrip_head s) as [-> | (c & t & -> & Hc)]; [done |].
  by apply lstrip_id.
Qed.

Lemma lstrip_snoc (s : str) (c : N) :
  is_space c = false -> lstrip (s ++ [c]) = lstrip s ++ [c].
Proof.
  intros Hc. induction s as [|x s IH]; simpl; [by rewrite Hc |].
  by destruct (is_space x).
Qed.

Lemma rstrip_cons (c : N) (s : str) :
  is_space c = false -> rstrip (c :: s) = c :: rstrip s.
Proof.
  intros Hc. unfold rstrip.
  by rewrite reverse_cons, lstrip_snoc, reverse_app by done.
Qed.

Lemma rstrip_idempotent (s : str) : rstrip (rstrip s) = rstrip s.
Proof. unfold rstrip. by rewrite reverse_involutive, lstrip_idempotent. Qed.

Lemma strip_idempotent (s : str) : strip (strip s) = strip s.
Proof.
  unfold strip.
  destruct (lstrip_head s) as [-> | (c & t & -> & Hc)]; [done |].
  by rewrite rstrip_cons, lstrip_id, <- rstrip_cons, rstrip_idempotent.
Qed.

Lemma rstrip_id (s : str) (c : N) :
  last s = Some c -> is_space c = false -> rstrip s = s.
Proof.
  intros Hl Hc. unfold rstrip.
  destruct (reverse s) as [|x r] eqn:E.
  - apply (f_equal reverse) in E. rewrite reverse_involutive in E. by subst.
  - assert (x = c) as ->.
    { rewrite <- (reverse_involutive s), E, reverse_cons, last_snoc in Hl.
      by injection Hl. }
    rewrite lstrip_id by done. by rewrite <- E, reverse_involutive.
Qed.

(** ** Word characters *)

Lemma is_space_cases (c : N) :
  is_space c = true ->
  In c [9; 10; 11; 12; 13; 28; 29; 30; 31; 32; 133; 160; 5760;
        8192; 8193; 8194; 8195; 8196; 8197; 8198; 8199; 8200; 8201; 8202;
        8232; 8233; 8239; 8287; 12288].
Proof.
  unfold is_space. rewrite !orb_true_iff, !andb_true_iff, !N.leb_le, !N.eqb_eq.
  cbn [In]. lia.
Qed.

(** No white space is a word character. *)
Lemma word_not_space (c : N) : is_word c = true -> is_space c = false.
Proof.
  intros Hw. destruct (is_space c) eqn:E; [| done].
  apply is_space_cases in E.
  eapply (proj1 (forallb_forall (fun c => negb (is_word c)) _)) in E;
    [by rewrite Hw in E | by vm_compute].
Qed.

Lemma char_in_In (x : N) (cs : str) : char_in x cs = true <-> In x cs.
Proof.
  unfold char_in. rewrite existsb_exists. split.
  - by intros (y & Hy & ->%N.eqb_eq).
  - intros H. exists x. by rewrite N.eqb_refl.
Qed.

(** The characters of the prefix are word characters in every spelling. *)
Lemma prefix_class_word (x : N) (cs : str) :
  In cs CUST_PREFIX -> char_in x cs = true -> is_word x = true.
Proof.
  intros Hcs Hx%char_in_In.
  assert (forallb (forallb is_word) CUST_PREFIX = true) as H by (by vm_compute).
  rewrite forallb_forall in H. specialize (H _ Hcs).
  rewrite forallb_forall in H. by apply H.
Qed.

(** ** The customer-id pattern *)

Lemma run_take (p : N -> bool) (s : str) : Forall (fun c => p c = true) (take (run p s) s).
Proof.
  induction s as [|c s IH]; simpl; [constructor |].
  destruct (p c) eqn:E; simpl; [by constructor | constructor].
Qed.

Lemma run_stop (p : N -> bool) (s : str) :
  match head (drop (run p s) s) with
  | Some c => p c = false
  | None => True
  end.
Proof.
  induction s as [|c s IH]; simpl; [done |].
  destruct (p c) eqn:E; simpl; [done | done].
Qed.

Lemma run_app_ge (p : N -> bool) (w s : str) :
  Forall (fun c => p c = true) w -> (length w <= run p (w ++ s))%nat.
Proof.
  induction 1 as [|c w Hc _ IH]; simpl; [lia |]. rewrite Hc. lia.
Qed.

Lemma run_last (p : N -> bool) (s : str) :
  (1 <= run p s)%nat -> exists c, last (take (run p s) s) = Some c /\ p c = true.
Proof.
  intros H. pose proof (run_take p s) as Hall.
  destruct (take (run p s) s) as [|x l] eqn:E.
  - apply (f_equal length) in E. rewrite length_take in E. simpl in E.
    assert (run p s <= length s)%nat.
    { clear. induction s as [|c s IH]; simpl; [lia |]. destruct (p c); simpl; lia. }
    lia.
  - destruct (last (x :: l)) as [c|] eqn:El.
    + exists c. split; [done |].
      rewrite Forall_forall in Hall. apply Hall.
      apply last_Some_elem_of in El. done.
    + by apply last_None in El.
Qed.

(** The end of the pattern: the longest run of word characters is taken at
    once, since a word boundary follows it. *)
Lemma match_word_run (c : N) (s : str) :
  match_here [Many is_word 1; Boundary] (Some c) s
  = if (1 <=? run is_word s)%nat then Some (take (run is_word s) s) else None.
Proof.
  cbn [match_here]. set (n := run is_word s).
  destruct (1 <=? n)%nat eqn:Hn.
  - apply Nat.leb_le in Hn.
    assert (at_boundary (prev_at (Some c) s n) (head (drop n s)) = true) as Hb.
    { destruct (run_last is_word s Hn) as (x & Hx & Hw). fold n in Hx.
      unfold prev_at. rewrite Hx. unfold at_boundary. simpl. rewrite Hw.
      pose proof (run_stop is_word s) as Hs. fold n in Hs.
      destruct (head (drop n s)); simpl; [by rewrite Hs | done]. }
    destruct n as [|n']; [lia |].
    cbn [first_down]. replace (S n' <? 1)%nat with false
      by (symmetry; apply Nat.ltb_ge; lia).
    rewrite Hb. simpl. by rewrite app_nil_r.
  - apply Nat.leb_gt in Hn. assert (n = 0%nat) as -> by lia. done.
Qed.

Lemma match_here_boundary (r : list item) (prev : option N) (s : str) :
  match_here (Boundary :: r) prev s
  = if at_boundary prev (head s) then match_here r prev s else None.
Proof. reflexivity. Qed.

Lemma match_here_one (q : N -> bool) (r : list item) (prev : option N) (s : str) :
  match_here (One q :: r) prev s
  = match s with
    | c :: s' => if q c then cons c <$> match_here r (Some c) s' else None
    | [] => None
    end.
Proof. reflexivity. Qed.

(** One literal character of the pattern, read off a successful match. *)
Lemma match_one_inv (q : N -> bool) (r : list item) (prev : option N) (s m : str) :
  match_here (One q :: r) prev s = Some m ->
  exists c s' m', s = c :: s' /\ m = c :: m' /\ q c = true
                  /\ match_here r (Some c) s' = Some m'.
Proof.
  rewrite match_here_one. destruct s as [|c s']; [done |].
  destruct (q c) eqn:E; [| done].
  intros (m' & H & ->)%fmap_Some. by exists c, s', m'.
Qed.

Lemma prefix_inv (p : str) :
  Forall2 (fun x cs => char_in x cs = true) p CUST_PREFIX ->
  exists c1 c2 c3 c4 c5,
    p = [c1; c2; c3; c4; c5]
    /\ char_in c1 [99; 67] = true /\ char_in c2 [117; 85] = true
    /\ char_in c3 [115; 83; 383] = true /\ char_in c4 [116; 84] = true
    /\ char_in c5 [95] = true.
Proof.
  unfold CUST_PREFIX.
  intros (c1 & p1 & E1 & H & ->)%Forall2_cons_inv_r.
  apply Forall2_cons_inv_r in H as (c2 & p2 & E2 & H & ->).
  apply Forall2_cons_inv_r in H as (c3 & p3 & E3 & H & ->).
  apply Forall2_cons_inv_r in H as (c4 & p4 & E4 & H & ->).
  apply Forall2_cons_inv_r in H as (c5 & p5 & E5 & H & ->).
  apply Forall2_nil_inv_r in H as ->.
  by exists c1, c2, c3, c4, c5.
Qed.

Lemma prefix_word (p : str) :
  Forall2 (fun x cs => char_in x cs = true) p CUST_PREFIX ->
  Forall (fun c => is_word c = true) p.
Proof.
  intros (c1 & c2 & c3 & c4 & c5 & -> & E1 & E2 & E3 & E4 & E5)%prefix_inv.
  repeat constructor;
    [apply (prefix_class_word c1 [99; 67]) | apply (prefix_class_word c2 [117; 85])
     | apply (prefix_class_word c3 [115; 83; 383]) | apply (prefix_class_word c4 [116; 84])
     | apply (prefix_class_word c5 [95])];
    (done || (unfold CUST_PREFIX; cbn [In]; tauto)).
Qed.

Lemma match_here_one_of (cs : str) (r : list item) (prev : option N) (c : N) (s : str) :
  match_here (One (one_of cs) :: r) prev (c :: s)
  = if char_in c cs then cons c <$> match_here r (Some c) s else None.
Proof. reflexivity. Qed.

(** What a match of the pattern at the start of [s] consists of. *)
Lemma match_cust_sound (prev : option N) (s m : str) :
  match_here CUST_RE prev s = Some m ->
  word_opt prev = false
  /\ exists p w rest,
       s = p ++ w ++ rest /\ m = p ++ w
       /\ Forall2 (fun x cs => char_in x cs = true) p CUST_PREFIX
       /\ w <> [] /\ Forall (fun c => is_word c = true) w
       /\ word_opt (head rest) = false.
Proof.
  unfold CUST_RE. rewrite match_here_boundary.
  destruct (at_boundary prev (head s)) eqn:Hb; [| done].
  intros (c1 & s1 & m1 & -> & -> & E1 & H)%match_one_inv.
  apply match_one_inv in H as (c2 & s2 & m2 & -> & -> & E2 & H).
  apply match_one_inv in H as (c3 & s3 & m3 & -> & -> & E3 & H).
  apply match_one_inv in H as (c4 & s4 & m4 & -> & -> & E4 & H).
  apply match_one_inv in H as (c5 & s5 & m5 & -> & -> & E5 & H).
  rewrite match_word_run in H.
  destruct (1 <=? run is_word s5)%nat eqn:Hn; [| done].
  injection H as <-. apply Nat.leb_le in Hn.
  assert (is_word c1 = true) as Hw1
    by (apply (prefix_class_word c1 [99; 67]); [by left | exact E1]).
  split.
  { unfold at_boundary in Hb. cbn [head word_opt] in Hb. rewrite Hw1 in Hb.
    by destruct (word_opt prev). }
  exists [c1; c2; c3; c4; c5], (take (run is_word s5) s5), (drop (run is_word s5) s5).
  split; [by rewrite (take_drop (run is_word s5) s5) |].
  split; [done |]. split; [by repeat constructor |].
  split.
  { destruct (run_last is_word s5 Hn) as (x & Hx & _). by intros E; rewrite E in Hx. }
  split; [apply run_take |].
  pose proof (run_stop is_word s5) as Hs.
  by destruct (head (drop _ s5)).
Qed.

Lemma match_cust_complete (prev : option N) (p w post : str) :
  word_opt prev = false ->
  Forall2 (fun x cs => char_in x cs = true) p CUST_PREFIX -> w <> [] ->
  Forall (fun c => is_word c = true) w ->
  exists m, match_here CUST_RE prev (p ++ w ++ post) = Some m.
Proof.
  intros Hprev Hp Hw Hall.
  pose proof (prefix_word p Hp) as Hpw.
  apply prefix_inv in Hp as (c1 & c2 & c3 & c4 & c5 & -> & E1 & E2 & E3 & E4 & E5).
  assert (is_word c1 = true) as Hw1 by (by inversion Hpw).
  unfold CUST_RE. cbn [app]. rewrite match_here_boundary.
  unfold at_boundary at 1. cbn [head word_opt]. rewrite Hprev, Hw1. cbn [xorb].
  rewrite !match_here_one_of, E1, E2, E3, E4, E5, match_word_run.
  pose proof (run_app_ge is_word w post Hall) as Hrun.
  assert (1 <= length w)%nat by (destruct w; [done | cbn [length]; lia]).
  replace (1 <=? run is_word (w ++ post))%nat with true
    by (symmetry; apply Nat.leb_le; lia).
  eexists. reflexivity.
Qed.

Lemma before_cons (prev : option N) (c : N) (pre : str) :
  before (Some c) pre = before prev (c :: pre).
Proof.
  unfold before. destruct pre as [|x pre]; [done |].
  rewrite last_cons_cons.
  destruct (last (x :: pre)) eqn:E; [done | by apply last_None in E].
Qed.

Lemma search_from_unfold (its : list item) (prev : option N) (s : str) :
  search_from its prev s
  = match match_here its prev s with
    | Some m => Some m
    | None =>
        match s with
        | [] => None
        | c :: s' => search_from its (Some c) s'
        end
    end.
Proof. by destruct s. Qed.

(** A successful search is a match at some position of the text. *)
Lemma search_from_sound (its : list item) (prev : option N) (s m : str) :
  search_from its prev s = Some m ->
  exists pre rest, s = pre ++ rest /\ match_here its (before prev pre) rest = Some m.
Proof.
  revert prev. induction s as [|c s IH]; intros prev; rewrite search_from_unfold.
  - destruct (match_here its prev []) eqn:E; [| done].
    intros [= <-]. by exists [], [].
  - destruct (match_here its prev (c :: s)) eqn:E.
    + intros [= <-]. by exists [], (c :: s).
    + intros (pre & rest & -> & Hm)%IH.
      exists (c :: pre), rest. split; [done |]. by rewrite <- before_cons.
Qed.

(** When a token of the pattern stands in the text, the search for the
    pattern succeeds. *)
Lemma search_cust_complete (prev : option N) (pre p w post : str) :
  word_opt (before prev pre) = false ->
  Forall2 (fun x cs => char_in x cs = true) p CUST_PREFIX -> w <> [] ->
  Forall (fun c => is_word c = true) w ->
  exists m, search_from CUST_RE prev (pre ++ p ++ w ++ post) = Some m.
Proof.
  intros Hb Hp Hw Hall. revert prev Hb.
  induction pre as [|c pre IH]; intros prev Hb.
  - destruct (match_cust_complete prev p w post Hb Hp Hw Hall) as [m Hm].
    exists m. cbn [app]. by rewrite search_from_unfold, Hm.
  - cbn [app]. rewrite search_from_unfold.
    destruct (match_here CUST_RE prev _) as [m|]; [eauto |].
    apply IH. by rewrite before_cons with (prev := prev).
Qed.

Lemma cust_token_word (m : str) : cust_token m -> Forall (fun c => is_word c = true) m.
Proof.
  intros (p & w & -> & Hp & _ & Hw). apply Forall_app. split; [by apply prefix_word | done].
Qed.

Lemma cust_token_truthy (m : str) : cust_token m -> truthy m = true.
Proof.
  intros (p & w & -> & Hp & _). apply prefix_inv in Hp as (? & ? & ? & ? & ? & -> & _).
  done.
Qed.

(** A text of word characters has no white space to trim. *)
Lemma word_strip (m : str) : Forall (fun c => is_word c = true) m -> strip m = m.
Proof.
  intros Hall. destruct m as [|c m]; [done |].
  assert (is_space c = false) as Hc
    by (apply word_not_space; by inversion Hall).
  unfold strip. rewrite lstrip_id by done.
  destruct (last (c :: m)) as [x|] eqn:Hl; [| by apply last_None in Hl].
  apply (rstrip_id _ x); [done |].
  apply word_not_space. rewrite Forall_forall in Hall. apply Hall.
  by apply last_Some_elem_of.
Qed.

Lemma cust_token_strip (m : str) : cust_token m -> strip m = m.
Proof. intros H. by apply word_strip, cust_token_word. Qed.

Lemma word_no_at (m : str) :
  Forall (fun c => is_word c = true) m -> contains (txt "@") m = false.
Proof.
  intros Hall. destruct (contains (txt "@") m) eqn:C; [| done].
  apply contains_spec in C as (a & b & ->).
  apply Forall_app in Hall as [_ Hall]. by inversion Hall.
Qed.

(** The search for the pattern finds a token of the pattern that stands in
    the text exactly when there is one. *)
Lemma search_cust_spec (s : str) :
  match search CUST_RE s with
  | Some m => cust_token m /\ token_in m s
  | None => forall tok, cust_token tok -> ~ token_in tok s
  end.
Proof.
  unfold search. destruct (search_from CUST_RE None s) as [m|] eqn:E.
  - apply search_from_sound in E as (pre & rest & -> & Hm).
    apply match_cust_sound in Hm as (Hprev & p & w & post & -> & -> & Hp & Hw & Hall & Hpost).
    split; [by exists p, w |].
    exists pre, post. split; [by rewrite <- !app_assoc |]. split; [| done].
    unfold before in Hprev. by destruct (last pre).
  - intros tok (p & w & -> & Hp & Hw & Hall) (pre & post & -> & Hpre & Hpost).
    destruct (search_cust_complete None pre p w post) as [m Hm]; try done.
    + unfold before. by destruct (last pre).
    + rewrite <- !app_assoc in E. congruence.
Qed.

(** A token of the pattern on its own is what the pattern finds in it. *)
Lemma search_whole_token (tok : str) : cust_token tok -> search CUST_RE tok = Some tok.
Proof.
  intros Htok. pose proof (search_cust_spec tok) as H.
  pose proof (cust_token_word tok Htok) as Hw.
  destruct (search CUST_RE tok) as [m|].
  - destruct H as [_ (pre & post & E & Hpre & Hpost)]. f_equal.
    rewrite E in Hw. apply Forall_app in Hw as [Hw1 Hw2].
    apply Forall_app in Hw2 as [_ Hw2].
    assert (pre = []) as ->.
    { destruct pre as [|a pre _] using rev_ind; [done |].
      rewrite last_snoc in Hpre. apply Forall_app in Hw1 as [_ Hw1].
      inversion Hw1; subst. cbn [word_opt] in Hpre. congruence. }
    assert (post = []) as ->.
    { destruct post as [|a post]; [done |]. inversion Hw2; subst.
      cbn [head word_opt] in Hpost. congruence. }
    by rewrite E, app_nil_r.
  - exfalso. apply (H tok Htok). exists [], []. by rewrite app_nil_r.
Qed.

(** ** Customer ids in ASCII spelling *)

Lemma lower_from_ascii (rev_before p w : str) :
  Forall (fun c => c < 128) p ->
  lower_from rev_before (p ++ w)
  = ((fun c => if is_upper c then c + 32 else c) <$> p)
    ++ lower_from (reverse p ++ rev_before) w.
Proof.
  intros Hp. revert rev_before. induction Hp as [|c p Hc _ IH]; intros rev_before; [done |].
  cbn [app]. rewrite lower_from_cons_ascii, IH by done.
  by rewrite reverse_cons, <- app_assoc.
Qed.

Lemma cust_id_ascii (p : str) : lower p = txt "cust_" -> Forall (fun c => c < 128) p.
Proof.
  intros Hp. apply (lower_from_ascii_inv []). fold (lower p). rewrite Hp.
  change (txt "cust_") with [99; 117; 115; 116; 95].
  repeat (constructor; [lia |]). constructor.
Qed.

(** A customer id is a token of the pattern. *)
Lemma cust_id_token (m : str) : cust_id m -> cust_token m.
Proof.
  intros (p & w & -> & Hp & Hw & Hall). exists p, w.
  split; [done |]. split; [| done].
  pose proof (cust_id_ascii p Hp) as Ha.
  unfold lower in Hp. rewrite <- (app_nil_r p), lower_from_ascii in Hp by done.
  rewrite app_nil_r in Hp. clear Ha.
  change (txt "cust_") with [99; 117; 115; 116; 95] in Hp.
  destruct p as [|c1 [|c2 [|c3 [|c4 [|c5 [|c6 p]]]]]]; try discriminate Hp.
  injection Hp as H1 H2 H3 H4 H5.
  assert (forall c x : N, (if is_upper c then c + 32 else c) = x ->
                          c = x \/ (65 <= c <= 90 /\ c + 32 = x)) as Hcase.
  { intros c x <-. destruct (is_upper c) eqn:U; [right | by left].
    unfold is_upper in U. apply andb_true_iff in U as [U1 U2].
    apply N.leb_le in U1, U2. lia. }
  apply Hcase in H1, H2, H3, H4, H5.
  unfold CUST_PREFIX.
  repeat (constructor; [apply char_in_In; cbn [In]; lia |]). constructor.
Qed.

Lemma cust_id_strip (m : str) : cust_id m -> strip m = m.
Proof. intros H. by apply cust_token_strip, cust_id_token. Qed.

Lemma cust_id_truthy (m : str) : cust_id m -> truthy m = true.
Proof. intros H. by apply cust_token_truthy, cust_id_token. Qed.

Lemma cust_id_prefix (m : str) :
  cust_id m -> startswith (txt "cust_") (lower m) = true.
Proof.
  intros (p & w & -> & Hp & _). apply startswith_spec.
  pose proof (cust_id_ascii p Hp) as Ha.
  unfold lower in *. rewrite lower_from_ascii by done.
  rewrite <- (app_nil_r p), lower_from_ascii in Hp by done.
  rewrite app_nil_r in Hp. rewrite Hp. eauto.
Qed.

(** ** Identifier extraction and the customer lookup *)


Lemma strip_truthy (s : str) : truthy (strip s) = true -> truthy s = true.
Proof. by destruct s. Qed.

Lemma extract_token (raw m : str) :
  truthy raw = true -> search CUST_RE (strip raw) = Some m -> cust_token m ->
  extract_email_or_cust_id raw = Some m.
Proof.
  intros Hr Hs Hm. unfold extract_email_or_cust_id.
  by rewrite Hr, Hs, (cust_token_strip m Hm).
Qed.

Lemma extract_cust (raw m : str) :
  truthy raw = true -> search CUST_RE (strip raw) = Some m -> cust_id m ->
  extract_email_or_cust_id raw = Some m.
Proof. intros Hr Hs Hm. by apply extract_token; [| | apply cust_id_token]. Qed.

(** The lookup of a text whose extraction gives a token of the pattern
    works with that token: it goes by id when the lowered token begins
    with [cust_], and refuses the token otherwise. *)
Lemma lookup_of_token (raw m : str) (cs : list row) :
  truthy (strip raw) = true -> search CUST_RE (strip raw) = Some m -> cust_token m ->
  get_customer_data raw cs
  = if startswith (txt "cust_") (lower m) then (lookup_by_id m cs, 1%nat)
    else (not_found INVALID_INPUT, 0%nat).
Proof.
  intros Hr Hs Hm. unfold get_customer_data. cbv zeta. rewrite Hr. cbn [negb].
  rewrite (extract_token (strip raw) m) by (by rewrite ?strip_idempotent).
  rewrite (cust_token_truthy m Hm), (word_no_at m (cust_token_word m Hm)).
  cbn [negb andb].
  destruct (startswith (txt "cust_") (lower m)); reflexivity.
Qed.

(** The lookup of a text whose extraction gives a customer id goes by id. *)
Lemma lookup_of_cust (raw m : str) (cs : list row) :
  truthy (strip raw) = true -> search CUST_RE (strip raw) = Some m -> cust_id m ->
  get_customer_data raw cs = (lookup_by_id m cs, 1%nat).
Proof.
  intros Hr Hs Hm.
  rewrite (lookup_of_token raw m) by (done || by apply cust_id_token).
  by rewrite (cust_id_prefix m Hm).
Qed.


(** A token of the pattern that is not spelled with a long s begins with
    [cust_] once lowered. *)
Lemma cust_token_prefix (x : str) :
  cust_token x -> x !! 2%nat <> Some 383 ->
  startswith (txt "cust_") (lower x) = true.
Proof.
  intros (p & w & -> & Hp & _) Hs.
  apply prefix_inv in Hp as (c1 & c2 & c3 & c4 & c5 & -> & E1 & E2 & E3 & E4 & E5).
  apply char_in_In in E1, E2, E3, E4, E5. cbn [In] in E1, E2, E3, E4, E5.
  cbn [app lookup list_lookup] in Hs.
  assert (c3 <> 383) as H3 by congruence.
  unfold lower. rewrite (lower_from_ascii [] [c1; c2; c3; c4; c5] w)
    by (repeat (constructor; [lia |]); constructor).
  apply startswith_spec. eexists.
  cbn [fmap list_fmap app]. 
  assert (forall c t : N, c = t \/ c = t - 32 -> 97 <= t <= 122 \/ t = 95 ->
            (t = 95 -> c = 95) -> (if is_upper c then c + 32 else c) = t) as Hl.
  { intros c t Hc Ht H95. unfold is_upper.
    destruct ((65 <=? c) && (c <=? 90)) eqn:U.
    - apply andb_true_iff in U as [U1%N.leb_le U2%N.leb_le]. lia.
    - apply andb_false_iff in U as [U%N.leb_gt | U%N.leb_gt]; lia. }
  rewrite (Hl c1 99), (Hl c2 117), (Hl c3 115), (Hl c4 116), (Hl c5 95) by lia.
  reflexivity.
Qed.





(** The pattern ignores case as Unicode does, so it also matches [cust_]
    spelled with a long s.  Such a token is selected like any other, and
    the lookup of the text is the lookup of the token; but the lookup
    refuses it, since its lower case does not begin with [cust_], and it
    does so even when a customer id in ASCII spelling and an email follow
    in the text. *)
Example long_s_token_is_selected_and_refused :
  let text := txt "cu" ++ [383] ++ txt "t_9 CUST_001 sarah.chen@email.com" in
  let token := txt "cu" ++ [383] ++ txt "t_9" in
  extract_email_or_cust_id text = Some token
  /\ get_customer_data text [sarah] = get_customer_data token [sarah]
  /\ get_customer_data text [sarah] = (not_found INVALID_INPUT, 0%nat).
Proof. by vm_compute. Qed.

(** C6, as stated, fails: no identifier can be extracted from [a@b], yet the
    lookup consults the directory, and finds the customer when a row has
    that email. *)
Lemma unextractable_text_consults_directory :
  extract_email_or_cust_id (txt "a@b") = None
  /\ (get_customer_data (txt "a@b") [odd_row]).2 = 1%nat
  /\ (get_customer_data (txt "a@b") [odd_row]).1 !! txt "found" = Some (VBool true)
  /\ (get_customer_data (txt "a@b") []).2 = 1%nat
  /\ (get_customer_data (txt "a@b") []).1 !! txt "found" = Some (VBool false).
Proof. by vm_compute. Qed.

(** C6, amended: when no identifier can be extracted from the input and the
    trimmed input holds no [@] and does not begin with [cust_] in any letter
    case, the lookup returns found=false with a guidance message and never
    asks for the customer directory. *)
Theorem unextractable_lookup_rejected (email : str) (cs : list row) :
  extract_email_or_cust_id email = None ->
  contains (txt "@") (strip email) = false ->
  startswith (txt "cust_") (lower (strip email)) = false ->
  exists guidance,
    get_customer_data email cs = (not_found guidance, 0%nat)
    /\ (guidance = NO_INPUT \/ guidance = INVALID_INPUT)
    /\ not_found guidance !! txt "found" = Some (VBool false)
    /\ not_found guidance !! txt "message" = Some (VStr guidance).
Proof.
  intros He Hat Hp. unfold get_customer_data. cbv zeta.
  destruct (truthy (strip email)) eqn:Hr; cbn [negb].
  - assert (extract_email_or_cust_id (strip email) = None) as ->.
    { unfold extract_email_or_cust_id in *.
      rewrite (strip_truthy _ Hr) in He. rewrite Hr, strip_idempotent. done. }
    rewrite Hat, Hp. cbn [negb andb]. exists INVALID_INPUT.
    split; [done |]. split; [by right |]. split; by vm_compute.
  - exists NO_INPUT. split; [done |]. split; [by left |]. split; by vm_compute.
Qed.

Lemma unextractable_lookup_witness :
  exists guidance,
    get_customer_data (txt "  I want to cancel my plan ") [sarah]
    = (not_found guidance, 0%nat)
    /\ (guidance = NO_INPUT \/ guidance = INVALID_INPUT)
    /\ not_found guidance !! txt "found" = Some (VBool false)
    /\ not_found guidance !! txt "message" = Some (VStr guidance).
Proof.
  apply (unextractable_lookup_rejected (txt "  I want to cancel my plan ") [sarah]);
    reflexivity.
Defined.

(** The model follows the word characters of Unicode: after [x cust_] an
    accented letter continues the token, which is extracted and looked up;
    and an ideograph before [CUST_001] leaves no word boundary there, so
    the email is what the text yields. *)
Example unicode_word_characters :
  extract_email_or_cust_id (txt "x cust_" ++ [233]) = Some (txt "cust_" ++ [233])
  /\ (get_customer_data (txt "x cust_" ++ [233]) []).2 = 1%nat
  /\ extract_email_or_cust_id ([26159] ++ txt "CUST_001 a@b.com") = Some (txt "a@b.com").
Proof. by vm_compute. Qed.
(** ** The main loop of the agent step engine *)

Ltac exc_simpl := cbn [mbind exc_bind fmap exc_fmap mret exc_ret].

(** Reply synthesis touches neither the profile nor the round counter. *)
Lemma synthesize_frame (e : env) (ls ls' : loop_state) :
  synthesize e ls = Ok ls' ->
  ls_customer_data_out ls' = ls_customer_data_out ls
  /\ ls_tool_rounds ls' = ls_tool_rounds ls.
Proof.
  unfold synthesize.
  destruct (eqb _ (txt "end")).
  - destruct (ls_has_status_update ls); [by intros [= <-] |].
    destruct (any_in END_FOLLOW_UPS _); [by intros [= <-] |].
    destruct (any_in END_CANCEL_WORDS _); by intros [= <-].
  - destruct (invoke_retry _ _ _) as [[[fc tcs] calls]|]; exc_simpl; [| done].
    by intros [= <-].
Qed.

Lemma found_profile_True (tms : list message) (d : dict) :
  found_profile tms = Some d ->
  found_is_True d = true /\ exists name, ToolMessage name (CDict d) ∈ tms.
Proof.
  induction tms as [|m tms IH]; cbn [found_profile]; [done |].
  assert (found_profile tms = Some d ->
          found_is_True d = true /\ exists name, ToolMessage name (CDict d) ∈ m :: tms)
    as IH'.
  { intros (Hd & name & Hin)%IH. split; [done |]. exists name. by right. }
  destruct m as [| | |name c]; try done.
  destruct c as [| |d']; try done.
  destruct (found_is_True d') eqn:E; [| done].
  intros [= <-]. split; [done |]. exists name. by left.
Qed.

Lemma profile_step_refl (e : env) (cd : option dict) : profile_step e cd cd.
Proof. by left. Qed.

Lemma profile_step_trans (e : env) (a b c : option dict) :
  profile_step e a b -> profile_step e b c -> profile_step e a c.
Proof. intros [-> | H1] [-> | H2]; by (left + right). Qed.

(** The three shapes of a turn of the loop. *)
Lemma loop_body_raise (e : env) (ls : loop_state) (err : error) :
  invoke_retry e (txt "LLM failed (retry failed)") (ls_calls ls) = Raise err ->
  loop_body e ls = Raise err.
Proof. intros H. unfold loop_body. by rewrite H. Qed.

Lemma loop_body_reply (e : env) (ls : loop_state) (content : content) (calls : nat) :
  invoke_retry e (txt "LLM failed (retry failed)") (ls_calls ls)
  = Ok (content, [], calls) ->
  loop_body e ls
  = Ok (inr {| ls_messages := ls_messages ls ++ [AIMessage content []];
               ls_customer_data_out := ls_customer_data_out ls;
               ls_next_route := ls_next_route ls;
               ls_has_status_update := ls_has_status_update ls;
               ls_tool_rounds := ls_tool_rounds ls;
               ls_calls := calls |}).
Proof. intros H. unfold loop_body. by rewrite H. Qed.

Lemma loop_body_tools (e : env) (ls : loop_state)
    (content : content) (tool_calls : list tool_call) (calls : nat) :
  invoke_retry e (txt "LLM failed (retry failed)") (ls_calls ls)
  = Ok (content, tool_calls, calls) ->
  tool_calls <> [] ->
  loop_body e ls
  = if only_set_route tool_calls
    then inr <$> synthesize e (after_tools e ls content tool_calls calls)
    else if (max_tool_rounds <=? S (ls_tool_rounds ls))%nat
    then Ok (inr (after_tools e ls content tool_calls calls))
    else Ok (inl (after_tools e ls content tool_calls calls)).
Proof.
  intros H Hne. unfold loop_body, after_tools. rewrite H. exc_simpl.
  destruct tool_calls as [|tc tcs]; [done |].
  by destruct (scan_tool_calls _ _ _).
Qed.

(** One turn of the loop: the round counter moves by at most one, the loop
    goes round again only below the bound, and the profile changes only to
    one found by a tool. *)
Lemma loop_body_cases (e : env) (ls : loop_state) :
  match loop_body e ls with
  | Raise _ => True
  | Ok (inl ls') =>
      ls_tool_rounds ls' = S (ls_tool_rounds ls)
      /\ (S (ls_tool_rounds ls) < max_tool_rounds)%nat
      /\ profile_step e (ls_customer_data_out ls) (ls_customer_data_out ls')
  | Ok (inr ls') =>
      (ls_tool_rounds ls' <= S (ls_tool_rounds ls))%nat
      /\ profile_step e (ls_customer_data_out ls) (ls_customer_data_out ls')
  end.
Proof.
  destruct (invoke_retry e (txt "LLM failed (retry failed)") (ls_calls ls))
    as [[[content tcs] calls] | err] eqn:Hinv.
  2: { by rewrite (loop_body_raise _ _ _ Hinv). }
  destruct (decide (tcs = [])) as [-> | Hne].
  { rewrite (loop_body_reply _ _ _ _ Hinv). cbn [ls_tool_rounds ls_customer_data_out].
    split; [lia | apply profile_step_refl]. }
  rewrite (loop_body_tools _ _ _ _ _ Hinv Hne).
  assert (profile_step e (ls_customer_data_out ls)
            (ls_customer_data_out (after_tools e ls content tcs calls))) as Hstep.
  { unfold after_tools. cbn [ls_customer_data_out].
    destruct (found_profile _) as [d|] eqn:E; [| by left].
    right. exists d. split; [done |].
    apply found_profile_True in E as (Hd & name & Hin).
    split; [done |]. by exists (ls_tool_rounds ls), content, tcs, name. }
  destruct (only_set_route tcs).
  - destruct (synthesize _ _) as [ls'|] eqn:Hs; exc_simpl; [| done].
    apply synthesize_frame in Hs as [-> ->]. cbn [after_tools ls_tool_rounds].
    split; [lia | done].
  - destruct (max_tool_rounds <=? _)%nat eqn:Hcap.
    + cbn [after_tools ls_tool_rounds]. split; [lia | done].
    + apply Nat.leb_gt in Hcap. cbn [after_tools ls_tool_rounds].
      split; [done |]. split; [lia | done].
Qed.

(** Termination: below the bound, as many turns as rounds are left leave
    the loop, and no more fuel changes the outcome. *)
Lemma main_loop_total (e : env) (k : nat) (ls : loop_state) :
  (ls_tool_rounds ls + k = max_tool_rounds)%nat -> (0 < k)%nat ->
  exists r,
    (forall fuel, (k <= fuel)%nat -> main_loop e fuel ls = Some r)
    /\ (forall ls', r = Ok ls' ->
          (ls_tool_rounds ls' <= max_tool_rounds)%nat
          /\ profile_step e (ls_customer_data_out ls) (ls_customer_data_out ls')).
Proof.
  revert ls. induction k as [|k IH]; intros ls Hk Hpos; [lia |].
  pose proof (loop_body_cases e ls) as Hb.
  destruct (loop_body e ls) as [[ls1 | ls1] | err] eqn:E.
  - destruct Hb as (Hr & Hlt & Hp).
    destruct (IH ls1) as (r & Hfuel & Hres); [lia | lia |].
    exists r. split.
    + intros [|fuel] Hf; [lia |]. simpl. rewrite E. apply Hfuel. lia.
    + intros ls' ->. destruct (Hres ls' eq_refl) as [? Hp']. split; [done |].
      by eapply profile_step_trans.
  - destruct Hb as (Hr & Hp). exists (Ok ls1). split.
    + intros [|fuel] Hf; [lia |]. simpl. by rewrite E.
    + intros ls' [= <-]. split; [lia | done].
  - exists (Raise err). split.
    + intros [|fuel] Hf; [lia |]. simpl. by rewrite E.
    + done.
Qed.

Lemma setup_rounds (e : env) (st : State) : ls_tool_rounds (setup e st) = 0%nat.
Proof.
  unfold setup. destruct (if _ : bool then _ else _) as [d|]; simpl.
  - done.
  - by destruct (customer_data st).
Qed.

(** With six turns of fuel or more an invocation has an outcome, the same
    for every such fuel: a state returned or an exception raised. *)
Lemma invoke_agent_total (e : env) (st : State) :
  exists r, forall fuel, (max_tool_rounds <= fuel)%nat ->
                         _invoke_agent e fuel st = Some r.
Proof.
  destruct (main_loop_total e max_tool_rounds (setup e st)) as (r & Hfuel & _).
  { by rewrite setup_rounds. }
  { unfold max_tool_rounds. lia. }
  destruct (api_key e) eqn:Hkey.
  - exists match r with
           | Raise err => Raise err
           | Ok ls =>
               Ok {| messages := ls_messages (billing_repair e ls);
                     customer_data := ls_customer_data_out (billing_repair e ls);
                     next_route := route_or (ls_next_route (billing_repair e ls))
                                            (next_route st) |}
           end.
    intros fuel Hf. unfold _invoke_agent. rewrite Hkey, (Hfuel fuel Hf).
    cbn [negb]. by destruct r.
  - eexists. intros fuel _. unfold _invoke_agent. by rewrite Hkey.
Qed.

(** What a turn at the cap does when the round was not a routing-only one. *)
Lemma loop_body_at_cap (e : env) (ls : loop_state)
    (content : content) (tool_calls : list tool_call) (calls : nat) :
  S (ls_tool_rounds ls) = max_tool_rounds ->
  invoke_retry e (txt "LLM failed (retry failed)") (ls_calls ls)
  = Ok (content, tool_calls, calls) ->
  tool_calls <> [] -> only_set_route tool_calls = false ->
  exists ls',
    loop_body e ls = Ok (inr ls')
    /\ ls_messages ls'
       = ls_messages ls ++ [AIMessage content tool_calls]
         ++ tool_node e (ls_tool_rounds ls) content tool_calls
    /\ ls_tool_rounds ls' = max_tool_rounds
    /\ ls_calls ls' = calls.
Proof.
  intros Hcap Hinv Hne Hnot.
  rewrite (loop_body_tools _ _ _ _ _ Hinv Hne), Hnot, Hcap, Nat.leb_refl.
  eexists. split; [reflexivity |]. by rewrite <- Hcap.
Qed.

(** C1, as stated, fails: when the sixth round calls only the routing tool,
    the round counter reaches 6 and the loop is left through reply synthesis,
    with one more call of the model and a synthesized reply after the
    accumulated history. *)
Lemma sixth_round_routing_synthesizes :
  exists ls,
    main_loop routes_in_sixth 6 (setup routes_in_sixth hello) = Some (Ok ls)
    /\ ls_tool_rounds ls = 6%nat
    /\ ls_calls ls = 7%nat
    /\ length (ls_messages ls) = 14%nat
    /\ last (ls_messages ls) = Some (reply (CStr (txt "Try a different cable."))).
Proof. eexists. split; [by vm_compute |]. by vm_compute. Qed.

(** C1, amended: whatever the model answers, the main loop is left after at
    most 6 tool-exchange rounds: 6 turns always suffice and more fuel
    changes nothing, so [_invoke_agent] returns or raises.  In the turn
    that brings the round counter to 6 the loop never goes round again;
    when that round was not a routing-only one it is left with the history
    as accumulated, the response and the tool results, without a
    synthesized reply and without a further call of the model.  A
    routing-only round, the sixth like any other, is left through reply
    synthesis. *)
Theorem agent_loop_bounded (e : env) (st : State) :
  (exists r,
     (forall fuel, (max_tool_rounds <= fuel)%nat ->
                   main_loop e fuel (setup e st) = Some r)
     /\ (forall ls, r = Ok ls -> (ls_tool_rounds ls <= max_tool_rounds)%nat))
  /\ (exists r, forall fuel, (max_tool_rounds <= fuel)%nat ->
                             _invoke_agent e fuel st = Some r)
  /\ (forall ls ls', S (ls_tool_rounds ls) = max_tool_rounds ->
                     loop_body e ls <> Ok (inl ls'))
  /\ (forall ls content tool_calls calls,
        S (ls_tool_rounds ls) = max_tool_rounds ->
        invoke_retry e (txt "LLM failed (retry failed)") (ls_calls ls)
        = Ok (content, tool_calls, calls) ->
        tool_calls <> [] -> only_set_route tool_calls = false ->
        exists ls',
          loop_body e ls = Ok (inr ls')
          /\ ls_messages ls'
             = ls_messages ls ++ [AIMessage content tool_calls]
               ++ tool_node e (ls_tool_rounds ls) content tool_calls
          /\ ls_tool_rounds ls' = max_tool_rounds
          /\ ls_calls ls' = calls)
  /\ (forall ls content tool_calls calls,
        invoke_retry e (txt "LLM failed (retry failed)") (ls_calls ls)
        = Ok (content, tool_calls, calls) ->
        tool_calls <> [] -> only_set_route tool_calls = true ->
        loop_body e ls
        = inr <$> synthesize e (after_tools e ls content tool_calls calls)).
Proof.
  destruct (main_loop_total e max_tool_rounds (setup e st)) as (r & Hfuel & Hres).
  { by rewrite setup_rounds. }
  { unfold max_tool_rounds. lia. }
  split; [| split; [| split; [| split]]].
  - exists r. split; [done |]. intros ls Hr. by destruct (Hres ls Hr).
  - apply invoke_agent_total.
  - intros ls ls' Hcap Hbody. pose proof (loop_body_cases e ls) as Hc.
    rewrite Hbody in Hc. lia.
  - intros ls content tool_calls calls. apply loop_body_at_cap.
  - intros ls content tool_calls calls Hinv Hne Honly.
    by rewrite (loop_body_tools _ _ _ _ _ Hinv Hne), Honly.
Qed.

(** ** The customer profile *)

Lemma found_is_True_has_found (d : dict) :
  found_is_True d = true -> has_found (Some d) = true.
Proof.
  unfold found_is_True, has_found, get_found.
  destruct (d !! txt "found") as [[| [|] | | | |]|] eqn:E; try done.
  intros _. case_bool_decide as Hd; [| done].
  subst d. by rewrite lookup_empty in E.
Qed.

Lemma profile_step_found (e : env) (old new : option dict) :
  profile_step e old new -> has_found old = true -> has_found new = true.
Proof.
  intros [-> | (d & -> & Hd & _)] H; [done | by apply found_is_True_has_found].
Qed.

(** With a found profile in the state the pre-fetch is skipped. *)
Lemma setup_keeps_found (e : env) (st : State) :
  has_found (customer_data st) = true ->
  ls_customer_data_out (setup e st) = customer_data st.
Proof.
  intros H. unfold setup. rewrite H. simpl.
  by destruct (customer_data st).
Qed.

Lemma billing_repair_profile (e : env) (ls : loop_state) :
  ls_customer_data_out (billing_repair e ls) = ls_customer_data_out ls.
Proof.
  unfold billing_repair.
  destruct (_ && _); [| done].
  destruct (last_ai_index _ _) as [i|]; [| done].
  destruct (ls_messages ls !! i) as [[| | c tcs |]|]; try done.
  by destruct (_ && _).
Qed.

(** C3: when the state holds a found profile on entry, an invocation (which
    has an outcome with six turns of fuel) returns only states that hold a
    found profile too: the one of the entry, or the content of a tool
    message of this invocation whose [found] is [True].  A tool result that
    is not found never replaces it. *)
Theorem profile_monotone (e : env) (st : State) :
  has_found (customer_data st) = true ->
  (exists r, forall fuel, (max_tool_rounds <= fuel)%nat ->
                          _invoke_agent e fuel st = Some r)
  /\ (forall fuel st',
        _invoke_agent e fuel st = Some (Ok st') ->
        has_found (customer_data st') = true
        /\ (customer_data st' = customer_data st
            \/ exists d, customer_data st' = Some d /\ tool_found e d)).
Proof.
  intros Hfound. split; [apply invoke_agent_total |].
  intros fuel st'. unfold _invoke_agent.
  destruct (api_key e); cbn [negb]; [| done].
  destruct (main_loop e fuel (setup e st)) as [[ls | err]|] eqn:Hloop; try done.
  intros [= <-]. cbn [customer_data]. rewrite billing_repair_profile.
  assert (profile_step e (customer_data st) (ls_customer_data_out ls)) as Hstep.
  { rewrite <- (setup_keeps_found e st Hfound).
    clear Hfound. revert Hloop. generalize (setup e st).
    induction fuel as [|fuel IH]; intros ls0; cbn [main_loop]; [done |].
    pose proof (loop_body_cases e ls0) as Hb.
    destruct (loop_body e ls0) as [[ls1 | ls1] | err]; [| | done].
    - intros H%IH. destruct Hb as (_ & _ & Hp). by eapply profile_step_trans.
    - intros [= <-]. by destruct Hb. }
  split; [by eapply profile_step_found | done].
Qed.

Lemma profile_monotone_witness :
  exists st',
    _invoke_agent lookup_misses 6 known_customer = Some (Ok st')
    /\ has_found (customer_data st') = true
    /\ (customer_data st' = customer_data known_customer
        \/ exists d, customer_data st' = Some d /\ tool_found lookup_misses d).
Proof.
  destruct (_invoke_agent lookup_misses 6 known_customer) as [[st' | err]|] eqn:E;
    [| by vm_compute in E | by vm_compute in E].
  exists st'. split; [done |].
  destruct (profile_monotone lookup_misses known_customer) as [_ H]; [reflexivity |].
  exact (H 6%nat st' E).
Defined.

Lemma agent_loop_bounded_witness :
  _invoke_agent chatty 7 hello = _invoke_agent chatty 6 hello
  /\ (exists st', _invoke_agent chatty 6 hello = Some (Ok st')
                  /\ length (messages st') = 13%nat).
Proof.
  destruct (agent_loop_bounded chatty hello) as (_ & [r Hr] & _).
  split.
  - rewrite (Hr 7%nat), (Hr 6%nat) by (unfold max_tool_rounds; lia). reflexivity.
  - destruct (_invoke_agent chatty 6 hello) as [[st' | err]|] eqn:E;
      [| by vm_compute in E | by vm_compute in E].
    exists st'. split; [done |]. vm_compute in E. by injection E as <-.
Defined.

(** ** Reply synthesis *)







(** A blank answer on the route billing: the fallback of the route is
    appended, and the billing repair then adds the request for an email. *)
Example blank_billing_reply_gets_fallback :
  exists st',
    _invoke_agent billing_then_blank 6 hello = Some (Ok st')
    /\ last (messages st')
       = Some (reply (CStr (fallback_reply_for_route (txt "billing") ++ EMAIL_SUFFIX))).
Proof. eexists. split; [by vm_compute |]. by vm_compute. Qed.



(** * Further properties of the code *)

Import Data Search Cli Log Text Turn Web.

(** ** The sanitizer of [src/utils.py] *)

Lemma jargon_cleared (text : str) :
  jargon_trigger (sanitize_internal_jargon text) = false.
Proof.
  unfold sanitize_internal_jargon.
  destruct (negb (truthy text)); [by vm_compute |]. cbv zeta.
  match goal with
  | |- context [if ?c then ANYTHING_ELSE else if ?d then ANYTHING_ELSE else text] =>
      destruct c eqn:H1; [by vm_compute |];
      destruct d eqn:H2; [by vm_compute |]
  end.
  unfold jargon_trigger. cbv zeta.
  remember (lower (strip text)) as t eqn:Ht. clear Ht.
  rewrite H1. cbn [orb].
  by rewrite H2.
Qed.

Lemma extract_no_jargon (str_other : dict -> str) (c : option content) :
  jargon_trigger (extract_message_text str_other c) = false.
Proof.
  destruct c as [[s | bs | d]|]; cbn [extract_message_text];
    [apply jargon_cleared.. | by vm_compute].
Qed.

(** X2: whatever [sanitize_internal_jargon] returns no longer sets off its
    own trigger, and neither does any text [extract_message_text] returns,
    for a string, a list of blocks or any other content: a leaked routing
    phrase is never passed on. *)
Theorem displayed_text_has_no_jargon
    (str_other : dict -> str) (c : option content) (text : str) :
  jargon_trigger (sanitize_internal_jargon text) = false
  /\ jargon_trigger (extract_message_text str_other c) = false.
Proof.
  split; [apply jargon_cleared | apply extract_no_jargon].
Qed.

Lemma sanitize_untriggered_witness :
  sanitize (txt "Your Care+ plan is active.") = txt "Your Care+ plan is active.".
Proof. apply sanitize_untriggered; reflexivity. Defined.

(** X4: every fallback reply is displayed as it is: it is not empty, it is
    not taken for a chopped text and it holds no routing phrase. *)
Theorem fallback_reply_displayed_unchanged (str_other : dict -> str) (route : str) :
  extract_message_text str_other (Some (CStr (fallback_reply_for_route route)))
  = fallback_reply_for_route route
  /\ truthy (fallback_reply_for_route route) = true.
Proof.
  unfold fallback_reply_for_route. cbv zeta.
  repeat match goal with
         | |- context [if eqb ?a ?b then _ else _] => destruct (eqb a b)
         end; by vm_compute.
Qed.

(** ** Identifier extraction *)

Lemma first_down_Some {A} (f : nat -> option A) (least k : nat) (a : A) :
  first_down f least k = Some a ->
  exists j, (least <= j <= k)%nat /\ f j = Some a.
Proof.
  induction k as [|k IH]; cbn [first_down].
  - destruct (0 <? least)%nat eqn:E; [done |]. apply Nat.ltb_ge in E.
    destruct (f 0%nat) eqn:F; [| done]. intros [= <-]. exists 0%nat. split; [lia | done].
  - destruct (S k <? least)%nat eqn:E; [done |]. apply Nat.ltb_ge in E.
    destruct (f (S k)) eqn:F.
    + intros [= <-]. exists (S k). split; [lia | done].
    + intros (j & Hj & Hf)%IH. exists j. split; [lia | done].
Qed.

Lemma match_here_many (p : N -> bool) (least : nat) (r : list item)
    (prev : option N) (s : str) :
  match_here (Many p least :: r) prev s
  = first_down
      (fun k => (app (take k s)) <$> match_here r (prev_at prev s k) (drop k s))
      least (run p s).
Proof. reflexivity. Qed.

(** A match is a prefix of the text it was found in. *)
Lemma match_here_prefix (its : list item) (prev : option N) (s m : str) :
  match_here its prev s = Some m -> exists rest, s = m ++ rest.
Proof.
  revert prev s m. induction its as [|it its IH]; intros prev s m.
  - intros [= <-]. by exists s.
  - destruct it as [| q | q least].
    + rewrite match_here_boundary. destruct (at_boundary _ _); [apply IH | done].
    + intros (c & s' & m' & -> & -> & _ & H)%match_one_inv.
      apply IH in H as [rest ->]. by exists rest.
    + rewrite match_here_many.
      intros (j & _ & H)%first_down_Some.
      apply fmap_Some in H as (m' & H & ->).
      apply IH in H as [rest Hrest]. exists rest.
      by rewrite <- app_assoc, <- Hrest, take_drop.
Qed.

Lemma search_contains (its : list item) (s m : str) :
  search its s = Some m -> contains m s = true.
Proof.
  unfold search. intros (pre & rest & -> & H)%search_from_sound.
  apply match_here_prefix in H as [post ->].
  apply contains_spec. by exists pre, post.
Qed.

Lemma lstrip_suffix (s : str) : exists a, s = a ++ lstrip s.
Proof.
  induction s as [|c s [a IH]]; [by exists [] |]. cbn [lstrip].
  destruct (is_space c); [| by exists []].
  exists (c :: a). by rewrite IH at 1.
Qed.

Lemma strip_infix (s : str) : exists a b, s = a ++ strip s ++ b.
Proof.
  destruct (lstrip_suffix s) as [a Ha]. unfold strip, rstrip.
  destruct (lstrip_suffix (reverse (lstrip s))) as [b Hb].
  exists a, (reverse b). rewrite <- reverse_app, <- Hb, reverse_involutive. done.
Qed.

Lemma contains_trans (x y z : str) :
  contains x y = true -> contains y z = true -> contains x z = true.
Proof.
  rewrite !contains_spec. intros (a & b & ->) (c & d & ->).
  exists (c ++ a), (b ++ d). by rewrite <- !app_assoc.
Qed.

Lemma contains_strip (s : str) : contains (strip s) s = true.
Proof. apply contains_spec, strip_infix. Qed.

(** The at sign of an email match. *)
Lemma match_email_at (prev : option N) (s m : str) :
  match_here EMAIL_RE prev s = Some m -> In 64 m.
Proof.
  unfold EMAIL_RE. rewrite match_here_boundary.
  destruct (at_boundary _ _); [| done].
  rewrite match_here_many. intros (j & _ & H)%first_down_Some.
  apply fmap_Some in H as (m' & H & ->).
  apply match_one_inv in H as (c & s' & m'' & _ & -> & Hc & _).
  apply N.eqb_eq in Hc as ->. apply in_or_app. right. by left.
Qed.

Lemma search_email_at (s m : str) : search EMAIL_RE s = Some m -> In 64 m.
Proof.
  unfold search. intros (pre & rest & _ & H)%search_from_sound.
  by apply match_email_at in H.
Qed.

Lemma In_lstrip (c : N) (s : str) :
  is_space c = false -> In c s -> In c (lstrip s).
Proof.
  intros Hc. induction s as [|x s IH]; [done |]. cbn [lstrip].
  destruct (is_space x) eqn:E; [| done].
  intros [-> | H]; [congruence | by apply IH].
Qed.

Lemma In_reverse (c : N) (s : str) : In c (reverse s) <-> In c s.
Proof. by rewrite <- !list_elem_of_In, elem_of_reverse. Qed.

Lemma In_strip (c : N) (s : str) :
  is_space c = false -> In c s -> In c (strip s).
Proof.
  intros Hc H. unfold strip, rstrip.
  apply In_reverse, In_lstrip; [done |]. apply In_reverse.
  by apply In_lstrip.
Qed.

Lemma In_contains (c : N) (s : str) : In c s -> contains [c] s = true.
Proof.
  intros (a & b & ->)%in_split. apply contains_spec. by exists a, b.
Qed.

(** What a successful extraction found: a token of the customer-id
    pattern in the trimmed text, or, when the text holds none, the trimmed
    match of the email pattern. *)
Lemma extract_inv (raw x : str) :
  extract_email_or_cust_id raw = Some x ->
  truthy raw = true
  /\ exists m, contains m (strip raw) = true
       /\ ((search CUST_RE (strip raw) = Some m /\ cust_token m /\ x = m)
           \/ (search CUST_RE (strip raw) = None
               /\ search EMAIL_RE (strip raw) = Some m /\ In 64 m /\ x = strip m)).
Proof.
  unfold extract_email_or_cust_id.
  destruct (truthy raw) eqn:T; [| done]. cbn [negb]. cbv zeta.
  pose proof (search_cust_spec (strip raw)) as HC.
  destruct (search CUST_RE (strip raw)) as [m|] eqn:S1.
  - intros [= <-]. split; [done |]. exists m. destruct HC as [Hm _].
    split; [by apply search_contains in S1 |].
    left. by rewrite (cust_token_strip m Hm).
  - destruct (search EMAIL_RE (strip raw)) as [m|] eqn:S2; [| done].
    intros [= <-]. split; [done |]. exists m.
    split; [by apply search_contains in S2 |].
    right. repeat split; try done. by apply search_email_at in S2.
Qed.

(** X5: what [extract_email_or_cust_id] returns is never empty, is a piece
    of the text it was given, and is either a token of the customer-id
    pattern ([cust_] in some letter case, the s possibly a long s, then
    word characters) or holds an at sign. *)
Theorem extracted_identifier_shape (raw x : str) :
  extract_email_or_cust_id raw = Some x ->
  truthy x = true
  /\ contains x raw = true
  /\ (cust_token x \/ contains (txt "@") x = true).
Proof.
  intros (_ & m & Hm & [(_ & Hc & ->) | (_ & _ & Hat & ->)])%extract_inv.
  - split; [by apply cust_token_truthy |].
    split; [| by left].
    eapply contains_trans; [exact Hm | apply contains_strip].
  - assert (In 64 (strip m)) as Hs by (by apply In_strip).
    split; [by destruct (strip m) |].
    split; [| right; by apply In_contains].
    eapply contains_trans; [apply contains_strip |].
    eapply contains_trans; [exact Hm | apply contains_strip].
Qed.

Lemma extracted_identifier_shape_witness :
  truthy (txt "a.b@c.de") = true
  /\ contains (txt "a.b@c.de") (txt "write to a.b@c.de, please") = true
  /\ (cust_token (txt "a.b@c.de") \/ contains (txt "@") (txt "a.b@c.de") = true).
Proof. apply (extracted_identifier_shape (txt "write to a.b@c.de, please")). reflexivity. Defined.

(** ** The customer lookup of [src/tools.py] *)

(** X6: whenever an identifier can be extracted from the input,
    [get_customer_data] works with exactly that identifier: it looks it up
    by id when its lower case begins with [cust_], by email when it holds
    an at sign, reading the directory once, and refuses it without reading
    the directory otherwise, which happens only for a token spelled with a
    long s. *)
Theorem extracted_identifier_is_looked_up (email x : str) (cs : list row) :
  extract_email_or_cust_id email = Some x ->
  get_customer_data email cs
  = (if startswith (txt "cust_") (lower x) then (lookup_by_id x cs, 1%nat)
     else if contains (txt "@") x then (lookup_by_email x cs, 1%nat)
     else (not_found INVALID_INPUT, 0%nat))
  /\ (startswith (txt "cust_") (lower x) = true \/ contains (txt "@") x = true
      \/ x !! 2%nat = Some 383).
Proof.
  intros Hx.
  pose proof Hx as (Traw & m & Hm & Hcase)%extract_inv.
  assert (truthy x = true /\ truthy m = true
          /\ (startswith (txt "cust_") (lower x) = true \/ contains (txt "@") x = true
              \/ x !! 2%nat = Some 383)) as (Tx & Tm & Hg).
  { destruct Hcase as [(_ & Hc & ->) | (_ & _ & Hat & ->)].
    - split; [by apply cust_token_truthy |]. split; [by apply cust_token_truthy |].
      destruct (decide (m !! 2%nat = Some 383)) as [E | E]; [by right; right |].
      left. by apply cust_token_prefix.
    - assert (In 64 (strip m)) as Hs by (by apply In_strip).
      split; [by destruct (strip m) |]. split; [by destruct m |].
      right. left. by apply In_contains. }
  split; [| exact Hg].
  assert (truthy (strip email) = true) as Ts by (by eapply truthy_contains).
  assert (extract_email_or_cust_id (strip email) = Some x) as Hx'.
  { revert Hx. unfold extract_email_or_cust_id.
    rewrite Traw, Ts, strip_idempotent. done. }
  unfold get_customer_data. cbv zeta.
  rewrite Ts, Hx', Tx. cbn [negb].
  destruct (startswith (txt "cust_") (lower x)) eqn:Hs.
  - rewrite andb_false_r. reflexivity.
  - destruct (contains (txt "@") x); reflexivity.
Qed.

Lemma extracted_identifier_is_looked_up_witness :
  get_customer_data (txt "my id is Cust_001, thanks") [sarah] = (found_record sarah, 1%nat).
Proof.
  destruct (extracted_identifier_is_looked_up
              (txt "my id is Cust_001, thanks") (txt "Cust_001") [sarah]) as [H _];
    [reflexivity |].
  rewrite H. reflexivity.
Defined.

Lemma find_row_Some (k v : str) (cs : list row) (r : row) :
  find_row k v cs = Some r -> In r cs /\ field_key r k = v.
Proof.
  unfold find_row. intros [Hin He]%find_some. split; [done |].
  unfold eqb in He. by apply bool_decide_eq_true in He.
Qed.

Lemma found_record_field (r : row) (k : str) (v : option str) :
  r !! k = Some v -> found_record r !! k = Some (row_val v).
Proof.
  intros H. unfold found_record. apply lookup_union_Some_l.
  by rewrite lookup_fmap, H.
Qed.

Lemma found_record_found (r : row) :
  r !! txt "found" = None -> found_record r !! txt "found" = Some (VBool true).
Proof.
  intros H. unfold found_record. rewrite lookup_union_r; [done |].
  by rewrite lookup_fmap, H.
Qed.

(** X7: [get_customer_data] reads the directory at most once, and its
    answer is either a record that says nothing was found, or a row of the
    directory with every field as it stands there; the row is marked as
    found unless it has a column of that name itself. *)
Theorem lookup_answers_from_directory (email : str) (cs : list row) :
  exists d n,
    get_customer_data email cs = (d, n) /\ (n <= 1)%nat
    /\ ((exists message, d = not_found message)
        \/ (n = 1%nat /\ exists r, In r cs
              /\ (forall k v, r !! k = Some v -> d !! k = Some (row_val v))
              /\ (r !! txt "found" = None -> d !! txt "found" = Some (VBool true)))).
Proof.
  unfold get_customer_data. cbv zeta.
  destruct (negb (truthy (strip email))).
  { eexists _, _. split; [reflexivity |]. split; [lia |]. left. by eexists. }
  match goal with |- context [lower ?x] => generalize x; intros raw end.
  destruct (negb (contains (txt "@") raw) && negb (startswith (txt "cust_") (lower raw))).
  { eexists _, _. split; [reflexivity |]. split; [lia |]. left. by eexists. }
  unfold dir_bind, Tools.get_customers.
  destruct (startswith (txt "cust_") (lower raw)); unfold dir_ret.
  - unfold lookup_by_id.
    destruct (find_row (txt "customer_id") (lower raw) cs) as [r|] eqn:F;
      eexists _, _; (split; [reflexivity |]); (split; [lia |]).
    + right. split; [done |]. exists r. apply find_row_Some in F as [Hin _].
      split; [done |]. split; [apply found_record_field | apply found_record_found].
    + left. by eexists.
  - unfold lookup_by_email.
    destruct (find_row (txt "email") (lower raw) cs) as [r|] eqn:F;
      eexists _, _; (split; [reflexivity |]); (split; [lia |]).
    + right. split; [done |]. exists r. apply find_row_Some in F as [Hin _].
      split; [done |]. split; [apply found_record_field | apply found_record_found].
    + left. by eexists.
Qed.

(** X8: a customer id that a row of the directory carries is found when
    it is passed in any letter case and with white space around it: the
    answer is a row of the directory with that id. *)
Theorem known_customer_id_is_found (raw tok : str) (cs : list row) (r : row) :
  cust_id tok -> strip raw = tok ->
  In r cs -> field_key r (txt "customer_id") = lower tok ->
  exists r', In r' cs /\ field_key r' (txt "customer_id") = lower tok
             /\ get_customer_data raw cs = (found_record r', 1%nat).
Proof.
  intros Htok Hraw Hin Hr.
  pose proof (search_whole_token tok (cust_id_token tok Htok)) as Hs.
  assert (get_customer_data raw cs = (lookup_by_id tok cs, 1%nat)) as ->.
  { apply lookup_of_cust; rewrite ?Hraw; [by apply cust_id_truthy | done | done]. }
  unfold lookup_by_id.
  destruct (find_row (txt "customer_id") (lower tok) cs) as [r'|] eqn:F.
  - exists r'. apply find_row_Some in F as [? ?]. done.
  - exfalso. unfold find_row in F.
    eapply find_none in F; [| exact Hin]. cbv beta in F.
    rewrite Hr in F. unfold eqb in F. by rewrite bool_decide_eq_true_2 in F.
Qed.

Lemma known_customer_id_is_found_witness :
  exists r', In r' [odd_row; sarah]
             /\ field_key r' (txt "customer_id") = lower (txt "cust_001")
             /\ get_customer_data (txt "  cust_001 ") [odd_row; sarah]
                = (found_record r', 1%nat).
Proof.
  apply (known_customer_id_is_found (txt "  cust_001 ") (txt "cust_001") _ sarah).
  - exists (txt "cust_"), (txt "001"). repeat split; [done | repeat constructor].
  - reflexivity.
  - right. by left.
  - reflexivity.
Defined.

(** ** Retention offers and the status log of [src/tools.py] *)

(** X9: for a reason that resolves to a sub-reason (a product issue or
    the value of the service), the offers do not depend on the customer
    tier: any two valid tiers get the same list, the one the rule table
    holds under the category and the sub-reason. *)
Theorem sub_reason_offers_ignore_tier
    (rs : rules) (tier1 tier2 reason top_key sub_key : str) :
  has_key TIER_KEY (lower (strip tier1)) = true ->
  has_key TIER_KEY (lower (strip tier2)) = true ->
  resolve_reason (normal_reason reason) = Some (top_key, Some sub_key) ->
  exists d1 d2,
    calculate_retention_offer rs tier1 reason = Ok d1
    /\ calculate_retention_offer rs tier2 reason = Ok d2
    /\ d1 !! txt "offers" = Some (VList (table_entries rs (top_key, sub_key)))
    /\ d2 !! txt "offers" = Some (VList (table_entries rs (top_key, sub_key))).
Proof.
  intros H1 H2 Hr.
  assert (forall tier, has_key TIER_KEY (lower (strip tier)) = true ->
            exists d, calculate_retention_offer rs tier reason = Ok d
                      /\ d !! txt "offers"
                         = Some (VList (table_entries rs (top_key, sub_key)))) as H.
  { intros tier Ht. unfold calculate_retention_offer. cbv zeta.
    rewrite Ht. cbn [negb].
    case_bool_decide as Hrs.
    - eexists. split; [reflexivity |]. subst rs. reflexivity.
    - fold (normal_reason reason).
      rewrite (offers_of_key rs _ _ Ht).
      unfold resolved_key. rewrite Hr.
      eexists. split; [reflexivity |]. reflexivity. }
  destruct (H tier1 H1) as (d1 & ? & ?), (H tier2 H2) as (d2 & ? & ?).
  by exists d1, d2.
Qed.

Lemma sub_reason_offers_ignore_tier_witness :
  exists d1 d2,
    calculate_retention_offer example_rules (txt "Premium") (txt "battery drains fast") = Ok d1
    /\ calculate_retention_offer example_rules (txt " new") (txt "battery drains fast") = Ok d2
    /\ d1 !! txt "offers"
       = Some (VList (table_entries example_rules (txt "product_issues", txt "battery_issues")))
    /\ d2 !! txt "offers"
       = Some (VList (table_entries example_rules (txt "product_issues", txt "battery_issues"))).
Proof.
  apply (sub_reason_offers_ignore_tier example_rules (txt "Premium") (txt " new")
           (txt "battery drains fast")); reflexivity.
Defined.

Lemma update_customer_status_cases (sys : io) (customer_id action log : str) :
  exists piece,
    (update_customer_status sys customer_id action log).2 = log ++ piece
    /\ appended_by (sys, customer_id, action)
         (update_customer_status sys customer_id action log).1 piece.
Proof.
  assert (forall message, ~ succeeded (Ok (status false message))) as Hfail.
  { intros message (d & [= <-] & H). by vm_compute in H. }
  assert (line_of (sys, customer_id, action)
          = log_line (isoformat (now sys)) (strip customer_id) (strip action)) as Hline.
  { unfold line_of, body_of, entry_of, log_line. by rewrite <- !app_assoc. }
  unfold update_customer_status. cbv zeta. rewrite <- Hline.
  destruct (negb (truthy (strip customer_id)) || negb (truthy (strip action))).
  { exists []. cbn [fst snd]. rewrite app_nil_r. split; [done |].
    right. split; [apply Hfail | by exists 0%nat]. }
  destruct (negb (open_ok sys)).
  { exists []. cbn [fst snd]. rewrite app_nil_r. split; [done |].
    right. split; [apply Hfail | by exists 0%nat]. }
  destruct (negb (encodable _)).
  { exists []. cbn [fst snd]. rewrite app_nil_r. split; [done |].
    right. split; [by intros (d & [=] & _) | by exists 0%nat]. }
  destruct (write_ok sys); cbn [fst snd].
  - eexists. split; [reflexivity |]. left. split; [| done].
    eexists. split; [reflexivity | by vm_compute].
  - eexists. split; [reflexivity |]. right. split; [apply Hfail | by eexists].
Qed.

(** X10: the status log only grows.  Whatever the calls are, the log
    before them is the start of the log after them, every call has one
    outcome, a result or an exception, and what each call has added is its
    whole line when it reports success and at most a part of its line when
    it does not. *)
Theorem status_log_append_only (calls : list (io * str * str)) (log : str) :
  exists results pieces,
    update_all calls log = (results, log ++ concat pieces)
    /\ length results = length calls
    /\ Forall2 (fun cr piece => appended_by cr.1 cr.2 piece) (zip calls results) pieces.
Proof.
  revert log. induction calls as [|[[sys cid] act] calls IH]; intros log.
  - exists [], []. cbn [update_all concat]. rewrite app_nil_r.
    split; [done |]. split; [done | constructor].
  - cbn [update_all].
    destruct (update_customer_status_cases sys cid act log) as (piece & Hlog & Hp).
    destruct (update_customer_status sys cid act log) as [r log1].
    cbn [fst snd] in Hlog, Hp. subst log1.
    destruct (IH (log ++ piece)) as (results & pieces & -> & Hlen & Hall).
    exists (r :: results), (piece :: pieces).
    split; [cbn [concat]; by rewrite <- app_assoc |].
    split; [cbn [length]; by rewrite Hlen |].
    cbn [zip zip_with]. by constructor.
Qed.

(** ** A turn of the agent step engine of [src/graph.py] *)

Lemma invoke_retry_calls (e : env) (failure : str) (calls calls' : nat)
    (r : content * list tool_call) :
  invoke_retry e failure calls = Ok (r, calls') ->
  (calls < calls' <= calls + 2)%nat.
Proof.
  unfold invoke_retry.
  destruct (llm e calls); [intros [= _ <-]; lia |].
  destruct (llm e (S calls)); [intros [= _ <-]; lia | done].
Qed.

Lemma synthesize_history (e : env) (ls ls' : loop_state) :
  synthesize e ls = Ok ls' ->
  (exists c, ls_messages ls' = ls_messages ls ++ [reply c])
  /\ (ls_calls ls <= ls_calls ls' <= ls_calls ls + 2)%nat.
Proof.
  unfold synthesize. cbv zeta.
  destruct (eqb _ (txt "end")).
  - destruct (ls_has_status_update ls);
      [intros [= <-]; cbn [constrained ls_messages ls_calls]; split; [eauto | lia] |].
    destruct (any_in END_FOLLOW_UPS _);
      [intros [= <-]; cbn [constrained ls_messages ls_calls]; split; [eauto | lia] |].
    destruct (any_in END_CANCEL_WORDS _);
      [intros [= <-]; cbn [constrained ls_messages ls_calls]; split; [eauto | lia] |].
    intros [= <-]. cbn [set_messages ls_messages ls_calls]. split; [eauto | lia].
  - destruct (invoke_retry e _ (ls_calls ls)) as [[r calls]|err] eqn:E; exc_simpl;
      [| done].
    intros [= <-]. cbn [ls_messages ls_calls].
    apply invoke_retry_calls in E. split; [eauto | lia].
Qed.

(** One turn of the loop appends to the history and invokes the model at
    most twice, or four times when it is the last. *)
Lemma loop_body_history (e : env) (ls : loop_state) :
  match loop_body e ls with
  | Raise _ => True
  | Ok (inl ls') =>
      (exists post, post <> [] /\ ls_messages ls' = ls_messages ls ++ post)
      /\ (ls_calls ls' <= ls_calls ls + 2)%nat
  | Ok (inr ls') =>
      (exists post, post <> [] /\ ls_messages ls' = ls_messages ls ++ post)
      /\ (ls_calls ls' <= ls_calls ls + 4)%nat
  end.
Proof.
  destruct (invoke_retry e (txt "LLM failed (retry failed)") (ls_calls ls))
    as [[[content tool_calls] calls]|err] eqn:E.
  2: { by rewrite (loop_body_raise _ _ _ E). }
  pose proof (invoke_retry_calls _ _ _ _ _ E) as Hc.
  destruct tool_calls as [|tc tcs].
  { rewrite (loop_body_reply _ _ _ _ E). cbn [ls_messages ls_calls].
    split; [| lia]. eexists. split; [| reflexivity]. done. }
  rewrite (loop_body_tools _ _ _ _ _ E) by done.
  destruct (only_set_route (tc :: tcs)).
  - destruct (synthesize e (after_tools e ls content (tc :: tcs) calls)) as [ls'|err] eqn:S;
      exc_simpl; [| done].
    apply synthesize_history in S as [[c Hm] Hn].
    cbn [after_tools ls_messages ls_calls] in Hm, Hn.
    split; [| lia]. rewrite Hm, <- app_assoc. eexists. split; [| reflexivity]. done.
  - destruct (max_tool_rounds <=? S (ls_tool_rounds ls))%nat;
      cbn [after_tools ls_messages ls_calls];
      (split; [| lia]); (eexists; split; [| reflexivity]); done.
Qed.

Lemma main_loop_history (e : env) (fuel : nat) (ls ls' : loop_state) :
  main_loop e fuel ls = Some (Ok ls') ->
  (ls_tool_rounds ls < max_tool_rounds)%nat ->
  (exists post, post <> [] /\ ls_messages ls' = ls_messages ls ++ post)
  /\ (ls_calls ls' + 2 * ls_tool_rounds ls <= ls_calls ls + 2 * max_tool_rounds + 2)%nat.
Proof.
  revert ls. induction fuel as [|fuel IH]; intros ls; [done |].
  cbn [main_loop].
  pose proof (loop_body_history e ls) as Hh.
  pose proof (loop_body_cases e ls) as Hr.
  destruct (loop_body e ls) as [[ls1 | ls1]|err]; [| | done].
  - intros Hm Hlt. destruct Hh as [(post1 & _ & Hp1) Hc1], Hr as (Hr1 & Hr2 & _).
    destruct (IH ls1 Hm) as [(post & Hne & Hp) Hc]; [lia |].
    split; [| lia]. exists (post1 ++ post).
    split; [| by rewrite Hp, Hp1, app_assoc].
    intros [_ ->]%app_eq_nil. done.
  - intros [= <-] Hlt. destruct Hh as [Hp Hc]. split; [done | lia].
Qed.

Lemma last_ai_index_Some (ms : list message) (i j : nat) :
  last_ai_index ms i = Some j ->
  exists c tool_calls, ms !! j = Some (AIMessage c tool_calls)
                       /\ content_truthy c = true.
Proof.
  induction i as [|i IH]; [done |]. cbn [last_ai_index].
  destruct (ms !! i) as [[| | c tcs |]|] eqn:E; try apply IH.
  destruct (content_truthy c) eqn:T; [| apply IH].
  intros [= <-]. eauto.
Qed.

Lemma contains_app_r (p s t : str) : contains p t = true -> contains p (s ++ t) = true.
Proof.
  rewrite !contains_spec. intros (a & b & ->). exists (s ++ a), b.
  by rewrite <- app_assoc.
Qed.

Lemma email_suffix_mentions_email (existing : str) :
  contains (txt "email") (lower (existing ++ EMAIL_SUFFIX)) = true.
Proof.
  apply contains_lower; [| by apply contains_app_r].
  change (txt "email") with [101; 109; 97; 105; 108].
  repeat (constructor; [by vm_compute |]). constructor.
Qed.

(** The text the billing repair stores mentions the email. *)
Lemma repair_text_mentions_email (e : env) (existing : str) (calls : nat) :
  contains (txt "email")
    (lower (match llm e calls with
            | Some (rc, _) =>
                let rewritten :=
                  if content_truthy rc
                  then extract_message_text (str_dict e) (Some rc) else [] in
                if truthy rewritten && contains (txt "email") (lower rewritten)
                then rewritten else existing ++ EMAIL_SUFFIX
            | None => existing ++ EMAIL_SUFFIX
            end)) = true.
Proof.
  destruct (llm e calls) as [[rc ?]|]; [| apply email_suffix_mentions_email].
  cbv zeta.
  match goal with |- context [truthy ?r && contains _ (lower ?r)] =>
    generalize r; intros rewritten end.
  destruct (truthy rewritten); cbn [andb]; [| apply email_suffix_mentions_email].
  destruct (contains (txt "email") (lower rewritten)) eqn:C;
    [done | apply email_suffix_mentions_email].
Qed.

Lemma same_history (ms : list message) : Forall2 same_or_email_rewrite ms ms.
Proof. apply Forall_Forall2_diag, Forall_forall. intros m _. by left. Qed.

Lemma billing_repair_rewrite (e : env) (ls : loop_state) :
  Forall2 same_or_email_rewrite (ls_messages ls) (ls_messages (billing_repair e ls))
  /\ (ls_calls (billing_repair e ls) <= S (ls_calls ls))%nat.
Proof.
  unfold billing_repair. cbv zeta.
  destruct (eqb _ (txt "billing") && _); [| split; [apply same_history | lia]].
  destruct (last_ai_index _ _) as [i|] eqn:L; [| split; [apply same_history | lia]].
  destruct (ls_messages ls !! i) as [[| | c tcs |]|] eqn:M;
    try (split; [apply same_history | lia]).
  destruct (truthy _ && negb _); [| split; [apply same_history | lia]].
  cbn [ls_messages ls_calls]. split; [| lia].
  rewrite <- (list_insert_id (ls_messages ls) i _ M) at 1.
  apply Forall2_insert; [apply same_history |].
  right. eexists c, tcs, _. split; [done |]. split; [reflexivity |].
  apply repair_text_mentions_email.
Qed.

Lemma profile_message_starts (e : env) (d : dict) (ms : list message) :
  starts_with_profile (profile_message e d :: ms) = true.
Proof.
  unfold starts_with_profile, profile_message.
  apply startswith_spec. exists (txt " " ++ str_dict e d). reflexivity.
Qed.

Lemma get_found_not_empty (d : dict) : get_found d = true -> bool_decide (d = ∅) = false.
Proof.
  intros H. apply bool_decide_eq_false_2. intros ->. by vm_compute in H.
Qed.

Lemma setup_history (e : env) (st : State) :
  exists pre,
    ls_messages (setup e st) = pre ++ messages st
    /\ (pre = []
        \/ exists d, ls_customer_data_out (setup e st) = Some d
                     /\ pre = [profile_message e d]).
Proof.
  unfold setup. cbv zeta.
  destruct (if negb (has_found (customer_data st)) && _ then prefetch e (messages st) else None)
    as [result|] eqn:F.
  - assert (get_found result = true) as Hf.
    { destruct (negb _ && _); [| done]. clear -F.
      induction (messages st) as [|m ms IH]; [done |]. cbn [prefetch] in F.
      destruct m as [| c | |]; try by apply IH.
      destruct (content_truthy c); [| by apply IH].
      destruct (extract_email_or_cust_id _) as [x|]; [| by apply IH].
      destruct (truthy x); [| by apply IH].
      destruct (get_found _) eqn:G; [| by apply IH]. by injection F as <-. }
    rewrite (get_found_not_empty _ Hf), profile_message_starts. cbn [negb andb ls_messages].
    rewrite ?andb_false_r. cbn [ls_customer_data_out ls_messages].
    exists [profile_message e result]. split; [done |]. right. by exists result.
  - cbn [ls_customer_data_out].
    destruct (customer_data st) as [d|]; [| exists []; by split; [| left]].
    destruct (negb (bool_decide (d = ∅)) && _ && negb _); cbn [ls_messages].
    + exists [profile_message e d]. split; [done |]. right. by exists d.
    + exists []. by split; [| left].
Qed.

(** X11: a turn that returns never drops or reorders a message. The
    history it returns is the history it was given, with at most one
    profile message put in front and at least one message added at the end;
    the only message that may differ is an assistant message the billing
    repair replaced by a text reply that mentions the email. Six turns of
    the loop are always enough for the result. *)
Theorem turn_keeps_history (e : env) (st : State) :
  exists r,
    (forall fuel, (max_tool_rounds <= fuel)%nat -> _invoke_agent e fuel st = Some r)
    /\ forall st', r = Ok st' ->
         exists pre post,
           (length pre <= 1)%nat /\ Forall (is_profile_message e) pre /\ post <> []
           /\ Forall2 same_or_email_rewrite (pre ++ messages st ++ post) (messages st').
Proof.
  destruct (invoke_agent_total e st) as [r Hr]. exists r. split; [done |].
  intros st' ->. specialize (Hr max_tool_rounds (le_n _)).
  unfold _invoke_agent in Hr. destruct (negb (api_key e)); [done |].
  destruct (main_loop e max_tool_rounds (setup e st)) as [[ls | err]|] eqn:M; [| done..].
  apply main_loop_history in M as [(post & Hne & Hp) _];
    [| rewrite setup_rounds; unfold max_tool_rounds; lia].
  injection Hr as <-. cbn [messages].
  destruct (setup_history e st) as (pre & Hs & Hpre).
  exists pre, post. rewrite Hs, <- app_assoc in Hp. rewrite <- Hp.
  split; [destruct Hpre as [-> | (d & _ & ->)]; cbn [length]; lia |].
  split; [destruct Hpre as [-> | (d & _ & ->)]; repeat constructor; by exists d |].
  split; [done |]. apply billing_repair_rewrite.
Qed.

(** X12: a turn invokes the model at most fourteen times in its loop,
    retries included, and at most once more for the billing repair. *)
Theorem model_call_budget (e : env) (st : State) :
  exists r,
    (forall fuel, (max_tool_rounds <= fuel)%nat -> main_loop e fuel (setup e st) = Some r)
    /\ forall ls, r = Ok ls ->
         (ls_calls ls <= 14)%nat /\ (ls_calls (billing_repair e ls) <= 15)%nat.
Proof.
  destruct (main_loop_total e max_tool_rounds (setup e st)) as (r & Hr & _);
    [by rewrite setup_rounds | unfold max_tool_rounds; lia |].
  exists r. split; [done |]. intros ls ->.
  pose proof (Hr max_tool_rounds (le_n _)) as H6.
  apply main_loop_history in H6 as [_ Hc];
    [| rewrite setup_rounds; unfold max_tool_rounds; lia].
  rewrite setup_rounds in Hc. unfold max_tool_rounds in Hc.
  assert (ls_calls (setup e st) = 0%nat) as H0.
  { unfold setup. cbv zeta. by destruct (if _ : bool then _ else _) as [?|]. }
  pose proof (billing_repair_rewrite e ls) as [_ Hb]. lia.
Qed.

(** X13: the history the model sees is the history of the state with at
    most one profile message in front, the one of the profile the turn
    works with; and whenever that profile is a found one and the history is
    not empty, the history the model sees starts with a profile message. *)
Theorem setup_injects_profile (e : env) (st : State) :
  (exists pre,
     ls_messages (setup e st) = pre ++ messages st
     /\ (pre = []
         \/ exists d, ls_customer_data_out (setup e st) = Some d
                      /\ pre = [profile_message e d]))
  /\ (has_found (ls_customer_data_out (setup e st)) = true -> messages st <> [] ->
      starts_with_profile (ls_messages (setup e st)) = true).
Proof.
  split; [apply setup_history |].
  unfold setup. cbv zeta.
  destruct (if negb (has_found (customer_data st)) && _ then prefetch e (messages st) else None)
    as [result|] eqn:F.
  - cbn [ls_customer_data_out]. intros Hf _.
    assert (bool_decide (result = ∅) = false) as ->.
    { apply bool_decide_eq_false_2. intros ->. by vm_compute in Hf. }
    rewrite profile_message_starts. cbn [negb andb ls_messages].
    rewrite ?andb_false_r. cbn [ls_messages]. apply profile_message_starts.
  - cbn [ls_customer_data_out]. intros Hf Hne.
    destruct (customer_data st) as [d|]; [| done].
    assert (bool_decide (d = ∅) = false) as ->.
    { apply bool_decide_eq_false_2. intros ->. by vm_compute in Hf. }
    destruct (messages st) as [|m ms] eqn:Hm; [done |]. cbn [negb andb].
    destruct (starts_with_profile (m :: ms)) eqn:S; cbn [negb ls_messages];
      [done | apply profile_message_starts].
Qed.

Lemma get_customer_data_cases (email : str) (cs : list row) :
  (exists message, (get_customer_data email cs).1 = not_found message)
  \/ ((get_customer_data email cs).2 = 1%nat
      /\ exists r, In r cs /\ (get_customer_data email cs).1 = found_record r).
Proof.
  unfold get_customer_data. cbv zeta.
  destruct (negb (truthy (strip email))); [left; by eexists |].
  match goal with |- context [lower ?x] => generalize x; intros raw end.
  destruct (negb (contains (txt "@") raw) && negb (startswith (txt "cust_") (lower raw)));
    [left; by eexists |].
  unfold dir_bind, Tools.get_customers.
  destruct (startswith (txt "cust_") (lower raw)); unfold dir_ret.
  - unfold lookup_by_id.
    destruct (find_row (txt "customer_id") (lower raw) cs) as [r|] eqn:F.
    + right. split; [done |]. exists r. by apply find_row_Some in F as [Hin _].
    + left. by eexists.
  - unfold lookup_by_email.
    destruct (find_row (txt "email") (lower raw) cs) as [r|] eqn:F.
    + right. split; [done |]. exists r. by apply find_row_Some in F as [Hin _].
    + left. by eexists.
Qed.

(** X14: a profile the pre-fetch loads is the answer of the directory
    lookup for an identifier extracted from a user message of the history,
    and that answer is a row of the customer directory. *)
Theorem prefetched_profile_from_directory (e : env) (ms : list message) (d : dict) :
  prefetch e ms = Some d ->
  get_found d = true
  /\ exists c x r,
       In (HumanMessage c) ms
       /\ content_truthy c = true
       /\ extract_email_or_cust_id (human_text e c) = Some x
       /\ d = (get_customer_data x (customers e)).1
       /\ In r (customers e)
       /\ d = found_record r.
Proof.
  induction ms as [|m ms IH]; [done |]. cbn [prefetch].
  assert (prefetch e ms = Some d ->
          get_found d = true
          /\ exists c x r, In (HumanMessage c) (m :: ms)
               /\ content_truthy c = true
               /\ extract_email_or_cust_id (human_text e c) = Some x
               /\ d = (get_customer_data x (customers e)).1
               /\ In r (customers e) /\ d = found_record r) as IH'.
  { intros (Hf & c & x & r & Hin & ?)%IH. split; [done |].
    exists c, x, r. split; [by right | done]. }
  destruct m as [| c | |]; try exact IH'.
  destruct (content_truthy c) eqn:T; [| exact IH'].
  destruct (extract_email_or_cust_id (human_text e c)) as [x|] eqn:E; [| exact IH'].
  destruct (truthy x); [| exact IH'].
  destruct (get_found (get_customer_data x (customers e)).1) eqn:G; [| exact IH'].
  intros [= <-]. split; [done |].
  destruct (get_customer_data_cases x (customers e)) as [[msg Hn] | (_ & r & Hin & Hr)].
  - rewrite Hn in G. by vm_compute in G.
  - exists c, x, r. split; [by left | done].
Qed.

Lemma prefetched_profile_from_directory_witness :
  get_found (found_record sarah) = true
  /\ exists c x r,
       In (HumanMessage c) [HumanMessage (CStr (txt "hi")); HumanMessage (CStr (txt "I am cust_001"))]
       /\ content_truthy c = true
       /\ extract_email_or_cust_id
            (human_text (script_env (fun _ => None) no_tools [odd_row; sarah]) c) = Some x
       /\ found_record sarah
          = (get_customer_data x
               (customers (script_env (fun _ => None) no_tools [odd_row; sarah]))).1
       /\ In r (customers (script_env (fun _ => None) no_tools [odd_row; sarah]))
       /\ found_record sarah = found_record r.
Proof.
  apply (prefetched_profile_from_directory
           (script_env (fun _ => None) no_tools [odd_row; sarah])
           [HumanMessage (CStr (txt "hi")); HumanMessage (CStr (txt "I am cust_001"))]).
  reflexivity.
Defined.

(** X15: on the billing route without a found profile, when the last
    assistant message with a content shows a text, the customer is asked
    for the email: either that text mentions it already and nothing
    changes, or the message is replaced by a text reply that does, at the
    cost of one invocation of the model. *)
Theorem billing_repair_asks_for_email
    (e : env) (ls : loop_state) (i : nat) (c : content) (tool_calls : list tool_call) :
  lower (strip (or_else (ls_next_route ls) (txt "end"))) = txt "billing" ->
  has_found (ls_customer_data_out ls) = false ->
  last_ai_index (ls_messages ls) (length (ls_messages ls)) = Some i ->
  ls_messages ls !! i = Some (AIMessage c tool_calls) ->
  truthy (extract_message_text (str_dict e) (Some c)) = true ->
  (billing_repair e ls = ls
   /\ contains (txt "email") (lower (extract_message_text (str_dict e) (Some c))) = true)
  \/ (exists text,
        ls_messages (billing_repair e ls) = <[i := reply (CStr text)]> (ls_messages ls)
        /\ contains (txt "email") (lower text) = true
        /\ ls_calls (billing_repair e ls) = S (ls_calls ls)).
Proof.
  intros Hr Hf Hl Hm Ht. unfold billing_repair. cbv zeta.
  rewrite Hr, Hf, Hl, Hm, Ht.
  replace (eqb (txt "billing") (txt "billing")) with true by reflexivity.
  cbn [negb andb].
  destruct (contains (txt "email") (lower (extract_message_text (str_dict e) (Some c))));
    cbn [negb]; [by left |].
  right. eexists. cbn [ls_messages ls_calls]. split; [reflexivity |].
  split; [apply repair_text_mentions_email | done].
Qed.

Lemma billing_repair_asks_for_email_witness :
  exists text,
    ls_messages
      (billing_repair (script_env (fun _ => None) no_tools [])
         {| ls_messages := [HumanMessage (CStr (txt "why was I charged twice?"));
                            AIMessage (CStr (txt "Let me check that charge.")) []];
            ls_customer_data_out := None; ls_next_route := Some (txt " Billing");
            ls_has_status_update := false; ls_tool_rounds := 0; ls_calls := 1 |})
    = [HumanMessage (CStr (txt "why was I charged twice?")); reply (CStr text)]
    /\ contains (txt "email") (lower text) = true.
Proof.
  destruct (billing_repair_asks_for_email (script_env (fun _ => None) no_tools [])
              {| ls_messages := [HumanMessage (CStr (txt "why was I charged twice?"));
                                 AIMessage (CStr (txt "Let me check that charge.")) []];
                 ls_customer_data_out := None; ls_next_route := Some (txt " Billing");
                 ls_has_status_update := false; ls_tool_rounds := 0; ls_calls := 1 |}
              1%nat (CStr (txt "Let me check that charge.")) [])
    as [[_ H] | (text & H1 & H2 & _)]; try reflexivity.
  - by vm_compute in H.
  - exists text. split; [exact H1 | exact H2].
Defined.

(** ** The resource cache of [src/data.py] *)

(** X17: the files are read once. The first call of either getter on
    the empty cache loads both files, a missing one as an empty directory
    or rule table; on a loaded cache both getters answer from the cache
    whatever the files hold by then, and leave the cache as it is, so this
    holds for every later call. *)
Theorem resources_read_once (first later other : disk) (c : cache) :
  (Data.get_customers first empty_cache
   = (default [] (customers_csv first), load_resources first empty_cache)
   /\ Data.get_rules first empty_cache
      = (default ∅ (rules_json first), load_resources first empty_cache)
   /\ loaded (load_resources first empty_cache) = true)
  /\ (loaded c = true ->
      Data.get_customers later c = Data.get_customers other c
      /\ Data.get_rules later c = Data.get_rules other c
      /\ (Data.get_customers later c).2 = c
      /\ (Data.get_rules later c).2 = c).
Proof.
  split; [by repeat split |].
  unfold loaded, Data.get_customers, Data.get_rules.
  destruct (_customers c), (_rules c); by try discriminate.
Qed.

(** X18: without the two data files the tools degrade instead of failing.
    The lookup reports that nobody was found for every input, and the offer
    calculation returns no offers and the message that the rules are not
    available for every valid tier. *)
Theorem missing_files_degrade (d : disk) (email customer_tier reason : str) :
  customers_csv d = None -> rules_json d = None ->
  has_key TIER_KEY (lower (strip customer_tier)) = true ->
  (exists message,
     (get_customer_data email (Data.get_customers d empty_cache).1).1 = not_found message)
  /\ calculate_retention_offer (Data.get_rules d empty_cache).1 customer_tier reason
     = Ok no_rules.
Proof.
  intros Hc Hr Ht. unfold Data.get_customers, Data.get_rules, load_resources, empty_cache.
  cbn [_customers _rules fst default]. rewrite Hc, Hr. cbn [default]. split.
  - destruct (get_customer_data_cases email []) as [H | (_ & r & [] & _)]. exact H.
  - unfold calculate_retention_offer. cbv zeta. rewrite Ht. reflexivity.
Qed.

Lemma missing_files_degrade_witness :
  (exists message,
     (get_customer_data (txt "CUST_001")
        (Data.get_customers {| customers_csv := None; rules_json := None |} empty_cache).1).1
     = not_found message)
  /\ calculate_retention_offer
       (Data.get_rules {| customers_csv := None; rules_json := None |} empty_cache).1
       (txt " Premium") (txt "too expensive")
     = Ok no_rules.
Proof. apply missing_files_degrade; reflexivity. Defined.

(** ** The policy search tool of [src/graph.py] *)

(** X19: the policy search never returns more than 3000 characters.
    Without a retriever or a query it answers with a fixed text, as it
    does when the retriever raises or finds nothing; otherwise the answer
    is the start of the contents of the documents, joined by blank
    lines. *)
Theorem policy_search_bounded (r : option retriever) (query : str) :
  (length (policy_search r query) <= 3000)%nat
  /\ (In (policy_search r query) [NO_QUERY; NO_INFO; UNAVAILABLE]
      \/ exists invoke docs,
           r = Some invoke /\ truthy query = true /\ invoke query = Some docs
           /\ docs <> []
           /\ policy_search r query
              = take 3000 (join [10; 10] (page_content <$> docs)))
  /\ (truthy query = true -> policy_search (Some _EmptyRetriever) query = NO_INFO).
Proof.
  split; [| split].
  - unfold policy_search.
    destruct r as [invoke|]; [| apply Nat.leb_le; by vm_compute].
    destruct (negb (truthy query)); [apply Nat.leb_le; by vm_compute |].
    destruct (invoke query) as [[|doc docs]|];
      [apply Nat.leb_le; by vm_compute | | apply Nat.leb_le; by vm_compute].
    rewrite length_take. lia.
  - unfold policy_search. destruct r as [invoke|]; [| left; by left].
    destruct (truthy query) eqn:T; cbn [negb]; [| left; by left].
    destruct (invoke query) as [[|doc docs]|] eqn:I.
    + left. right. by left.
    + right. exists invoke, (doc :: docs). done.
    + left. right. right. by left.
  - intros T. unfold policy_search, _EmptyRetriever. by rewrite T.
Qed.

(** ** The command line of [src/main.py] *)

(** A lowered text holds no capital letter of the alphabet. *)
Lemma lower_no_capital (k s : str) (c : N) :
  In c k -> is_upper c = true -> contains k (lower s) = false.
Proof.
  intros Hin Hc. destruct (contains k (lower s)) eqn:C; [| done].
  apply contains_spec in C as (a & b & E).
  assert (In c (lower s)) as Hs.
  { rewrite E. apply in_or_app. right. apply in_or_app. by left. }
  apply lower_from_no_upper in Hs. congruence.
Qed.

(** X20: every text [_format_error] returns starts with the error tag.
    Its test for the word API in the lowered message can never succeed,
    so an error that names neither key variable is never reported as a
    missing or invalid API key, whether it mentions the API or not. *)
Theorem format_error_api_test_is_dead (raw : str) :
  startswith (txt "[ERROR] ") (_format_error raw) = true
  /\ contains (txt "API") (lower (strip raw)) = false
  /\ (contains (txt "GOOGLE_API_KEY") (strip raw) = false ->
      contains (txt "GEMINI_API_KEY") (strip raw) = false ->
      _format_error raw <> API_KEY_ERROR).
Proof.
  assert (contains (txt "API") (lower (strip raw)) = false) as Hdead.
  { apply (lower_no_capital _ _ 65); [by left | reflexivity]. }
  split; [| split; [exact Hdead |]].
  - unfold _format_error. cbv zeta.
    repeat match goal with
           | |- context [if ?b then _ else _] => destruct b; [reflexivity |]
           end.
    reflexivity.
  - intros H1 H2. unfold _format_error. cbv zeta.
    rewrite H1, H2, Hdead. cbn [orb].
    remember (strip raw) as msg eqn:Hmsg. clear Hmsg Hdead.
    destruct (_ || _); [by vm_compute |].
    destruct (_ || _ || _).
    { intros H. apply (f_equal (take 9)) in H. by vm_compute in H. }
    destruct (_ || _ || _); [by vm_compute |].
    intros H. apply (f_equal (drop 8)) in H.
    change (drop 8 (txt "[ERROR] " ++ msg)) with msg in H.
    rewrite H in H1. by vm_compute in H1.
Qed.

Lemma fallback_reply_clean (route : str) :
  truthy (fallback_reply_for_route route) = true
  /\ jargon_trigger (fallback_reply_for_route route) = false.
Proof.
  unfold fallback_reply_for_route. cbv zeta.
  repeat match goal with
         | |- context [if ?b then _ else _] => destruct b; [by vm_compute |]
         end.
  by vm_compute.
Qed.

(** X21: what the command line prints for the result of a turn is never
    empty and never sets off the jargon trigger, and the placeholder for a
    missing response is never needed: the text is the displayable text of
    the last assistant message with a content, or else the fallback reply of
    the route. *)
Theorem printed_reply_never_empty (e : env) (result : State) :
  truthy (printed_reply e result) = true
  /\ jargon_trigger (printed_reply e result) = false
  /\ ((exists c tool_calls,
         In (AIMessage c tool_calls) (messages result)
         /\ printed_reply e result = extract_message_text (str_dict e) (Some c))
      \/ printed_reply e result
         = fallback_reply_for_route (or_else (next_route result) [])).
Proof.
  unfold printed_reply. cbv zeta.
  destruct (fallback_reply_clean (or_else (next_route result) [])) as [Hf1 Hf2].
  destruct (last_ai_content (reverse (messages result))) as [c|] eqn:L.
  - destruct (truthy (extract_message_text (str_dict e) (Some c))) eqn:T; cbn [negb].
    + rewrite T. split; [done |]. split; [apply extract_no_jargon |].
      left. clear T.
      assert (exists tcs, In (AIMessage c tcs) (reverse (messages result))) as [tcs Hin].
      { revert L. generalize (reverse (messages result)). intros l.
        induction l as [|m l IH]; [done |]. cbn [last_ai_content].
        destruct m as [| | c' tcs |];
          try (intros (tcs' & ?)%IH; exists tcs'; by right).
        destruct (content_truthy c').
        - intros [= ->]. exists tcs. by left.
        - intros (tcs' & ?)%IH. exists tcs'. by right. }
      exists c, tcs. split; [| done].
      apply list_elem_of_In. apply list_elem_of_In in Hin.
      by rewrite elem_of_reverse in Hin.
    + rewrite Hf1. split; [done |]. split; [done |]. by right.
  - cbn [truthy negb]. rewrite Hf1. split; [done |]. split; [done |]. by right.
Qed.

(** ** The chat of [src/streamlit_app.py] *)

Lemma sanitize_clean (text : str) :
  jargon_trigger text = false -> sanitize_internal_jargon text = text.
Proof.
  unfold jargon_trigger, sanitize_internal_jargon. cbv zeta. intros H.
  destruct text as [|c text]; [done |]. cbn [truthy negb].
  remember (lower (strip (c :: text))) as t eqn:Ht. clear Ht.
  repeat (apply orb_false_iff in H as [H ?]).
  rewrite H.
  repeat match goal with Hc : contains _ t = false |- _ => rewrite Hc; clear Hc end.
  reflexivity.
Qed.

(** X22: the chat shows the text the command line prints: the second
    pass of the jargon replacement the chat makes over the reply changes
    nothing, and neither does the one it makes each time it renders the
    stored reply again. *)
Theorem chat_reply_is_printed_reply (e : env) (result : State) :
  chat_reply e result = printed_reply e result
  /\ rendered (chat_reply e result) = chat_reply e result.
Proof.
  assert (chat_reply e result = printed_reply e result) as E.
  { unfold chat_reply, printed_reply. cbv zeta.
    match goal with
    | |- (if truthy (sanitize_internal_jargon ?r) then _ else _) = _ =>
        assert (jargon_trigger r = false) as Hr; [| by rewrite (sanitize_clean r Hr)]
    end.
    destruct (negb (truthy _));
      [apply fallback_reply_clean |].
    destruct (last_ai_content _); [apply extract_no_jargon | by vm_compute]. }
  split; [exact E |]. rewrite E. unfold rendered. apply sanitize_clean.
  unfold printed_reply. cbv zeta.
  match goal with
  | |- jargon_trigger (if truthy ?r then _ else _) = false =>
      assert (jargon_trigger r = false) as Hr;
        [| destruct (truthy r); [exact Hr | by vm_compute]]
  end.
  destruct (negb (truthy _)); [apply fallback_reply_clean |].
  destruct (last_ai_content _); [apply extract_no_jargon | by vm_compute].
Qed.

(** ** The tool calls of a response *)

Lemma scan_tool_calls_snoc (tcs : list tool_call) (tc : tool_call)
    (nr : option str) (hs : bool) :
  scan_tool_calls (tcs ++ [tc]) nr hs
  = (if bool_decide (tc_name tc = Some (txt "set_route"))
     then Some (lower (strip (or_else (tc_route tc) (txt "end"))))
     else (scan_tool_calls tcs nr hs).1,
     if bool_decide (tc_name tc = Some (txt "update_customer_status"))
     then true else (scan_tool_calls tcs nr hs).2).
Proof.
  unfold scan_tool_calls. rewrite foldl_app. cbn [foldl].
  by destruct (foldl _ _ tcs) as [nr' hs'].
Qed.

(** X23: among the tool calls of a response the last call of the routing
    tool decides the route, which is stored trimmed and in lower case, with
    end for a missing or empty argument; without such a call the route
    stays as it was. The status flag is raised by any call of the status
    tool and never lowered. *)
Theorem last_route_call_wins (tcs : list tool_call) (nr : option str) (hs : bool) :
  scan_tool_calls tcs nr hs
  = (match List.find (fun tc => bool_decide (tc_name tc = Some (txt "set_route")))
                     (reverse tcs) with
     | Some tc => Some (lower (strip (or_else (tc_route tc) (txt "end"))))
     | None => nr
     end,
     hs || existsb (fun tc => bool_decide (tc_name tc = Some (txt "update_customer_status")))
                   tcs).
Proof.
  induction tcs as [|tc tcs IH] using rev_ind.
  - cbn. by rewrite orb_false_r.
  - rewrite scan_tool_calls_snoc, IH, reverse_snoc, existsb_app. cbn [fst snd find existsb].
    f_equal.
    + by destruct (bool_decide (tc_name tc = Some (txt "set_route"))).
    + destruct (bool_decide (tc_name tc = Some (txt "update_customer_status")));
        cbn [orb]; by rewrite ?orb_true_r, ?orb_false_r.
Qed.

(** ** The shape of a displayed text *)

Lemma trimmed_strip (s : str) : trimmed s -> strip s = s.
Proof.
  intros [-> | (c & t & z & -> & Hc & Hl & Hz)]; [done |].
  unfold strip. rewrite lstrip_id by done. by apply (rstrip_id _ z).
Qed.

Lemma strip_trimmed (s : str) : trimmed (strip s).
Proof.
  unfold strip.
  destruct (lstrip_head s) as [-> | (c & t & -> & Hc)]; [by left |].
  rewrite rstrip_cons by done. right.
  unfold rstrip.
  destruct (lstrip_head (reverse t)) as [-> | (z & u & -> & Hz)].
  - exists c, [], c. done.
  - exists c, (reverse (z :: u)), z. split; [done |]. split; [done |].
    split; [| done]. by rewrite reverse_cons, app_comm_cons, last_snoc.
Qed.

Lemma trimmed_snoc (s : str) (z : N) :
  trimmed s -> s <> [] -> is_space z = false -> trimmed (s ++ [z]).
Proof.
  intros [-> | (c & t & _ & -> & Hc & _)] Hne Hz; [done |].
  right. exists c, (t ++ [z]), z. split; [done |]. split; [done |].
  split; [| done]. by rewrite last_snoc.
Qed.

Lemma trimmed_app (s sep t : str) :
  trimmed s -> s <> [] -> trimmed t -> t <> [] -> trimmed (s ++ sep ++ t).
Proof.
  intros [-> | (c & s' & _ & -> & Hc & _)] Hs [-> | (d & t' & z & -> & _ & Hl & Hz)] Ht;
    try done.
  right. exists c, (s' ++ sep ++ d :: t'), z. split; [done |]. split; [done |].
  split; [| done].
  by rewrite !last_app, Hl.
Qed.

Lemma finish_trimmed (text : str) : trimmed text -> trimmed (_finish_if_chopped text).
Proof.
  intros Ht. unfold _finish_if_chopped.
  destruct (negb (truthy text) || _); [done |]. cbv zeta.
  assert (rstrip text = text) as ->.
  { destruct Ht as [-> | (c & t & z & -> & _ & Hl & Hz)]; [done |].
    by apply (rstrip_id _ z). }
  destruct (last_char text) as [c|] eqn:L; [| done].
  destruct (negb (char_in c SENTENCE_END)); [| done].
  apply trimmed_snoc; [done | by intros -> | reflexivity].
Qed.

Lemma jargon_trimmed (text : str) : trimmed text -> trimmed (sanitize_internal_jargon text).
Proof.
  intros Ht. unfold sanitize_internal_jargon.
  assert (trimmed ANYTHING_ELSE) as Ha.
  { right. eexists _, _, _. split; [reflexivity |]. by vm_compute. }
  destruct (negb (truthy text)); [by left |]. cbv zeta.
  repeat match goal with
         | |- context [if ?b then ANYTHING_ELSE else _] => destruct b; [exact Ha |]
         end.
  exact Ht.
Qed.

Lemma join_trimmed (sep : str) (parts : list str) :
  Forall (fun p => trimmed p /\ p <> []) parts ->
  trimmed (join sep parts) /\ (parts <> [] -> join sep parts <> []).
Proof.
  induction 1 as [|p ps [Hp Hne] Hps [IH1 IH2]]; [split; [by left | done] |].
  destruct ps as [|q ps]; [by split |].
  change (join sep (p :: q :: ps)) with (p ++ sep ++ join sep (q :: ps)).
  split.
  - apply trimmed_app; [done | done | done | by apply IH2].
  - intros _ [-> _]%app_eq_nil. done.
Qed.

(** X24: a text [extract_message_text] returns has no white space at
    either end, whatever the content is: trimming it again changes
    nothing. *)
Theorem displayed_text_is_trimmed (str_other : dict -> str) (c : option content) :
  strip (extract_message_text str_other c) = extract_message_text str_other c.
Proof.
  apply trimmed_strip.
  destruct c as [[s | bs | d]|]; cbn [extract_message_text]; [| | | by left];
    unfold sanitize; apply jargon_trimmed, finish_trimmed; try apply strip_trimmed.
  cbv zeta. apply join_trimmed, Forall_forall.
  intros p [Hp Hin]%list_elem_of_filter.
  apply list_elem_of_omap in Hin as (b & _ & Hb).
  split; [| by destruct p].
  destruct b as [s | [ty|] [t|]]; cbn [block_text] in Hb; try done.
  - injection Hb as <-. apply strip_trimmed.
  - destruct (eqb ty (txt "text")); [| done]. injection Hb as <-. apply strip_trimmed.
Qed.
